(** * Trackwise: the GitHub-backed dashboard state store ([/api/state])

    A shallow embedding of the serverless handler that keeps dashboard
    documents and their manifest in a GitHub repository, together with the
    library functions it calls ([JSON.stringify], [JSON.parse], base64
    transcoding, [String], [trim]) and a model of the contents API it
    talks to.

    Conventions.
    - A JavaScript string is the Rocq [string] of the bytes of its UTF-8
      form, so [Buffer.from(str, 'utf8')] is the list of its characters.
      A surrogate that stands alone has no UTF-8 form: the model writes it
      in the three bytes that [utf8_encode] gives it, where [Buffer] writes
      U+FFFD, so [toBase64] and [fromBase64] are those of the code on
      well-formed strings only.
    - A finite JavaScript number is identified with the decimal expansion
      that [Number::toString] prints for it (the digits [s] and the position
      of the decimal point [n] of ECMA-262); [+0] and [-0] are one value, as
      they are for [===]. Rounding of a literal onto binary64 is outside the
      model.
    - An object is the list of its properties in the order in which they
      were defined, which is the order in which [JSON.stringify] writes
      them; the names are pairwise distinct. (An engine lists integer-like
      names first; the model does not tell them apart.)
    - [undefined] is [None] of an [option]. *)

From Stdlib Require Import ZArith NArith Ascii String List Lia Bool.
From Stdlib Require DecimalNat.
From stdpp Require Import gmap strings list.

Local Open Scope Z_scope.

#[local] Arguments String.append !s1 s2 : simpl nomatch.

(** ** Characters and small string helpers *)

Module Chars.

Definition code (c : ascii) : N := N_of_ascii c.

Definition is_digit (c : ascii) : bool :=
  (48 <=? code c)%N && (code c <=? 57)%N.

Definition is_lower (c : ascii) : bool :=
  (97 <=? code c)%N && (code c <=? 122)%N.

Definition is_upper (c : ascii) : bool :=
  (65 <=? code c)%N && (code c <=? 90)%N.

Definition LF : ascii := ascii_of_N 10.
Definition CR : ascii := ascii_of_N 13.
Definition TAB : ascii := ascii_of_N 9.
Definition BS : ascii := ascii_of_N 8.
Definition FF : ascii := ascii_of_N 12.
Definition SP : ascii := ascii_of_N 32.
Definition QUOTE : ascii := ascii_of_N 34.
Definition BACKSLASH : ascii := ascii_of_N 92.

End Chars.

Import Chars.

Fixpoint str_forallb (p : ascii -> bool) (s : string) : bool :=
  match s with
  | EmptyString => true
  | String c r => p c && str_forallb p r
  end.

Fixpoint str_filter (p : ascii -> bool) (s : string) : string :=
  match s with
  | EmptyString => EmptyString
  | String c r => if p c then String c (str_filter p r) else str_filter p r
  end.

Fixpoint str_rev_onto (s acc : string) : string :=
  match s with
  | EmptyString => acc
  | String c r => str_rev_onto r (String c acc)
  end.

Definition str_rev (s : string) : string := str_rev_onto s EmptyString.

Fixpoint str_repeat (c : ascii) (n : nat) : string :=
  match n with
  | O => EmptyString
  | S m => String c (str_repeat c m)
  end.

Fixpoint str_take (n : nat) (s : string) : string :=
  match n, s with
  | S m, String c r => String c (str_take m r)
  | _, _ => EmptyString
  end.

Fixpoint str_drop (n : nat) (s : string) : string :=
  match n, s with
  | S m, String _ r => str_drop m r
  | _, _ => s
  end.

(** [a.join(sep)] on an array of strings. *)
Fixpoint join (sep : string) (l : list string) : string :=
  match l with
  | [] => EmptyString
  | [x] => x
  | x :: r => x +:+ sep +:+ join sep r
  end.

(** ** Decimal numerals *)

Fixpoint string_of_uint (d : Decimal.uint) : string :=
  match d with
  | Decimal.Nil => EmptyString
  | Decimal.D0 r => String "0" (string_of_uint r)
  | Decimal.D1 r => String "1" (string_of_uint r)
  | Decimal.D2 r => String "2" (string_of_uint r)
  | Decimal.D3 r => String "3" (string_of_uint r)
  | Decimal.D4 r => String "4" (string_of_uint r)
  | Decimal.D5 r => String "5" (string_of_uint r)
  | Decimal.D6 r => String "6" (string_of_uint r)
  | Decimal.D7 r => String "7" (string_of_uint r)
  | Decimal.D8 r => String "8" (string_of_uint r)
  | Decimal.D9 r => String "9" (string_of_uint r)
  end.

(** The decimal numeral of a natural number, without leading zeros
    (["0"] for zero). *)
Definition string_of_nat (n : nat) : string := string_of_uint (Nat.to_uint n).

Definition digit_val (c : ascii) : nat := N.to_nat (code c - 48)%N.

(** The value of a string of digits read from the left, onto [acc]. *)
Fixpoint digits_value (s : string) (acc : nat) : nat :=
  match s with
  | EmptyString => acc
  | String c r => digits_value r (10 * acc + digit_val c)%nat
  end.

(** ** JavaScript values *)

Set Warnings "-register-all".

(** A Number: [Finite neg s n] is the number whose decimal digits are [s]
    (no leading and no trailing zero) with the decimal point after the
    [n]-th digit, i.e. [0.s * 10^n], negated when [neg]. *)
Inductive number : Type :=
| NaN
| Infinity (neg : bool)
| Zero
| Finite (neg : bool) (s : string) (n : Z).

Inductive value : Type :=
| VNull
| VBool (b : bool)
| VNum (x : number)
| VStr (s : string)
| VArr (l : list value)
| VObj (props : list (string * value)).

Definition number_eqb (x y : number) : bool :=
  match x, y with
  | NaN, _ | _, NaN => false
  | Infinity a, Infinity b => Bool.eqb a b
  | Zero, Zero => true
  | Finite a s n, Finite b t m => Bool.eqb a b && String.eqb s t && (n =? m)
  | _, _ => false
  end.

(** Digits of a non-empty numeral with no leading and no trailing zero. *)
Definition nonzero_head (s : string) : bool :=
  match s with
  | EmptyString => false
  | String c _ => negb (Ascii.eqb c "0")
  end.

Definition canonical_digits (s : string) : bool :=
  str_forallb is_digit s && nonzero_head s && nonzero_head (str_rev s).

Definition number_finite (x : number) : bool :=
  match x with
  | Zero => true
  | Finite _ s _ => canonical_digits s
  | _ => false
  end.

(** Strip the zeros at the front of a numeral, counting them. *)
Fixpoint strip_zeros (s : string) : nat * string :=
  match s with
  | String c r =>
      if Ascii.eqb c "0" then let '(k, t) := strip_zeros r in (S k, t) else (O, s)
  | EmptyString => (O, EmptyString)
  end.

(** The Number denoted by the digits [ds] with the decimal point after the
    [n]-th of them. *)
Definition number_of_digits (neg : bool) (ds : string) (n : Z) : number :=
  let '(k, t) := strip_zeros ds in
  let '(_, u) := strip_zeros (str_rev t) in
  match u with
  | EmptyString => Zero
  | _ => Finite neg (str_rev u) (n - Z.of_nat k)
  end.

Definition number_of_Z (z : Z) : number :=
  let ds := string_of_nat (Z.abs_nat z) in
  number_of_digits (z <? 0) ds (Z.of_nat (String.length ds)).

(** [Number::toString(x)] for radix 10. *)
Definition Number_toString (x : number) : string :=
  match x with
  | NaN => "NaN"
  | Infinity neg => if neg then "-Infinity" else "Infinity"
  | Zero => "0"
  | Finite neg s n =>
      let k := Z.of_nat (String.length s) in
      let body :=
        if (k <=? n) && (n <=? 21) then
          s +:+ str_repeat "0" (Z.to_nat (n - k))
        else if (0 <? n) && (n <=? 21) then
          str_take (Z.to_nat n) s +:+ "." +:+ str_drop (Z.to_nat n) s
        else if (-6 <? n) && (n <=? 0) then
          "0." +:+ str_repeat "0" (Z.to_nat (- n)) +:+ s
        else
          let e := n - 1 in
          let sign := if e <? 0 then "-" else "+" in
          let mant :=
            match s with
            | String c EmptyString => s
            | String c r => String c ("." +:+ r)
            | EmptyString => s
            end in
          mant +:+ "e" +:+ sign +:+ string_of_nat (Z.abs_nat e)
      in
      if neg then "-" +:+ body else body
  end.

(** Truthiness ([ToBoolean]). *)
Definition truthy (v : value) : bool :=
  match v with
  | VNull => false
  | VBool b => b
  | VNum NaN | VNum Zero => false
  | VNum _ => true
  | VStr s => negb (String.eqb s "")
  | VArr _ | VObj _ => true
  end.

Definition truthy_opt (o : option value) : bool :=
  match o with
  | Some v => truthy v
  | None => false
  end.

(** ** [JSON.stringify] *)

Definition hex_char (n : N) : ascii :=
  if (n <? 10)%N then ascii_of_N (48 + n) else ascii_of_N (87 + n).

(** The escape of one character in [QuoteJSONString]. *)
Definition json_escape (c : ascii) : string :=
  if Ascii.eqb c BS then "\b"
  else if Ascii.eqb c TAB then "\t"
  else if Ascii.eqb c LF then "\n"
  else if Ascii.eqb c FF then "\f"
  else if Ascii.eqb c CR then "\r"
  else if Ascii.eqb c QUOTE then String BACKSLASH (String QUOTE EmptyString)
  else if Ascii.eqb c BACKSLASH then String BACKSLASH (String BACKSLASH EmptyString)
  else if (code c <? 32)%N then
    String BACKSLASH
      (String "u" (String "0" (String "0"
         (String (hex_char (code c / 16)) (String (hex_char (code c mod 16)) EmptyString)))))
  else String c EmptyString.

Fixpoint json_escape_all (s : string) : string :=
  match s with
  | EmptyString => EmptyString
  | String c r => json_escape c +:+ json_escape_all r
  end.

Definition QuoteJSONString (s : string) : string :=
  String QUOTE (json_escape_all s +:+ String QUOTE EmptyString).

Definition spaces (n : nat) : string := str_repeat SP n.

(** The line break that precedes an item at indentation [indent]; nothing
    when the gap is empty. *)
Definition newline (gap indent : nat) : string :=
  match gap with
  | O => EmptyString
  | _ => String LF (spaces indent)
  end.

Definition colon (gap : nat) : string :=
  match gap with
  | O => ":"
  | _ => ": "
  end.

(** [SerializeJSONProperty] with [SerializeJSONArray] and
    [SerializeJSONObject]: [gap] is the number of spaces of one level,
    [indent] the current indentation. *)
Fixpoint serialize (gap indent : nat) (v : value) : string :=
  match v with
  | VNull => "null"
  | VBool true => "true"
  | VBool false => "false"
  | VNum x => if number_finite x then Number_toString x else "null"
  | VStr s => QuoteJSONString s
  | VArr l =>
      match l with
      | [] => "[]"
      | _ =>
          let inner := (indent + gap)%nat in
          "[" +:+ newline gap inner
            +:+ join ("," +:+ newline gap inner) (map (serialize gap inner) l)
            +:+ newline gap indent +:+ "]"
      end
  | VObj props =>
      match props with
      | [] => "{}"
      | _ =>
          let inner := (indent + gap)%nat in
          "{" +:+ newline gap inner
            +:+ join ("," +:+ newline gap inner)
                  (map (fun kv => QuoteJSONString (fst kv) +:+ colon gap
                                    +:+ serialize gap inner (snd kv)) props)
            +:+ newline gap indent +:+ "}"
      end
  end.

(** [JSON.stringify(v, null, space)] for a numeric [space]. *)
Definition JSON_stringify (v : value) (space : nat) : string :=
  serialize (Nat.min 10 space) 0 v.

(** ** [JSON.parse] *)

Definition is_ws (c : ascii) : bool :=
  Ascii.eqb c SP || Ascii.eqb c TAB || Ascii.eqb c LF || Ascii.eqb c CR.

Fixpoint skip_ws (s : string) : string :=
  match s with
  | String c r => if is_ws c then skip_ws r else s
  | EmptyString => EmptyString
  end.

(** The longest prefix whose characters satisfy [p], and what follows. *)
Fixpoint span (p : ascii -> bool) (s : string) : string * string :=
  match s with
  | String c r =>
      if p c then let '(a, b) := span p r in (String c a, b) else (EmptyString, s)
  | EmptyString => (EmptyString, EmptyString)
  end.

(** If [s] starts with [pre], what follows it. *)
Fixpoint strip_prefix (pre s : string) : option string :=
  match pre, s with
  | EmptyString, _ => Some s
  | String a p, String b r => if Ascii.eqb a b then strip_prefix p r else None
  | String _ _, EmptyString => None
  end.

(** If [s] starts with the character [c], what follows it. *)
Definition peek (c : ascii) (s : string) : option string :=
  match s with
  | String d r => if Ascii.eqb d c then Some r else None
  | EmptyString => None
  end.

(** The JSON number grammar: an optional minus sign; an integer part that
    is a single zero or starts with a non-zero digit; an optional fraction
    of a point and at least one digit; an optional exponent of [e] or [E],
    an optional sign and at least one digit. *)
Definition parse_fraction (s : string) : option (string * string) :=
  match peek "." s with
  | Some r =>
      let '(f, r') := span is_digit r in
      match f with
      | EmptyString => None
      | _ => Some (f, r')
      end
  | None => Some (EmptyString, s)
  end.

Definition parse_exponent (s : string) : option (Z * string) :=
  match (match peek "e" s with Some r => Some r | None => peek "E" s end) with
  | Some r =>
      let '(neg, r1) :=
        match peek "+" r with
        | Some t => (false, t)
        | None =>
            match peek "-" r with
            | Some t => (true, t)
            | None => (false, r)
            end
        end in
      let '(e, r2) := span is_digit r1 in
      match e with
      | EmptyString => None
      | _ =>
          let m := Z.of_nat (digits_value e 0) in
          Some (if neg then - m else m, r2)
      end
  | None => Some (0, s)
  end.

Definition parse_unsigned (neg : bool) (s1 : string) : option (number * string) :=
  let '(i, s2) := span is_digit s1 in
  match i with
  | EmptyString => None
  | String c r =>
      if Ascii.eqb c "0" && negb (String.eqb r "") then None
      else
        match parse_fraction s2 with
        | None => None
        | Some (f, s3) =>
            match parse_exponent s3 with
            | None => None
            | Some (e, s4) =>
                Some (number_of_digits neg (i +:+ f)
                        (Z.of_nat (String.length i) + e), s4)
            end
        end
  end.

Definition parse_number (s : string) : option (number * string) :=
  match peek "-" s with
  | Some r => parse_unsigned true r
  | None => parse_unsigned false s
  end.

Definition hex_val (c : ascii) : option N :=
  if is_digit c then Some (code c - 48)%N
  else if (97 <=? code c)%N && (code c <=? 102)%N then Some (code c - 87)%N
  else if (65 <=? code c)%N && (code c <=? 70)%N then Some (code c - 55)%N
  else None.

(** The UTF-8 form of a code point (a surrogate that stands alone is
    written in the same three-byte form). *)
Definition utf8_encode (cp : N) : string :=
  (if cp <? 128 then String (ascii_of_N cp) EmptyString
   else if cp <? 2048 then
     String (ascii_of_N (192 + cp / 64))
       (String (ascii_of_N (128 + cp mod 64)) EmptyString)
   else if cp <? 65536 then
     String (ascii_of_N (224 + cp / 4096))
       (String (ascii_of_N (128 + (cp / 64) mod 64))
          (String (ascii_of_N (128 + cp mod 64)) EmptyString))
   else
     String (ascii_of_N (240 + cp / 262144))
       (String (ascii_of_N (128 + (cp / 4096) mod 64))
          (String (ascii_of_N (128 + (cp / 64) mod 64))
             (String (ascii_of_N (128 + cp mod 64)) EmptyString))))%N.

Definition is_high_surrogate (u : N) : bool := ((55296 <=? u) && (u <=? 56319))%N.
Definition is_low_surrogate (u : N) : bool := ((56320 <=? u) && (u <=? 57343))%N.

(** The scanner of a string literal, one character at a time. [pend] is a
    high surrogate read from a [\u] escape that waits for its low half. *)
Inductive scan_state : Type :=
| Plain
| Escape
| Hex (more : nat) (acc : N).

Definition flush (pend : option N) (k : option (string * string)) : option (string * string) :=
  match pend, k with
  | Some hi, Some (t, r) => Some (utf8_encode hi +:+ t, r)
  | _, _ => k
  end.

Definition emit (out : string) (k : option (string * string)) : option (string * string) :=
  match k with
  | Some (t, r) => Some (out +:+ t, r)
  | None => None
  end.

Fixpoint scan_string (st : scan_state) (pend : option N) (s : string)
  : option (string * string) :=
  match s with
  | EmptyString => None
  | String c r =>
      match st with
      | Plain =>
          if Ascii.eqb c QUOTE then flush pend (Some (EmptyString, r))
          else if Ascii.eqb c BACKSLASH then scan_string Escape pend r
          else if (code c <? 32)%N then None
          else flush pend (emit (String c EmptyString) (scan_string Plain None r))
      | Escape =>
          if Ascii.eqb c "u" then scan_string (Hex 4 0%N) pend r
          else
            let simple (d : ascii) :=
              flush pend (emit (String d EmptyString) (scan_string Plain None r)) in
            if Ascii.eqb c QUOTE then simple QUOTE
            else if Ascii.eqb c BACKSLASH then simple BACKSLASH
            else if Ascii.eqb c "/" then simple "/"%char
            else if Ascii.eqb c "b" then simple BS
            else if Ascii.eqb c "f" then simple FF
            else if Ascii.eqb c "n" then simple LF
            else if Ascii.eqb c "r" then simple CR
            else if Ascii.eqb c "t" then simple TAB
            else None
      | Hex more acc =>
          match hex_val c with
          | None => None
          | Some h =>
              let u := (16 * acc + h)%N in
              match more with
              | S (S m) => scan_string (Hex (S m) u) pend r
              | _ =>
                  match pend with
                  | Some hi =>
                      if is_low_surrogate u then
                        emit (utf8_encode (65536 + (hi - 55296) * 1024 + (u - 56320))%N)
                          (scan_string Plain None r)
                      else if is_high_surrogate u then
                        emit (utf8_encode hi) (scan_string Plain (Some u) r)
                      else
                        emit (utf8_encode hi +:+ utf8_encode u) (scan_string Plain None r)
                  | None =>
                      if is_high_surrogate u then scan_string Plain (Some u) r
                      else emit (utf8_encode u) (scan_string Plain None r)
                  end
              end
          end
      end
  end.

(** [s] follows the opening quote; the result is the string and what
    follows the closing quote. *)
Definition parse_string (s : string) : option (string * string) :=
  scan_string Plain None s.

Fixpoint obj_lookup (props : list (string * value)) (k : string) : option value :=
  match props with
  | [] => None
  | (k', v) :: r => if String.eqb k' k then Some v else obj_lookup r k
  end.

(** Defining property [k]: an existing property keeps its place. *)
Fixpoint obj_set (props : list (string * value)) (k : string) (v : value)
  : list (string * value) :=
  match props with
  | [] => [(k, v)]
  | (k', v') :: r =>
      if String.eqb k' k then (k', v) :: r else (k', v') :: obj_set r k v
  end.

Definition obj_of_members (ms : list (string * value)) : list (string * value) :=
  fold_left (fun o kv => obj_set o (fst kv) (snd kv)) ms [].

Fixpoint parse_value (fuel : nat) (s : string) {struct fuel} : option (value * string) :=
  match fuel with
  | O => None
  | S f =>
      match skip_ws s with
      | EmptyString => None
      | String c r =>
          if Ascii.eqb c "n" then
            match strip_prefix "ull" r with Some t => Some (VNull, t) | None => None end
          else if Ascii.eqb c "t" then
            match strip_prefix "rue" r with Some t => Some (VBool true, t) | None => None end
          else if Ascii.eqb c "f" then
            match strip_prefix "alse" r with Some t => Some (VBool false, t) | None => None end
          else if Ascii.eqb c QUOTE then
            match parse_string r with Some (x, t) => Some (VStr x, t) | None => None end
          else if Ascii.eqb c "[" then
            match peek "]" (skip_ws r) with
            | Some t => Some (VArr [], t)
            | None =>
                match parse_elements f r with
                | Some (l, t) => Some (VArr l, t)
                | None => None
                end
            end
          else if Ascii.eqb c "{" then
            match peek "}" (skip_ws r) with
            | Some t => Some (VObj [], t)
            | None =>
                match parse_members f r with
                | Some (ms, t) => Some (VObj (obj_of_members ms), t)
                | None => None
                end
            end
          else
            match parse_number (String c r) with
            | Some (x, t) => Some (VNum x, t)
            | None => None
            end
      end
  end
with parse_elements (fuel : nat) (s : string) {struct fuel}
  : option (list value * string) :=
  match fuel with
  | O => None
  | S f =>
      match parse_value f s with
      | None => None
      | Some (v, r) =>
          match peek "]" (skip_ws r) with
          | Some t => Some ([v], t)
          | None =>
              match peek "," (skip_ws r) with
              | Some t =>
                  match parse_elements f t with
                  | Some (l, u) => Some (v :: l, u)
                  | None => None
                  end
              | None => None
              end
          end
      end
  end
with parse_members (fuel : nat) (s : string) {struct fuel}
  : option (list (string * value) * string) :=
  match fuel with
  | O => None
  | S f =>
      match peek QUOTE (skip_ws s) with
      | None => None
      | Some r =>
          match parse_string r with
          | None => None
          | Some (k, r1) =>
              match peek ":" (skip_ws r1) with
              | None => None
              | Some r2 =>
                  match parse_value f r2 with
                  | None => None
                  | Some (v, r3) =>
                      match peek "}" (skip_ws r3) with
                      | Some t => Some ([(k, v)], t)
                      | None =>
                          match peek "," (skip_ws r3) with
                          | Some t =>
                              match parse_members f t with
                              | Some (l, u) => Some ((k, v) :: l, u)
                              | None => None
                              end
                          | None => None
                          end
                      end
                  end
              end
          end
      end
  end.

(** [JSON.parse(text)]: [None] stands for the [SyntaxError] it throws. *)
Definition JSON_parse (s : string) : option value :=
  match parse_value (2 * String.length s + 2) s with
  | Some (v, r) =>
      match skip_ws r with
      | EmptyString => Some v
      | _ => None
      end
  | None => None
  end.

(** ** JSON values *)

Fixpoint distinct (l : list string) : bool :=
  match l with
  | [] => true
  | k :: r => negb (existsb (String.eqb k) r) && distinct r
  end.

(** The values JSON can carry: every number is finite, and (as for any
    object) the property names of an object are pairwise distinct. *)
Fixpoint serializable (v : value) : bool :=
  match v with
  | VNull | VBool _ | VStr _ => true
  | VNum x => number_finite x
  | VArr l => forallb serializable l
  | VObj props =>
      forallb (fun kv => serializable (snd kv)) props && distinct (map fst props)
  end.

(** ** Base64 ([Buffer]) *)

Definition b64_char (n : N) : ascii :=
  (if n <? 26 then ascii_of_N (65 + n)
   else if n <? 52 then ascii_of_N (71 + n)
   else if n <? 62 then ascii_of_N (n - 4)
   else if n =? 62 then "+"%char
   else "/"%char)%N.

(** The value of a base64 character; the decoder of [Buffer] also takes the
    URL-safe alphabet. *)
Definition unbase64 (c : ascii) : option N :=
  (if is_upper c then Some (code c - 65)
   else if is_lower c then Some (code c - 71)
   else if is_digit c then Some (code c + 4)
   else if Ascii.eqb c "+" || Ascii.eqb c "-" then Some 62
   else if Ascii.eqb c "/" || Ascii.eqb c "_" then Some 63
   else None)%N.

(** [buf.toString('base64')]. *)
Fixpoint base64_encode (s : string) : string :=
  match s with
  | String a (String b (String c r)) =>
      let x := code a in let y := code b in let z := code c in
      String (b64_char (x / 4)) (String (b64_char ((x mod 4) * 16 + y / 16))
        (String (b64_char ((y mod 16) * 4 + z / 64)) (String (b64_char (z mod 64))
           (base64_encode r))))%N
  | String a (String b EmptyString) =>
      let x := code a in let y := code b in
      String (b64_char (x / 4)) (String (b64_char ((x mod 4) * 16 + y / 16))
        (String (b64_char ((y mod 16) * 4)) "="))%N
  | String a EmptyString =>
      let x := code a in
      String (b64_char (x / 4)) (String (b64_char ((x mod 4) * 16)) "==")%N
  | EmptyString => EmptyString
  end.

(** The six-bit values of the legal characters of [s] up to the first [=];
    any other character is skipped. *)
Fixpoint sextets (s : string) : list N :=
  match s with
  | EmptyString => []
  | String c r =>
      if Ascii.eqb c "=" then []
      else
        match unbase64 c with
        | Some n => n :: sextets r
        | None => sextets r
        end
  end.

Fixpoint bytes_of_sextets (l : list N) : string :=
  match l with
  | a :: b :: c :: d :: r =>
      String (ascii_of_N (a * 4 + b / 16))
        (String (ascii_of_N ((b mod 16) * 16 + c / 4))
           (String (ascii_of_N ((c mod 4) * 64 + d)) (bytes_of_sextets r)))%N
  | [a; b; c] =>
      String (ascii_of_N (a * 4 + b / 16))
        (String (ascii_of_N ((b mod 16) * 16 + c / 4)) EmptyString)%N
  | [a; b] => String (ascii_of_N (a * 4 + b / 16)%N) EmptyString
  | _ => EmptyString
  end.

(** [Buffer.from(b64, 'base64')]. *)
Definition base64_decode (b64 : string) : string := bytes_of_sextets (sextets b64).

(** [toBase64] and [fromBase64] of the handler, on the bytes of the
    string: exact for a well-formed string and for the base64 text of
    one. *)
Definition toBase64 (str : string) : string := base64_encode str.
Definition fromBase64 (b64 : string) : string := base64_decode b64.

(** ** Conversions and property access *)

Inductive exn : Type :=
| SyntaxError (message : string)
| TypeError (message : string).

Definition exn_name (e : exn) : string :=
  match e with
  | SyntaxError _ => "SyntaxError"
  | TypeError _ => "TypeError"
  end.

Definition exn_message (e : exn) : string :=
  match e with
  | SyntaxError m | TypeError m => m
  end.

(** What an evaluation comes to: a value, or a thrown exception. *)
Inductive outcome (A : Type) : Type :=
| Ret (a : A)
| Throw (e : exn).

Arguments Ret {A} a.
Arguments Throw {A} e.

Definition obind {A B : Type} (o : outcome A) (k : A -> outcome B) : outcome B :=
  match o with
  | Ret a => k a
  | Throw e => Throw e
  end.

(** [JSON.parse] as called by the handler: the message of the syntax error
    is the engine's own. *)
Definition JSON_parse_or_throw (s : string) : outcome value :=
  match JSON_parse s with
  | Some v => Ret v
  | None => Throw (SyntaxError "Unexpected token in JSON")
  end.

(** [String(v)]. An array is joined with commas, [null] elements left
    empty; an object without a [toString] of its own prints as
    [[object Object]], and one whose own [toString] property hides the
    inherited method cannot be converted. *)
Fixpoint js_String (v : value) : outcome string :=
  match v with
  | VNull => Ret "null"
  | VBool true => Ret "true"
  | VBool false => Ret "false"
  | VNum x => Ret (Number_toString x)
  | VStr s => Ret s
  | VArr l =>
      (fix items (l : list value) : outcome string :=
         match l with
         | [] => Ret EmptyString
         | x :: r =>
             obind (match x with VNull => Ret EmptyString | _ => js_String x end)
               (fun a =>
                  match r with
                  | [] => Ret a
                  | _ => obind (items r) (fun b => Ret (a +:+ "," +:+ b))
                  end)
         end) l
  | VObj props =>
      match obj_lookup props "toString" with
      | Some _ => Throw (TypeError "Cannot convert object to primitive value")
      | None => Ret "[object Object]"
      end
  end.

(** [v.k] for the property names the handler reads: reading a property of
    [null] throws, and only an object has such a property. *)
Definition get_prop (v : value) (k : string) : outcome (option value) :=
  match v with
  | VNull => Throw (TypeError ("Cannot read properties of null (reading '" +:+ k +:+ "')"))
  | VObj props => Ret (obj_lookup props k)
  | _ => Ret None
  end.

(** [o?.k] after an optional chain. *)
Definition get_prop_opt (o : option value) (k : string) : option value :=
  match o with
  | Some (VObj props) => obj_lookup props k
  | _ => None
  end.

(** [o || dflt]. *)
Definition or_else (o : option value) (dflt : value) : value :=
  match o with
  | Some v => if truthy v then v else dflt
  | None => dflt
  end.

(** [x === s] for a string [s]. *)
Definition strict_eq_string (o : option value) (s : string) : bool :=
  match o with
  | Some (VStr t) => String.eqb t s
  | _ => false
  end.

(** The own enumerable properties that [Object.assign] copies. *)
Fixpoint indexed {A : Type} (f : A -> value) (i : nat) (l : list A) : list (string * value) :=
  match l with
  | [] => []
  | x :: r => (string_of_nat i, f x) :: indexed f (S i) r
  end.

Definition own_props (v : value) : list (string * value) :=
  match v with
  | VObj props => props
  | VArr l => indexed (fun x => x) 0 l
  | VStr s => indexed (fun c => VStr (String c EmptyString)) 0 (list_ascii_of_string s)
  | _ => []
  end.

(** [Object.assign({}, a, b)]. *)
Definition Object_assign (a : value) (b : list (string * value)) : value :=
  VObj (fold_left (fun o kv => obj_set o (fst kv) (snd kv)) (own_props a ++ b) []).

(** ** [encodeURIComponent] and [trim] *)

Definition hex_upper (n : N) : ascii :=
  if (n <? 10)%N then ascii_of_N (48 + n) else ascii_of_N (55 + n).

Definition uri_unreserved (c : ascii) : bool :=
  is_upper c || is_lower c || is_digit c
  || existsb (Ascii.eqb c) (list_ascii_of_string "-_.!~*'()").

Fixpoint encodeURIComponent (s : string) : string :=
  match s with
  | EmptyString => EmptyString
  | String c r =>
      if uri_unreserved c then String c (encodeURIComponent r)
      else String "%" (String (hex_upper (code c / 16))
                         (String (hex_upper (code c mod 16)) (encodeURIComponent r)))
  end.

(** [s.split(c)]. *)
Fixpoint split_on (c : ascii) (s : string) : list string :=
  match s with
  | EmptyString => [EmptyString]
  | String d r =>
      if Ascii.eqb d c then EmptyString :: split_on c r
      else
        match split_on c r with
        | h :: t => String d h :: t
        | [] => [String d EmptyString]
        end
  end.

(** White space and line terminators, as [trim] sees them in the UTF-8
    form: one, two or three bytes. *)
Definition ws1 (a : ascii) : bool :=
  let x := code a in ((9 <=? x) && (x <=? 13) || (x =? 32))%N.

Definition ws2 (a b : ascii) : bool :=
  ((code a =? 194) && (code b =? 160))%N.

Definition ws3 (a b c : ascii) : bool :=
  let x := code a in let y := code b in let z := code c in
  ((x =? 225) && (y =? 154) && (z =? 128)
   || (x =? 226) && (y =? 128)
      && ((128 <=? z) && (z <=? 138) || (z =? 168) || (z =? 169) || (z =? 175))
   || (x =? 226) && (y =? 129) && (z =? 159)
   || (x =? 227) && (y =? 128) && (z =? 128)
   || (x =? 239) && (y =? 187) && (z =? 191))%N.

Fixpoint trim_start (s : string) : string :=
  match s with
  | String a r =>
      if ws1 a then trim_start r
      else
        match r with
        | String b r2 =>
            if ws2 a b then trim_start r2
            else
              match r2 with
              | String c r3 => if ws3 a b c then trim_start r3 else s
              | EmptyString => s
              end
        | EmptyString => s
        end
  | EmptyString => s
  end.

(** The same, on the reversed string. *)
Fixpoint trim_start_rev (s : string) : string :=
  match s with
  | String a r =>
      if ws1 a then trim_start_rev r
      else
        match r with
        | String b r2 =>
            if ws2 b a then trim_start_rev r2
            else
              match r2 with
              | String c r3 => if ws3 c b a then trim_start_rev r3 else s
              | EmptyString => s
              end
        | EmptyString => s
        end
  | EmptyString => s
  end.

(** [s.trim()]. *)
Definition trim (s : string) : string :=
  str_rev (trim_start_rev (str_rev (trim_start s))).

(** ** The contents API of the repository host *)

Inductive verb : Type := GET | PUT | DELETE.

(** What [fetch] sends: the method, the URL, the headers and the body (the
    object that the handler passes through [JSON.stringify]). *)
Record request : Type := {
  rq_method : verb;
  rq_url : string;
  rq_headers : list (string * string);
  rq_body : option value
}.

(** What [fetch] resolves to: [r.status], [r.statusText] and the text of
    the body, [await r.text()]. *)
Record response : Type := {
  status : Z;
  statusText : string;
  raw : string
}.

(** [r.ok]. *)
Definition ok (r : response) : bool := (200 <=? status r) && (status r <=? 299).

(** A file of the repository: its blob hash and its bytes. *)
Record file : Type := {
  f_sha : string;
  f_content : string
}.

(** The world of one invocation: the files of the branch, keyed by the URL
    of their contents resource; a script of backend failures, one entry per
    call to come ([None]: the host answers as it should); the exchanges
    made so far, latest first; the count of commits, from which the host
    names new blobs; and the reading of the clock. *)
Record world : Type := {
  files : gmap string file;
  faults : list (option response);
  log : list (request * response);
  serial : nat;
  now : string
}.

(** A failure of the host is an answer outside 2xx. *)
Definition honest (w : world) : Prop :=
  Forall (fun f => match f with Some r => ok r = false | None => True end) (faults w).

(** The world once the host answers as it should again. *)
Definition settle (w : world) : world :=
  {| files := files w; faults := []; log := log w; serial := serial w; now := now w |}.

(** The part of a URL before the query. *)
Fixpoint resource (url : string) : string :=
  match url with
  | EmptyString => EmptyString
  | String c r => if Ascii.eqb c "?" then EmptyString else String c (resource r)
  end.

(** Lines of 60 characters, each closed by a line feed, as the host lays
    out base64 content. *)
Fixpoint wrap_lines (col : nat) (s : string) : string :=
  match s with
  | EmptyString => match col with O => EmptyString | _ => String LF EmptyString end
  | String c r =>
      if (60 <=? col)%nat then String LF (String c (wrap_lines 1 r))
      else String c (wrap_lines (S col) r)
  end.

Definition blob_sha (n : nat) : string := "blob" +:+ string_of_nat n.
Definition commit_url (n : nat) : string :=
  "https://github.com/commit/" +:+ string_of_nat n.

Definition body_field (body : option value) (k : string) : option value :=
  match body with
  | Some (VObj props) => obj_lookup props k
  | _ => None
  end.

Definition answer (code : Z) (text : string) (body : value) : response :=
  {| status := code; statusText := text; raw := JSON_stringify body 0 |}.

Definition problem (code : Z) (text : string) : response :=
  answer code text (VObj [("message", VStr text)]).

Definition file_json (f : file) : value :=
  VObj [("type", VStr "file"); ("encoding", VStr "base64");
        ("sha", VStr (f_sha f));
        ("content", VStr (wrap_lines 0 (base64_encode (f_content f))))].

Definition commit_json (w : world) (content : value) : value :=
  VObj [("content", content);
        ("commit", VObj [("html_url", VStr (commit_url (serial w)))])].

Definition with_files (w : world) (fs : gmap string file) : world :=
  {| files := fs; faults := faults w; log := log w; serial := S (serial w); now := now w |}.

(** The host's own behaviour: a read answers 404 for a missing file; a
    write creates a file when no hash comes with it and none is there,
    replaces one whose hash is the one given, and is refused otherwise; a
    delete needs the hash of the file. *)
Definition github (rq : request) (w : world) : response * world :=
  let key := resource (rq_url rq) in
  match rq_method rq with
  | GET =>
      match files w !! key with
      | None => (problem 404 "Not Found", w)
      | Some f => (answer 200 "OK" (file_json f), w)
      end
  | PUT =>
      match body_field (rq_body rq) "content" with
      | Some (VStr b64) =>
          let sha := blob_sha (serial w) in
          let written :=
            with_files w (<[key := {| f_sha := sha; f_content := base64_decode b64 |}]> (files w)) in
          let reply := commit_json w (VObj [("sha", VStr sha)]) in
          match files w !! key, body_field (rq_body rq) "sha" with
          | None, None => (answer 201 "Created" reply, written)
          | Some f, Some (VStr given) =>
              if String.eqb given (f_sha f) then (answer 200 "OK" reply, written)
              else (problem 409 "Conflict", w)
          | _, _ => (problem 422 "Unprocessable Entity", w)
          end
      | _ => (problem 422 "Unprocessable Entity", w)
      end
  | DELETE =>
      match files w !! key, body_field (rq_body rq) "sha" with
      | None, _ => (problem 404 "Not Found", w)
      | Some f, Some (VStr given) =>
          if String.eqb given (f_sha f) then
            (answer 200 "OK" (commit_json w VNull), with_files w (delete key (files w)))
          else (problem 409 "Conflict", w)
      | Some _, _ => (problem 422 "Unprocessable Entity", w)
      end
  end.

(** ** The monad of the handler: state and exceptions *)

Definition M (A : Type) : Type := world -> outcome A * world.

Definition ret {A : Type} (a : A) : M A := fun w => (Ret a, w).

Definition lift {A : Type} (o : outcome A) : M A := fun w => (o, w).

Definition bind {A B : Type} (m : M A) (k : A -> M B) : M B :=
  fun w =>
    match m w with
    | (Ret a, w') => k a w'
    | (Throw e, w') => (Throw e, w')
    end.

Notation "'let*' x ':=' m 'in' k" := (bind m (fun x => k))
  (at level 10, x name, m at level 100, k at level 200).

(** [await fetch(url, options)]: the next entry of the script decides
    whether the host answers or fails; the exchange is recorded. The
    promise always resolves: a call that is rejected, with no answer at
    all, is outside the model, and the calls that throw are those whose
    answer the client cannot read. *)
Definition fetch (rq : request) : M response :=
  fun w =>
    let fault := match faults w with f :: _ => f | [] => None end in
    let '(rs, w1) := match fault with Some rs => (rs, w) | None => github rq w end in
    (Ret rs,
     {| files := files w1; faults := tl (faults w); log := (rq, rs) :: log w;
        serial := serial w1; now := now w |}).

(** [new Date().toISOString()]. *)
Definition Date_toISOString : M string := fun w => (Ret (now w), w).

(** ** The handler *)

Definition API_BASE : string := "https://api.github.com".
Definition MANIFEST_PATH : string := "data/manifest.json".
Definition DASH_DIR : string := "data/dashboards".

(** The configuration read from the environment. *)
Record config : Type := {
  token : string;
  owner : string;
  repo : string;
  branch : string
}.

Definition ghHeaders (token : string) : list (string * string) :=
  [("Authorization", "Bearer " +:+ token);
   ("Accept", "application/vnd.github+json");
   ("X-GitHub-Api-Version", "2022-11-28")].

Definition json_headers (token : string) : list (string * string) :=
  ("Content-Type", "application/json") :: ghHeaders token.

Definition encodeGitHubPath (p : string) : string :=
  join "/" (map encodeURIComponent (split_on "/" p)).

(** The URL of the contents resource of [path]. *)
Definition contents_url (cfg : config) (path : string) : string :=
  API_BASE +:+ "/repos/" +:+ encodeURIComponent (owner cfg) +:+ "/"
    +:+ encodeURIComponent (repo cfg) +:+ "/contents/" +:+ encodeGitHubPath path.

(** The [error] object of a failed call. *)
Record gh_error : Type := {
  stage : string;
  e_status : Z;
  e_statusText : string;
  e_url : string;
  e_raw : string
}.

Definition error_of (stg url : string) (r : response) : gh_error :=
  {| stage := stg; e_status := status r; e_statusText := statusText r;
     e_url := url; e_raw := raw r |}.

Definition error_json (e : gh_error) : value :=
  VObj [("stage", VStr (stage e)); ("status", VNum (number_of_Z (e_status e)));
        ("statusText", VStr (e_statusText e)); ("url", VStr (e_url e));
        ("raw", VStr (e_raw e))].

Inductive get_result : Type :=
| GetError (error : gh_error)
| GetMissing (url : string)
| GetFound (sha : option value) (contentB64 : string) (url : string).

Inductive put_result : Type :=
| PutError (error : gh_error)
| PutOk (sha : value) (commitUrl : value) (url : string).

Inductive delete_result : Type :=
| DeleteError (error : gh_error)
| DeleteOk (commitUrl : value) (url : string).

Definition remove_newlines (s : string) : string :=
  str_filter (fun c => negb (Ascii.eqb c LF)) s.

Definition ghGetFile (cfg : config) (path : string) : M get_result :=
  let encPath := encodeGitHubPath path in
  let url := contents_url cfg path +:+ "?ref=" +:+ encodeURIComponent (branch cfg) in
  let* r := fetch {| rq_method := GET; rq_url := url;
                     rq_headers := ghHeaders (token cfg); rq_body := None |} in
  if status r =? 404 then ret (GetMissing url)
  else if negb (ok r) then ret (GetError (error_of "github_get" url r))
  else
    let* data := lift (JSON_parse_or_throw (raw r)) in
    let* content := lift (get_prop data "content") in
    let* text := lift (js_String (or_else content (VStr ""))) in
    let contentB64 := remove_newlines text in
    let* sha := lift (get_prop data "sha") in
    ret (GetFound sha contentB64 url).

(** The object sent as body: a property whose value is [undefined] is not
    written. *)
Definition optional_field (k : string) (o : option value) : list (string * value) :=
  match o with
  | Some v => [(k, v)]
  | None => []
  end.

Definition ghPutFile (cfg : config) (path message contentStr : string) (sha : option value)
  : M put_result :=
  let url := contents_url cfg path in
  let body :=
    VObj ([("message", VStr message); ("content", VStr (toBase64 contentStr));
           ("branch", VStr (branch cfg))]
          ++ (if truthy_opt sha then optional_field "sha" sha else [])) in
  let* r := fetch {| rq_method := PUT; rq_url := url;
                     rq_headers := json_headers (token cfg); rq_body := Some body |} in
  if negb (ok r) then ret (PutError (error_of "github_put" url r))
  else
    let* data := lift (JSON_parse_or_throw (raw r)) in
    let* content := lift (get_prop data "content") in
    let* commit := lift (get_prop data "commit") in
    ret (PutOk (or_else (get_prop_opt content "sha") VNull)
               (or_else (get_prop_opt commit "html_url") VNull) url).

Definition ghDeleteFile (cfg : config) (path : string) (sha : option value) : M delete_result :=
  let url := contents_url cfg path in
  let* stamp := Date_toISOString in
  let body :=
    VObj ([("message", VStr ("Delete " +:+ path +:+ " (" +:+ stamp +:+ ")"))]
          ++ optional_field "sha" sha ++ [("branch", VStr (branch cfg))]) in
  let* r := fetch {| rq_method := DELETE; rq_url := url;
                     rq_headers := json_headers (token cfg); rq_body := Some body |} in
  if negb (ok r) then ret (DeleteError (error_of "github_delete" url r))
  else
    let data :=
      match JSON_parse (if String.eqb (raw r) "" then "{}" else raw r) with
      | Some d => d
      | None => VObj []
      end in
    let* commit := lift (get_prop data "commit") in
    ret (DeleteOk (or_else (get_prop_opt commit "html_url") VNull) url).

(** A value of the query string: a string, or an array of strings when the
    parameter is repeated. *)
Inductive qparam : Type :=
| QStr (s : string)
| QArr (l : list string).

Definition qparam_truthy (q : option qparam) : bool :=
  match q with
  | Some (QStr s) => negb (String.eqb s "")
  | Some (QArr _) => true
  | None => false
  end.

(** [String(id || '')]. *)
Definition qparam_string (q : option qparam) : string :=
  match q with
  | Some (QStr s) => s
  | Some (QArr l) => join "," l
  | None => EmptyString
  end.

(** The character class of the id pattern: letters, digits, [_] and [-]. *)
Definition id_char (c : ascii) : bool :=
  is_lower c || is_upper c || is_digit c || Ascii.eqb c "_" || Ascii.eqb c "-".

(** The test of the id pattern: from 3 to 80 characters of the class, and
    nothing else. *)
Definition id_pattern (s : string) : bool :=
  str_forallb id_char s && (3 <=? String.length s)%nat && (String.length s <=? 80)%nat.

Definition safeDashId (id : option qparam) : option string :=
  let s := trim (qparam_string id) in
  if String.eqb s "" then None
  else if negb (id_pattern s) then None
  else Some s.

Inductive manifest_result : Type :=
| ManifestError (error : gh_error)
| Manifest (exists_ : bool) (sha : option value) (list : list value).

Definition loadManifest (cfg : config) : M manifest_result :=
  let* file := ghGetFile cfg MANIFEST_PATH in
  match file with
  | GetError e => ret (ManifestError e)
  | GetMissing _ => ret (Manifest false (Some VNull) [])
  | GetFound sha contentB64 _ =>
      let txt := fromBase64 contentB64 in
      match JSON_parse txt with
      | Some (VArr list) => ret (Manifest true sha list)
      | Some _ => ret (Manifest true sha [])
      | None => ret (Manifest true sha [])
      end
  end.

Definition saveManifest (cfg : config) (manifestSha : option value) (list : list value)
  : M put_result :=
  let contentStr := JSON_stringify (VArr list) 2 in
  let* stamp := Date_toISOString in
  ghPutFile cfg MANIFEST_PATH ("Update manifest (" +:+ stamp +:+ ")") contentStr manifestSha.

(** [process.env]: a variable is a string, or not set. *)
Record environment : Type := {
  GITHUB_TOKEN : option string;
  GITHUB_OWNER : option string;
  GITHUB_REPO : option string;
  GITHUB_BRANCH : option string
}.

Definition env_string (o : option string) : string :=
  match o with
  | Some s => s
  | None => EmptyString
  end.

(** [req]: the method, the two query parameters and the body. *)
Record http_request : Type := {
  method : string;
  query_dash : option qparam;
  query_list : option qparam;
  body : option value
}.

(** [res]: the status, the headers and the JSON body ([None] after
    [end()]). *)
Record http_response : Type := {
  status_code : Z;
  headers : list (string * string);
  payload : option value
}.

Definition setCors : list (string * string) :=
  [("Access-Control-Allow-Origin", "*");
   ("Access-Control-Allow-Headers", "Content-Type, Authorization");
   ("Access-Control-Allow-Methods", "GET, POST, DELETE, OPTIONS")].

(** [res.status(code).json(body)]. *)
Definition json (c : Z) (b : list (string * value)) : http_response :=
  {| status_code := c; headers := setCors; payload := Some (VObj b) |}.

Definition failed (what : string) (e : gh_error) : http_response :=
  json 502 [("error", VStr what); ("details", error_json e)].

Definition invalid_id : http_response :=
  json 400 [("error", VStr "Missing/invalid dash id")].

Definition dashboard_path (id : string) : string := DASH_DIR +:+ "/" +:+ id +:+ ".json".

(** [req.body] when it is an object already, else what parsing it gives,
    and [{}] when that fails. *)
Definition request_payload (b : option value) : value :=
  match b with
  | Some (VObj props) => VObj props
  | Some (VArr l) => VArr l
  | _ =>
      let text :=
        match b with
        | Some v =>
            if truthy v then
              match js_String v with Ret s => s | Throw _ => "{}" end
            else "{}"
        | None => "{}"
        end in
      match JSON_parse text with
      | Some p => p
      | None => VObj []
      end
  end.

(** [Object.prototype.hasOwnProperty.call(payload, 'state') ? payload.state : null]. *)
Definition payload_state (p : value) : outcome value :=
  match p with
  | VNull => Throw (TypeError "Cannot convert undefined or null to object")
  | VObj props =>
      match obj_lookup props "state" with
      | Some v => Ret v
      | None => Ret VNull
      end
  | _ => Ret VNull
  end.

(** [existing.exists ? existing.sha : null]. *)
Definition known_sha (f : get_result) : option value :=
  match f with
  | GetFound sha _ _ => sha
  | _ => Some VNull
  end.

(** [man.exists ? man.sha : null]. *)
Definition manifest_sha (exists_ : bool) (sha : option value) : option value :=
  if exists_ then sha else Some VNull.

(** [state && state.__meta && state.__meta.name ? String(state.__meta.name) : null]. *)
Definition display_name (state : value) : outcome value :=
  if truthy state then
    obind (get_prop state "__meta") (fun meta =>
      if truthy_opt meta then
        let name := get_prop_opt meta "name" in
        if truthy_opt name then
          match name with
          | Some n => obind (js_String n) (fun s => Ret (VStr s))
          | None => Ret VNull
          end
        else Ret VNull
      else Ret VNull)
  else Ret VNull.

(** [x && x.id === id]. *)
Definition has_id (id : string) (x : value) : bool :=
  truthy x && strict_eq_string (get_prop_opt (Some x) "id") id.

(** [list.findIndex(p)], [None] for [-1]. *)
Fixpoint findIndex (p : value -> bool) (l : list value) : option nat :=
  match l with
  | [] => None
  | x :: r => if p x then Some O else option_map S (findIndex p r)
  end.

(** The entry of [id] replaced where it is, or pushed at the end. *)
Definition upsert (l : list value) (id : string) (entry : list (string * value)) : list value :=
  match findIndex (has_id id) l with
  | Some idx =>
      match l !! idx with
      | Some old => <[idx := Object_assign old entry]> l
      | None => l
      end
  | None => l ++ [VObj entry]
  end.

(** [list.filter(x => x && x.id !== id)]. *)
Definition without_id (l : list value) (id : string) : list value :=
  List.filter (fun x => truthy x && negb (strict_eq_string (get_prop_opt (Some x) "id") id)) l.

Definition handle_list (cfg : config) : M http_response :=
  let* man := loadManifest cfg in
  match man with
  | ManifestError e => ret (failed "Manifest GET failed" e)
  | Manifest _ _ list => ret (json 200 [("dashboards", VArr list)])
  end.

Definition handle_get (cfg : config) (dash : option qparam) : M http_response :=
  match safeDashId dash with
  | None => ret invalid_id
  | Some id =>
      let path := dashboard_path id in
      let* file := ghGetFile cfg path in
      match file with
      | GetError e => ret (failed "GitHub GET failed" e)
      | GetMissing _ => ret (json 200 [("state", VNull); ("exists", VBool false)])
      | GetFound _ contentB64 _ =>
          let* state := lift (JSON_parse_or_throw (fromBase64 contentB64)) in
          ret (json 200 [("state", state); ("exists", VBool true)])
      end
  end.

Definition handle_post (cfg : config) (dash : option qparam) (b : option value)
  : M http_response :=
  match safeDashId dash with
  | None => ret invalid_id
  | Some id =>
      let path := dashboard_path id in
      let payload := request_payload b in
      let* state := lift (payload_state payload) in
      let* existing := ghGetFile cfg path in
      match existing with
      | GetError e => ret (failed "GitHub GET pre-update failed" e)
      | _ =>
          let contentStr := JSON_stringify state 2 in
          let* stamp := Date_toISOString in
          let* saved :=
            ghPutFile cfg path ("Update dashboard " +:+ id +:+ " (" +:+ stamp +:+ ")")
              contentStr (known_sha existing) in
          match saved with
          | PutError e => ret (failed "GitHub PUT failed" e)
          | PutOk _ commitUrl _ =>
              let* man := loadManifest cfg in
              match man with
              | ManifestError e => ret (failed "Manifest GET failed" e)
              | Manifest exists_ sha list =>
                  let* now := Date_toISOString in
                  let* name := lift (display_name state) in
                  let entry := [("id", VStr id); ("name", name); ("updatedAt", VStr now)] in
                  let list' := upsert list id entry in
                  let* manSaved := saveManifest cfg (manifest_sha exists_ sha) list' in
                  match manSaved with
                  | PutError e => ret (failed "Manifest PUT failed" e)
                  | PutOk _ _ _ => ret (json 200 [("ok", VBool true); ("commitUrl", commitUrl)])
                  end
              end
          end
      end
  end.

Definition handle_delete (cfg : config) (dash : option qparam) : M http_response :=
  match safeDashId dash with
  | None => ret invalid_id
  | Some id =>
      let path := dashboard_path id in
      let* file := ghGetFile cfg path in
      match file with
      | GetError e => ret (failed "GitHub GET pre-delete failed" e)
      | GetMissing _ => ret (json 200 [("ok", VBool true); ("deleted", VBool false)])
      | GetFound sha _ _ =>
          let* del := ghDeleteFile cfg path sha in
          match del with
          | DeleteError e => ret (failed "GitHub DELETE failed" e)
          | DeleteOk commitUrl _ =>
              let* man := loadManifest cfg in
              let* _ :=
                match man with
                | ManifestError _ => ret tt
                | Manifest exists_ sha' list =>
                    let newList := without_id list id in
                    let* _ := saveManifest cfg (manifest_sha exists_ sha') newList in
                    ret tt
                end in
              ret (json 200 [("ok", VBool true); ("commitUrl", commitUrl)])
          end
      end
  end.

(** The [catch] of the handler. *)
Definition unhandled (e : exn) : http_response :=
  json 500 [("error", VStr "Unhandled");
            ("details", VStr (if String.eqb (exn_message e) ""
                              then exn_name e else exn_message e));
            ("stack", VStr (exn_name e +:+ ": " +:+ exn_message e))].

Definition dispatch (cfg : config) (req : http_request) : M http_response :=
  if String.eqb (method req) "GET" && qparam_truthy (query_list req) then handle_list cfg
  else if String.eqb (method req) "GET" then handle_get cfg (query_dash req)
  else if String.eqb (method req) "POST" then handle_post cfg (query_dash req) (body req)
  else if String.eqb (method req) "DELETE" then handle_delete cfg (query_dash req)
  else ret (json 405 [("error", VStr "Method not allowed")]).

Definition missing_vars (env : environment) : list value :=
  (if String.eqb (env_string (GITHUB_TOKEN env)) "" then [VStr "GITHUB_TOKEN"] else [])
  ++ (if String.eqb (env_string (GITHUB_OWNER env)) "" then [VStr "GITHUB_OWNER"] else [])
  ++ (if String.eqb (env_string (GITHUB_REPO env)) "" then [VStr "GITHUB_REPO"] else []).

Definition config_of (env : environment) : config :=
  {| token := env_string (GITHUB_TOKEN env);
     owner := env_string (GITHUB_OWNER env);
     repo := env_string (GITHUB_REPO env);
     branch := if String.eqb (env_string (GITHUB_BRANCH env)) "" then "main"
               else env_string (GITHUB_BRANCH env) |}.

Definition includes (c : ascii) (s : string) : bool :=
  negb (str_forallb (fun d => negb (Ascii.eqb d c)) s).

(** [module.exports]: the handler of [/api/state]. *)
Definition handler (env : environment) (req : http_request) (w : world)
  : http_response * world :=
  if String.eqb (method req) "OPTIONS"
  then ({| status_code := 204; headers := setCors; payload := None |}, w)
  else
    match missing_vars env with
    | (_ :: _) as missing =>
        (json 500 [("error", VStr "Missing env vars"); ("missing", VArr missing)], w)
    | [] =>
        let cfg := config_of env in
        if includes "/" (repo cfg) then
          (json 400 [("error", VStr "GITHUB_REPO must be repo name only");
                     ("got", VStr (repo cfg))], w)
        else
          match dispatch cfg req w with
          | (Ret res, w') => (res, w')
          | (Throw e, w') => (unhandled e, w')
          end
    end.

(** * The Azure DevOps proxy ([/api/ado])

    The second function of the project: it runs a saved query and fetches
    the work items that the query lists. The service it calls is outside
    the model: [upstream] gives its answer to each request, and [fetch]
    always resolves. Strings are, as above, the bytes of a UTF-8 form: a
    string with a surrogate that stands alone, on which
    [encodeURIComponent] throws, has none. *)

Module Ado.

Definition API_VER : string := "6.0".

Definition setCors : list (string * string) :=
  [("Access-Control-Allow-Origin", "*");
   ("Access-Control-Allow-Headers", "Content-Type, Authorization");
   ("Access-Control-Allow-Methods", "POST, OPTIONS")].

(** [res.status(code).json(body)]. *)
Definition json (c : Z) (b : value) : http_response :=
  {| status_code := c; headers := setCors; payload := Some b |}.

(** [String(payload.k || dflt).trim()]. *)
Definition field (payload : value) (k dflt : string) : outcome string :=
  obind (get_prop payload k) (fun v =>
    obind (js_String (or_else v (VStr dflt))) (fun s => Ret (trim s))).

(** ['Basic ' + Buffer.from(':' + pat, 'utf8').toString('base64')]. *)
Definition authHeader (pat : string) : string :=
  "Basic " +:+ base64_encode (":" +:+ pat).

(** The [GET] that [fetch] sends to the service. *)
Definition upstream_request (url pat : string) : request :=
  {| rq_method := GET; rq_url := url;
     rq_headers := [("Authorization", authHeader pat);
                    ("Content-Type", "application/json")];
     rq_body := None |}.

Definition baseUrl (org project : string) : string :=
  "https://dev.azure.com/" +:+ encodeURIComponent org +:+ "/"
    +:+ encodeURIComponent project +:+ "/_apis".

Definition wiqlUrl (org project queryId : string) : string :=
  baseUrl org project +:+ "/wit/wiql/" +:+ encodeURIComponent queryId
    +:+ "?api-version=" +:+ API_VER.

Definition detailsUrl (org project ids : string) : string :=
  baseUrl org project +:+ "/wit/workitems?ids=" +:+ ids +:+ "&api-version=" +:+ API_VER.

(** [l.map(w => w.id)]. *)
Fixpoint map_id (l : list value) : outcome (list (option value)) :=
  match l with
  | [] => Ret []
  | w :: r =>
      obind (get_prop w "id") (fun i => obind (map_id r) (fun t => Ret (i :: t)))
  end.

(** [(qData.workItems || []).slice(0, 200).map(w => w.id)]: only an array
    has both [slice] and, on what [slice] returns, [map]. The message of
    the error is the engine's own. *)
Definition work_item_ids (qData : value) : outcome (list (option value)) :=
  obind (get_prop qData "workItems") (fun wi =>
    match or_else wi (VArr []) with
    | VArr l => map_id (take 200 l)
    | _ => Throw (TypeError "(intermediate value).slice(...).map is not a function")
    end).

(** [ids.join(',')]: an [undefined] element is left empty, as a [null]
    one is. *)
Definition join_ids (ids : list (option value)) : outcome string :=
  js_String (VArr (map (fun o => match o with Some v => v | None => VNull end) ids)).

(** The answer to a failure of the service. *)
Definition failure (what : string) (r : response) : http_response :=
  json 502 (VObj [("error", VStr what); ("status", VNum (number_of_Z (status r)));
                  ("details", VStr (raw r))]).

(** The [catch] of the handler. *)
Definition unhandled (e : exn) : http_response :=
  json 500 (VObj [("error", VStr "Unhandled");
                  ("details", VStr (if String.eqb (exn_message e) ""
                                    then exn_name e else exn_message e))]).

(** The body of the [try]: the answer, and the exchanges made, in the
    order in which they were made. *)
Definition query (org project queryId pat : string) (upstream : request -> response)
  : http_response * list (request * response) :=
  let rq1 := upstream_request (wiqlUrl org project queryId) pat in
  let q := upstream rq1 in
  if negb (ok q) then (failure "WIQL query failed" q, [(rq1, q)])
  else
    match obind (JSON_parse_or_throw (raw q)) work_item_ids with
    | Throw e => (unhandled e, [(rq1, q)])
    | Ret [] => (json 200 (VObj [("value", VArr [])]), [(rq1, q)])
    | Ret ids =>
        match join_ids ids with
        | Throw e => (unhandled e, [(rq1, q)])
        | Ret text =>
            let rq2 := upstream_request (detailsUrl org project text) pat in
            let d := upstream rq2 in
            if negb (ok d) then (failure "Work items fetch failed" d, [(rq1, q); (rq2, d)])
            else
              match JSON_parse_or_throw (raw d) with
              | Throw e => (unhandled e, [(rq1, q); (rq2, d)])
              | Ret details => (json 200 details, [(rq1, q); (rq2, d)])
              end
        end
    end.

(** [org], [project], [queryId] and [pat], read from the payload in that
    order. *)
Definition fields (ADO_PAT : option string) (payload : value)
  : outcome (string * string * string * string) :=
  obind (field payload "org" "") (fun org =>
  obind (field payload "project" "") (fun project =>
  obind (field payload "queryId" "") (fun queryId =>
  obind (field payload "pat" (env_string ADO_PAT)) (fun pat =>
    Ret (org, project, queryId, pat))))).

(** [module.exports]: the handler of [/api/ado]. What is thrown before the
    [try] is not caught: the outcome is then [Throw]. *)
Definition handler (ADO_PAT : option string) (req : http_request)
    (upstream : request -> response)
  : outcome http_response * list (request * response) :=
  if String.eqb (method req) "OPTIONS" then
    (Ret {| status_code := 204; headers := setCors; payload := None |}, [])
  else if negb (String.eqb (method req) "POST") then
    (Ret (json 405 (VObj [("error", VStr "Method not allowed")])), [])
  else
    match fields ADO_PAT (request_payload (body req)) with
    | Throw e => (Throw e, [])
    | Ret (org, project, queryId, pat) =>
        if String.eqb org "" || String.eqb project "" || String.eqb queryId "" then
          (Ret (json 400 (VObj [("error",
                                 VStr "Missing required fields: org, project, queryId")])),
           [])
        else if String.eqb pat "" then
          (Ret (json 400
                  (VObj [("error",
                          VStr "Missing PAT. Provide in request or set ADO_PAT env var in Vercel.")])),
           [])
        else
          let '(res, calls) := query org project queryId pat upstream in
          (Ret res, calls)
    end.

End Ado.

(** * Definitions for the proofs *)

(** The first character of a string satisfies [p]. *)
Definition head_is (p : ascii -> bool) (s : string) : bool :=
  match s with
  | String c _ => p c
  | EmptyString => false
  end.

(** What may follow a number literal for the reading of it to stop there. *)
Definition num_follow (rest : string) : bool :=
  negb (head_is is_digit rest) && negb (head_is (fun c => Ascii.eqb c ".") rest)
  && negb (head_is (fun c => Ascii.eqb c "e") rest)
  && negb (head_is (fun c => Ascii.eqb c "E") rest).

Definition int_part_ok (i : string) : bool :=
  match i with
  | EmptyString => false
  | String c r => negb (Ascii.eqb c "0" && negb (String.eqb r ""))
  end.

Section value_induction.
Variable P : value -> Prop.
Hypothesis Hnull : P VNull.
Hypothesis Hbool : forall b, P (VBool b).
Hypothesis Hnum : forall x, P (VNum x).
Hypothesis Hstr : forall s, P (VStr s).
Hypothesis Harr : forall l, Forall P l -> P (VArr l).
Hypothesis Hobj : forall props, Forall (fun kv => P (snd kv)) props -> P (VObj props).

Fixpoint value_nested_ind (v : value) : P v :=
  match v with
  | VNull => Hnull
  | VBool b => Hbool b
  | VNum x => Hnum x
  | VStr s => Hstr s
  | VArr l =>
      Harr l ((fix go (l : list value) : Forall P l :=
                 match l with
                 | [] => List.Forall_nil _
                 | x :: r => List.Forall_cons _ _ _ (value_nested_ind x) (go r)
                 end) l)
  | VObj props =>
      Hobj props
        ((fix go (l : list (string * value)) : Forall (fun kv => P (snd kv)) l :=
            match l with
            | [] => List.Forall_nil _
            | kv :: r => List.Forall_cons _ _ _ (value_nested_ind (snd kv)) (go r)
            end) props)
  end.
End value_induction.

(** The fuel that reading a value back takes. *)
Fixpoint vsize (v : value) : nat :=
  match v with
  | VArr l => S (list_sum (map (fun x => S (vsize x)) l))
  | VObj props => S (list_sum (map (fun kv => S (vsize (snd kv))) props))
  | _ => 1
  end.

(** The first character of a serialized value opens a value. *)
Definition opens_value (c : ascii) : bool :=
  negb (is_ws c) && negb (Ascii.eqb c "]") && negb (Ascii.eqb c "}")
  && negb (Ascii.eqb c ",") && negb (Ascii.eqb c ":").

Definition esize (l : list value) : nat := list_sum (map (fun x => S (vsize x)) l).
Definition msize (l : list (string * value)) : nat :=
  list_sum (map (fun kv => S (vsize (snd kv))) l).

(** Reading back what [serialize] wrote, whatever follows. *)
Definition reads_back (gap : nat) (v : value) : Prop :=
  forall indent fuel rest,
    (vsize v <= fuel)%nat -> num_follow rest = true ->
    parse_value fuel (serialize gap indent v +:+ rest) = Some (v, rest).

Definition member_text (gap inner : nat) (kv : string * value) : string :=
  QuoteJSONString (fst kv) +:+ colon gap +:+ serialize gap inner (snd kv).

Ltac div_lia := zify; Z.to_euclidean_division_equations; lia.

Definition b64_char_ok (n : N) : bool :=
  match unbase64 (b64_char n) with
  | Some m => (m =? n)%N
  | None => false
  end
  && negb (Ascii.eqb (b64_char n) "=") && negb (Ascii.eqb (b64_char n) LF).

Section string_triples.
Variable P : string -> Prop.
Hypothesis H0 : P "".
Hypothesis H1 : forall a, P (String a "").
Hypothesis H2 : forall a b, P (String a (String b "")).
Hypothesis H3 : forall a b c r, P r -> P (String a (String b (String c r))).

Fixpoint string_ind3 (s : string) : P s :=
  match s with
  | EmptyString => H0
  | String a EmptyString => H1 a
  | String a (String b EmptyString) => H2 a b
  | String a (String b (String c r)) => H3 a b c r (string_ind3 r)
  end.
End string_triples.

(** One step of [parse_value], of [parse_elements] and of [parse_members],
    over the readers of the parts. *)
Definition value_body (pe : string -> option (list value * string))
    (pm : string -> option (list (string * value) * string)) (s : string)
  : option (value * string) :=
  match skip_ws s with
  | EmptyString => None
  | String c r =>
      if Ascii.eqb c "n" then
        match strip_prefix "ull" r with Some t => Some (VNull, t) | None => None end
      else if Ascii.eqb c "t" then
        match strip_prefix "rue" r with Some t => Some (VBool true, t) | None => None end
      else if Ascii.eqb c "f" then
        match strip_prefix "alse" r with Some t => Some (VBool false, t) | None => None end
      else if Ascii.eqb c QUOTE then
        match parse_string r with Some (x, t) => Some (VStr x, t) | None => None end
      else if Ascii.eqb c "[" then
        match peek "]" (skip_ws r) with
        | Some t => Some (VArr [], t)
        | None =>
            match pe r with
            | Some (l, t) => Some (VArr l, t)
            | None => None
            end
        end
      else if Ascii.eqb c "{" then
        match peek "}" (skip_ws r) with
        | Some t => Some (VObj [], t)
        | None =>
            match pm r with
            | Some (ms, t) => Some (VObj (obj_of_members ms), t)
            | None => None
            end
        end
      else
        match parse_number (String c r) with
        | Some (x, t) => Some (VNum x, t)
        | None => None
        end
  end.

Definition elements_body (pv : string -> option (value * string))
    (pe : string -> option (list value * string)) (s : string)
  : option (list value * string) :=
  match pv s with
  | None => None
  | Some (v, r) =>
      match peek "]" (skip_ws r) with
      | Some t => Some ([v], t)
      | None =>
          match peek "," (skip_ws r) with
          | Some t =>
              match pe t with
              | Some (l, u) => Some (v :: l, u)
              | None => None
              end
          | None => None
          end
      end
  end.

Definition members_body (pv : string -> option (value * string))
    (pm : string -> option (list (string * value) * string)) (s : string)
  : option (list (string * value) * string) :=
  match peek QUOTE (skip_ws s) with
  | None => None
  | Some r =>
      match parse_string r with
      | None => None
      | Some (k, r1) =>
          match peek ":" (skip_ws r1) with
          | None => None
          | Some r2 =>
              match pv r2 with
              | None => None
              | Some (v, r3) =>
                  match peek "}" (skip_ws r3) with
                  | Some t => Some ([(k, v)], t)
                  | None =>
                      match peek "," (skip_ws r3) with
                      | Some t =>
                          match pm t with
                          | Some (l, u) => Some ((k, v) :: l, u)
                          | None => None
                          end
                      | None => None
                      end
                  end
              end
          end
      end
  end.

(** A reader [p'] does at least what [p] does on the strings shorter than
    [n]. *)
Definition extends {A : Type} (n : nat) (p p' : string -> option A) : Prop :=
  forall t x, (String.length t < n)%nat -> p t = Some x -> p' t = Some x.

Definition consumes {A : Type} (p : string -> option (A * string)) : Prop :=
  forall s a r, p s = Some (a, r) -> (String.length r < String.length s)%nat.

Definition not_query (c : ascii) : bool := negb (Ascii.eqb c "?").

(** The URL that [ghGetFile] asks for. *)
Definition get_url (cfg : config) (path : string) : string :=
  contents_url cfg path +:+ "?ref=" +:+ encodeURIComponent (branch cfg).

Definition path_char (c : ascii) : bool := uri_unreserved c || Ascii.eqb c "/".

(** The scripted failure of the [n]-th call to come. *)
Definition fault_at (n : nat) (w : world) : option response := nth n (faults w) None.

(** The world after the exchange of [rq] and [rs] that left the files [fs]
    and the commit count [n]. *)
Definition exchanged (w : world) (rq : request) (rs : response)
    (fs : gmap string file) (n : nat) : world :=
  {| files := fs; faults := tl (faults w); log := (rq, rs) :: log w;
     serial := n; now := now w |}.

Definition get_request (cfg : config) (path : string) : request :=
  {| rq_method := GET; rq_url := get_url cfg path;
     rq_headers := ghHeaders (token cfg); rq_body := None |}.

Definition put_body (cfg : config) (message contentStr : string) (sha : option value) : value :=
  VObj ([("message", VStr message); ("content", VStr (toBase64 contentStr));
         ("branch", VStr (branch cfg))]
        ++ (if truthy_opt sha then optional_field "sha" sha else [])).

Definition put_request (cfg : config) (path message contentStr : string) (sha : option value)
  : request :=
  {| rq_method := PUT; rq_url := contents_url cfg path;
     rq_headers := json_headers (token cfg);
     rq_body := Some (put_body cfg message contentStr sha) |}.

(** The file that a write leaves. *)
Definition written (w : world) (contentStr : string) : file :=
  {| f_sha := blob_sha (serial w); f_content := contentStr |}.

(** What [ghPutFile] makes of the answer [r]. *)
Definition put_outcome (url : string) (r : response) : M put_result :=
  if negb (ok r) then ret (PutError (error_of "github_put" url r))
  else
    let* data := lift (JSON_parse_or_throw (raw r)) in
    let* content := lift (get_prop data "content") in
    let* commit := lift (get_prop data "commit") in
    ret (PutOk (or_else (get_prop_opt content "sha") VNull)
               (or_else (get_prop_opt commit "html_url") VNull) url).

Definition delete_request (cfg : config) (path stamp : string) (sha : option value) : request :=
  {| rq_method := DELETE; rq_url := contents_url cfg path;
     rq_headers := json_headers (token cfg);
     rq_body :=
       Some (VObj ([("message", VStr ("Delete " +:+ path +:+ " (" +:+ stamp +:+ ")"))]
                   ++ optional_field "sha" sha ++ [("branch", VStr (branch cfg))])) |}.

(** The entries that [loadManifest] reads from the bytes of the file: the
    parsed array, and nothing for any other content. *)
Definition manifest_entries (content : string) : list value :=
  match JSON_parse content with
  | Some (VArr l) => l
  | _ => []
  end.

(** The environment names a token, an owner and a repository, and the
    repository name has no slash. *)
Definition configured (env : environment) : Prop :=
  missing_vars env = [] /\ includes "/" (repo (config_of env)) = false.

Definition finish (r : outcome http_response * world) : http_response * world :=
  match r with
  | (Ret res, w') => (res, w')
  | (Throw e, w') => (unhandled e, w')
  end.

Definition document_url (env : environment) (id : string) : string :=
  contents_url (config_of env) (dashboard_path id).

Definition manifest_url (env : environment) : string :=
  contents_url (config_of env) MANIFEST_PATH.

Definition id_alphabet : string :=
  "abcdefghijklmnopqrstuvwxyzABCDEFGHIJKLMNOPQRSTUVWXYZ0123456789-_".

(** From 3 to 80 characters, each a letter, a digit, a hyphen or an
    underscore. *)
Definition well_formed_id (s : string) : Prop :=
  (3 <= String.length s <= 80)%nat
  /\ forall c, In c (list_ascii_of_string s) -> In c (list_ascii_of_string id_alphabet).

(** [x.id] of an entry. *)
Definition entry_id (x : value) : option value := get_prop_opt (Some x) "id".

(** The ids of the entries that have one, in the order of the list. *)
Fixpoint ids (l : list value) : list value :=
  match l with
  | [] => []
  | x :: r =>
      match entry_id x with
      | Some v => v :: ids r
      | None => ids r
      end
  end.

(** At most one entry per id. *)
Definition unique_by_id (l : list value) : Prop := NoDup (ids l).

(** The manifest steps of a write: what follows the write of the
    document. *)
Definition post_manifest (cfg : config) (id : string) (state commitUrl : value)
  : M http_response :=
  let* man := loadManifest cfg in
  match man with
  | ManifestError e => ret (failed "Manifest GET failed" e)
  | Manifest exists_ sha list =>
      let* now := Date_toISOString in
      let* name := lift (display_name state) in
      let entry := [("id", VStr id); ("name", name); ("updatedAt", VStr now)] in
      let list' := upsert list id entry in
      let* manSaved := saveManifest cfg (manifest_sha exists_ sha) list' in
      match manSaved with
      | PutError e => ret (failed "Manifest PUT failed" e)
      | PutOk _ _ _ => ret (json 200 [("ok", VBool true); ("commitUrl", commitUrl)])
      end
  end.

(** The write of the document and what follows it. *)
Definition post_write (cfg : config) (id : string) (state : value) (existing : get_result)
  : M http_response :=
  let contentStr := JSON_stringify state 2 in
  let* stamp := Date_toISOString in
  let* saved :=
    ghPutFile cfg (dashboard_path id)
      ("Update dashboard " +:+ id +:+ " (" +:+ stamp +:+ ")")
      contentStr (known_sha existing) in
  match saved with
  | PutError e => ret (failed "GitHub PUT failed" e)
  | PutOk _ commitUrl _ => post_manifest cfg id state commitUrl
  end.

(** How the manifest steps of a write end, from a world [w2]: the load of
    the manifest fails (502); or the display name cannot be derived (500);
    or the save of the manifest fails (502); or all goes well (200). In
    every case the files other than the manifest are as they were. *)
Inductive manifest_steps (env : environment) (state commitUrl : value) (w2 : world)
  : http_response -> world -> Prop :=
| load_failed res w' mg r3 :
    rq_method mg = GET -> resource (rq_url mg) = manifest_url env ->
    ok r3 = false -> status r3 <> 404 ->
    log w' = (mg, r3) :: log w2 -> files w' = files w2 ->
    status_code res = 502 ->
    manifest_steps env state commitUrl w2 res w'
| name_failed res w' mg r3 e :
    rq_method mg = GET -> resource (rq_url mg) = manifest_url env ->
    ok r3 = true \/ status r3 = 404 ->
    log w' = (mg, r3) :: log w2 -> files w' = files w2 ->
    display_name state = Throw e -> status_code res = 500 ->
    manifest_steps env state commitUrl w2 res w'
| save_failed res w' mg r3 mp r4 name :
    rq_method mg = GET -> resource (rq_url mg) = manifest_url env ->
    ok r3 = true \/ status r3 = 404 ->
    display_name state = Ret name ->
    rq_method mp = PUT -> rq_url mp = manifest_url env -> ok r4 = false ->
    log w' = (mp, r4) :: (mg, r3) :: log w2 -> files w' = files w2 ->
    status_code res = 502 ->
    manifest_steps env state commitUrl w2 res w'
| saved res w' mg r3 mp r4 f name :
    rq_method mg = GET -> resource (rq_url mg) = manifest_url env ->
    ok r3 = true \/ status r3 = 404 ->
    display_name state = Ret name ->
    rq_method mp = PUT -> rq_url mp = manifest_url env -> ok r4 = true ->
    log w' = (mp, r4) :: (mg, r3) :: log w2 ->
    files w' = <[manifest_url env := f]> (files w2) ->
    res = json 200 [("ok", VBool true); ("commitUrl", commitUrl)] ->
    manifest_steps env state commitUrl w2 res w'.

(** How a write ends: the read of the document fails (502); or the write of
    the document is refused (502); or the document is written, the world is
    then [w2], and the manifest steps follow. *)
Inductive post_run (env : environment) (id : string) (state : value) (w : world)
  : http_response -> world -> Prop :=
| read_failed res w' g r1 :
    rq_method g = GET -> resource (rq_url g) = document_url env id ->
    ok r1 = false -> status r1 <> 404 ->
    log w' = (g, r1) :: log w -> files w' = files w ->
    status_code res = 502 ->
    post_run env id state w res w'
| write_failed res w' g r1 p r2 :
    rq_method g = GET -> resource (rq_url g) = document_url env id ->
    rq_method p = PUT -> rq_url p = document_url env id -> ok r2 = false ->
    log w' = (p, r2) :: (g, r1) :: log w -> files w' = files w ->
    status_code res = 502 ->
    post_run env id state w res w'
| document_written res w' g r1 p r2 w2 sha commitUrl :
    rq_method g = GET -> resource (rq_url g) = document_url env id ->
    rq_method p = PUT -> rq_url p = document_url env id -> ok r2 = true ->
    log w2 = (p, r2) :: (g, r1) :: log w ->
    files w2 = <[document_url env id :=
                   {| f_sha := sha; f_content := JSON_stringify state 2 |}]> (files w) ->
    manifest_steps env state commitUrl w2 res w' ->
    post_run env id state w res w'.





Definition example_env : environment :=
  {| GITHUB_TOKEN := Some "secret"; GITHUB_OWNER := Some "acme";
     GITHUB_REPO := Some "boards"; GITHUB_BRANCH := None |}.

Definition example_state : value :=
  VObj [("__meta", VObj [("name", VStr "Sprint 12")]);
        ("widgets", VArr [VNum (Finite false "15" 1); VBool true; VNull]);
        ("zoom", VNum (Finite true "25" 0))].

Definition post_of (id : string) (state : value) : http_request :=
  {| method := "POST"; query_dash := Some (QStr id); query_list := None;
     body := Some (VObj [("state", state)]) |}.

Definition get_of (id : string) : http_request :=
  {| method := "GET"; query_dash := Some (QStr id); query_list := None; body := None |}.

Definition delete_of (id : string) : http_request :=
  {| method := "DELETE"; query_dash := Some (QStr id); query_list := None; body := None |}.

Definition list_all : http_request :=
  {| method := "GET"; query_dash := None; query_list := Some (QStr "1"); body := None |}.

(** A repository with no file, and a host that answers. *)
Definition empty_world : world :=
  {| files := ∅; faults := []; log := []; serial := 0; now := "2024-05-01T10:00:00.000Z" |}.

Definition outage : response :=
  {| status := 503; statusText := "Service Unavailable"; raw := "upstream timed out" |}.


Definition example_document : file :=
  {| f_sha := "blob7"; f_content := JSON_stringify example_state 2 |}.


(** A repository that holds the document of [abc], and a host that
    answers. *)
Definition quiet_world : world :=
  {| files := <[document_url example_env "abc" := example_document]> ∅;
     faults := []; log := []; serial := 8; now := "2024-05-01T10:00:00.000Z" |}.



Definition corrupt_file : file := {| f_sha := "blob3"; f_content := "{ not json" |}.

(** A repository whose manifest, and whose document of [abc], are not
    JSON. *)
Definition corrupt_world : world :=
  {| files := <[manifest_url example_env := corrupt_file]>
                (<[document_url example_env "abc" := corrupt_file]> ∅);
     faults := []; log := []; serial := 4; now := "2024-05-01T10:00:00.000Z" |}.

Definition example_manifest : list value :=
  [VObj [("id", VStr "abc"); ("name", VNull); ("updatedAt", VStr "2024-04-30T09:00:00.000Z")];
   VObj [("id", VStr "xyz"); ("name", VStr "Ops"); ("updatedAt", VStr "2024-04-30T09:30:00.000Z")]].

Definition other_than (c : ascii) (d : ascii) : bool := negb (Ascii.eqb d c).

(** A byte between [lo] and [hi]. *)
Definition in_range (lo hi : N) (c : ascii) : bool :=
  ((lo <=? code c) && (code c <=? hi))%N.

(** The second byte of a sequence of three, and of four, after the lead
    byte [a]: the ranges that leave out the forms that are too long, the
    surrogates and the code points past U+10FFFF. *)
Definition second_of_three (a b : ascii) : bool :=
  if (code a =? 224)%N then in_range 160 191 b
  else if (code a =? 237)%N then in_range 128 159 b
  else in_range 128 191 b.

Definition second_of_four (a b : ascii) : bool :=
  if (code a =? 240)%N then in_range 144 191 b
  else if (code a =? 244)%N then in_range 128 143 b
  else in_range 128 191 b.

(** The strings that [Buffer.from(str, 'utf8')] and [buf.toString('utf8')]
    hand on as they are: the well-formed UTF-8 sequences (Unicode, table
    3-7). A surrogate that stands alone, which the model writes in three
    bytes from [ED A0 80] to [ED BF BF], is not one of them: [Buffer] puts
    U+FFFD in its place. *)
Fixpoint well_formed_utf8 (s : string) : bool :=
  match s with
  | EmptyString => true
  | String a r =>
      if (code a <? 128)%N then well_formed_utf8 r
      else
        match r with
        | EmptyString => false
        | String b r2 =>
            if in_range 194 223 a then in_range 128 191 b && well_formed_utf8 r2
            else
              match r2 with
              | EmptyString => false
              | String c r3 =>
                  if in_range 224 239 a then
                    second_of_three a b && in_range 128 191 c && well_formed_utf8 r3
                  else
                    match r3 with
                    | EmptyString => false
                    | String d r4 =>
                        in_range 240 244 a && second_of_four a b && in_range 128 191 c
                        && in_range 128 191 d && well_formed_utf8 r4
                    end
              end
        end
  end.

(** The requests that the client makes about the file at [path]. *)
Inductive issued (cfg : config) (path : string) : request -> Prop :=
| issued_get : issued cfg path (get_request cfg path)
| issued_put message contentStr sha :
    issued cfg path (put_request cfg path message contentStr sha)
| issued_delete stamp sha : issued cfg path (delete_request cfg path stamp sha).

(** A run of the client from the world [w]: the exchanges made, latest
    first, and the world they lead to. Each exchange is about a file that
    [P] allows; it changes no other file, and none when it is a read. *)
Inductive trace (cfg : config) (P : string -> Prop) (w : world)
  : list (request * response) -> world -> Prop :=
| trace_nil : trace cfg P w [] w
| trace_step new w1 path rq rs fs n :
    trace cfg P w new w1 -> P path -> issued cfg path rq ->
    (rq_method rq = GET -> fs = files w1) ->
    (forall u, u <> contents_url cfg path -> fs !! u = files w1 !! u) ->
    trace cfg P w ((rq, rs) :: new) (exchanged w1 rq rs fs n).

(** The step that a call about [path] adds to a run. *)
Definition extends_trace (cfg : config) (path : string) (rq : request) (rs : response)
    (w w1 : world) : Prop :=
  forall P w0 new, trace cfg P w0 new w -> P path -> trace cfg P w0 ((rq, rs) :: new) w1.

(** What [ghGetFile] makes of the answer [rs]. *)
Definition get_case (cfg : config) (path : string) (rs : response) (o : outcome get_result)
  : Prop :=
  match o with
  | Ret (GetMissing u) => status rs = 404 /\ u = get_url cfg path
  | Ret (GetError e) =>
      status rs <> 404 /\ ok rs = false /\ e = error_of "github_get" (get_url cfg path) rs
  | Ret (GetFound _ _ u) => ok rs = true /\ u = get_url cfg path
  | Throw _ => ok rs = true
  end.

(** What [ghPutFile] makes of the answer [rs]. *)
Definition put_case (url : string) (rs : response) (o : outcome put_result) : Prop :=
  match o with
  | Ret (PutError e) => ok rs = false /\ e = error_of "github_put" url rs
  | Ret (PutOk _ _ u) => ok rs = true /\ u = url
  | Throw _ => ok rs = true
  end.

(** What [ghDeleteFile] makes of the answer [rs]. *)
Definition delete_case (url : string) (rs : response) (o : outcome delete_result) : Prop :=
  match o with
  | Ret (DeleteError e) => ok rs = false /\ e = error_of "github_delete" url rs
  | Ret (DeleteOk c u) =>
      ok rs = true /\ u = url /\ (JSON_parse (raw rs) = None -> c = VNull)
  | Throw _ => ok rs = true /\ JSON_parse (raw rs) = Some VNull
  end.

(** What [loadManifest] makes of the answer [rs]. *)
Definition manifest_case (cfg : config) (rs : response) (o : outcome manifest_result) : Prop :=
  match o with
  | Ret (ManifestError e) =>
      status rs <> 404 /\ ok rs = false
      /\ e = error_of "github_get" (get_url cfg MANIFEST_PATH) rs
  | Ret (Manifest _ _ _) => ok rs = true \/ status rs = 404
  | Throw _ => ok rs = true
  end.

(** The files a request may touch: the manifest, and the document of the
    id that the request names when [safeDashId] accepts it. *)
Definition req_path (req : http_request) (path : string) : Prop :=
  path = MANIFEST_PATH
  \/ exists id, safeDashId (query_dash req) = Some id /\ path = dashboard_path id.

(** The [stage] that the client gives to the failure of a call. *)
Definition stage_of (m : verb) : string :=
  match m with
  | GET => "github_get"
  | PUT => "github_put"
  | DELETE => "github_delete"
  end.

(** The answer hands on the latest exchange, which failed. *)
Definition relays (new : list (request * response)) (res : http_response) : Prop :=
  exists rq rs rest what,
    new = (rq, rs) :: rest /\ ok rs = false
    /\ res = failed what (error_of (stage_of (rq_method rq)) (rq_url rq) rs).

Definition code_ok (new : list (request * response)) (res : http_response) : Prop :=
  match status_code res with
  | 200 | 500 => True
  | 400 | 405 => new = []
  | 502 => relays new res
  | _ => False
  end.

Definition answer_ok (new : list (request * response)) (res : http_response) : Prop :=
  headers res = setCors /\ (exists b, payload res = Some (VObj b)) /\ code_ok new res.

(** A run of at most [budget] calls, reads only unless [writes], that ends
    in an answer of the handler. *)
Definition outcome_ok (cfg : config) (req : http_request) (w : world) (budget : nat)
    (writes : bool) (r : outcome http_response * world) : Prop :=
  exists new,
    trace cfg (req_path req) w new (snd r)
    /\ (length new <= budget)%nat
    /\ (writes = false -> Forall (fun ex => rq_method (fst ex) = GET) new)
    /\ answer_ok new (fst (finish r)).

Ltac trace_done := first [eassumption | apply trace_nil].

Ltac answer_done :=
  cbn [fst snd finish ret];
  repeat split;
    first
      [ reflexivity
      | eexists; reflexivity
      | exact I
      | do 4 eexists; split; [reflexivity|]; split; [eassumption | reflexivity]
      | idtac ].

Ltac run_done :=
  eexists; split; [cbn [snd]; trace_done|];
  split; [simpl; lia|];
  split; [intros _; repeat constructor; try discriminate|];
  answer_done.

(** The calls that one request may make: one for a read, four for a write
    or a delete. *)
Definition budget (req : http_request) : nat :=
  if String.eqb (method req) "GET" then 1%nat else 4%nat.

(** The request names the branch: in the query of a read, in the body of a
    write or a delete. *)
Definition names_branch (cfg : config) (rq : request) : Prop :=
  match rq_method rq with
  | GET => rq_url rq = resource (rq_url rq) +:+ "?ref=" +:+ encodeURIComponent (branch cfg)
  | _ => body_field (rq_body rq) "branch" = Some (VStr (branch cfg))
  end.

(** The entries of the manifest file of a repository: what the listing
    shows. *)
Definition entries_at (cfg : config) (w : world) : list value :=
  match files w !! contents_url cfg MANIFEST_PATH with
  | Some f => manifest_entries (f_content f)
  | None => []
  end.

Definition listing (env : environment) (w : world) : list value :=
  entries_at (config_of env) w.

(** A repository with no file, and a host that is down. *)
Definition down_world : world :=
  {| files := ∅; faults := [Some outage]; log := [];
     serial := 0; now := "2024-05-01T10:00:00.000Z" |}.

Definition manifest_file : file :=
  {| f_sha := "blob5"; f_content := JSON_stringify (VArr example_manifest) 2 |}.

(** A repository that holds the document of [abc] and a manifest of two
    entries, and a host that answers. *)
Definition manifest_world : world :=
  {| files := <[manifest_url example_env := manifest_file]>
                (<[document_url example_env "abc" := example_document]> ∅);
     faults := []; log := []; serial := 8; now := "2024-05-01T10:00:00.000Z" |}.

(** The document of [abc] as another writer left it, after the state
    [example_document] was read. *)
Definition rewritten_world : world :=
  {| files := <[document_url example_env "abc" :=
                  {| f_sha := "blob9"; f_content := "{}" |}]> ∅;
     faults := []; log := []; serial := 10; now := "2024-05-01T10:00:00.000Z" |}.

Definition example_put : M put_result :=
  ghPutFile (config_of example_env) "notes/a b.txt" "Add notes" "hello" None.

(** The text [caf], an e with an acute accent, a euro sign and a face: one
    character of each length of the UTF-8 form. *)
Definition example_text : string :=
  "caf" +:+ String (ascii_of_N 195) (String (ascii_of_N 169)
    (String (ascii_of_N 226) (String (ascii_of_N 130) (String (ascii_of_N 172)
      (String (ascii_of_N 240) (String (ascii_of_N 159) (String (ascii_of_N 152)
        (String (ascii_of_N 128) EmptyString)))))))).

(** A request that got past the checks of the handler. *)
Definition ado_accepted (ADO_PAT : option string) (req : http_request)
    (org project queryId pat : string) : Prop :=
  method req = "POST"
  /\ Ado.fields ADO_PAT (request_payload (body req)) = Ret (org, project, queryId, pat)
  /\ org <> "" /\ project <> "" /\ queryId <> "" /\ pat <> "".

Definition ado_request : http_request :=
  {| method := "POST"; query_dash := None; query_list := None;
     body := Some (VObj [("org", VStr " acme "); ("project", VStr "Web Shop");
                         ("queryId", VStr "q-17")]) |}.

Definition ado_items : list (list (string * value)) :=
  [[("id", VNum (Finite false "12" 2)); ("url", VStr "u12")];
   [("id", VNum (Finite false "7" 1))]].

(** A service that answers the query with two work items, and the fetch of
    work items with an error. *)
Definition ado_service (rq : request) : response :=
  if String.eqb (rq_url rq) (Ado.wiqlUrl "acme" "Web Shop" "q-17") then
    answer 200 "OK" (VObj [("workItems", VArr (map VObj ado_items))])
  else {| status := 503; statusText := "Service Unavailable"; raw := "try later" |}.


(** An environment without token. *)
Definition tokenless_env : environment :=
  {| GITHUB_TOKEN := None; GITHUB_OWNER := Some "acme";
     GITHUB_REPO := Some "boards"; GITHUB_BRANCH := None |}.

(** If the [n]-th call to come fails, it fails by an answer outside 2xx,
    which the client turns into an [error] result. *)
Definition error_answer_at (n : nat) (w : world) : Prop :=
  forall r, fault_at n w = Some r -> ok r = false.


(** What a delete does once the document is deleted: the update of the
    manifest and the answer. *)
Definition delete_manifest (cfg : config) (id : string) (commitUrl : value) : M http_response :=
  let* man := loadManifest cfg in
  let* _ :=
    match man with
    | ManifestError _ => ret tt
    | Manifest exists_ sha' list =>
        let newList := without_id list id in
        let* _ := saveManifest cfg (manifest_sha exists_ sha') newList in
        ret tt
    end in
  ret (json 200 [("ok", VBool true); ("commitUrl", commitUrl)]).

(** * Properties of the library model *)

(** ** Strings *)

Lemma app_assoc_s (a b c : string) : (a +:+ b) +:+ c = a +:+ (b +:+ c).
Proof. induction a as [|x a IH]; simpl; [reflexivity|]. now rewrite IH. Qed.

Lemma app_nil_r_s (a : string) : a +:+ "" = a.
Proof. induction a as [|x a IH]; simpl; [reflexivity|]. now rewrite IH. Qed.

Lemma length_app_s (a b : string) :
  String.length (a +:+ b) = (String.length a + String.length b)%nat.
Proof. induction a as [|x a IH]; simpl; [reflexivity|]. now rewrite IH. Qed.

Lemma str_rev_onto_app (s acc : string) :
  str_rev_onto s acc = str_rev s +:+ acc.
Proof.
  unfold str_rev. revert acc.
  induction s as [|c s IH]; intros acc; simpl; [reflexivity|].
  rewrite IH, (IH (String c "")), app_assoc_s. reflexivity.
Qed.

Lemma str_rev_cons (c : ascii) (s : string) :
  str_rev (String c s) = str_rev s +:+ String c "".
Proof. unfold str_rev at 1. simpl. apply str_rev_onto_app. Qed.

Lemma str_rev_app (a b : string) : str_rev (a +:+ b) = str_rev b +:+ str_rev a.
Proof.
  induction a as [|c a IH]; simpl.
  - now rewrite app_nil_r_s.
  - now rewrite !str_rev_cons, IH, app_assoc_s.
Qed.

Lemma str_rev_involutive (s : string) : str_rev (str_rev s) = s.
Proof.
  induction s as [|c s IH]; [reflexivity|].
  now rewrite str_rev_cons, str_rev_app, IH.
Qed.

Lemma str_repeat_snoc (c : ascii) (n : nat) :
  str_repeat c n +:+ String c "" = String c (str_repeat c n).
Proof. induction n as [|n IH]; simpl; [reflexivity|]. now rewrite IH. Qed.

Lemma str_rev_repeat (c : ascii) (n : nat) : str_rev (str_repeat c n) = str_repeat c n.
Proof.
  induction n as [|n IH]; [reflexivity|].
  simpl. now rewrite str_rev_cons, IH, str_repeat_snoc.
Qed.

Lemma length_str_repeat (c : ascii) (n : nat) : String.length (str_repeat c n) = n.
Proof. induction n as [|n IH]; simpl; congruence. Qed.

Lemma str_take_drop (n : nat) (s : string) : str_take n s +:+ str_drop n s = s.
Proof.
  revert s. induction n as [|n IH]; intros [|c s]; simpl; try reflexivity.
  now rewrite IH.
Qed.

Lemma length_str_take (n : nat) (s : string) :
  (n <= String.length s)%nat -> String.length (str_take n s) = n.
Proof.
  revert s. induction n as [|n IH]; intros [|c s] H; simpl in *; try reflexivity; try lia.
  rewrite IH; [reflexivity | lia].
Qed.

Lemma str_forallb_app (p : ascii -> bool) (a b : string) :
  str_forallb p (a +:+ b) = str_forallb p a && str_forallb p b.
Proof.
  induction a as [|c a IH]; simpl; [reflexivity|].
  now rewrite IH, andb_assoc.
Qed.

Lemma str_forallb_take (p : ascii -> bool) (n : nat) (s : string) :
  str_forallb p s = true -> str_forallb p (str_take n s) = true.
Proof.
  revert s. induction n as [|n IH]; intros [|c s] H; simpl in *; try reflexivity.
  apply andb_true_iff in H as [-> H]. now rewrite IH.
Qed.

Lemma str_forallb_drop (p : ascii -> bool) (n : nat) (s : string) :
  str_forallb p s = true -> str_forallb p (str_drop n s) = true.
Proof.
  revert s. induction n as [|n IH]; intros [|c s] H; simpl in *; try reflexivity; try assumption.
  apply andb_true_iff in H as [_ H]. now apply IH.
Qed.

Lemma span_app (p : ascii -> bool) (a rest : string) :
  str_forallb p a = true -> head_is p rest = false ->
  span p (a +:+ rest) = (a, rest).
Proof.
  intros Ha Hr. induction a as [|c a IH]; simpl in *.
  - destruct rest as [|d r]; simpl in *; [reflexivity|]. now rewrite Hr.
  - apply andb_true_iff in Ha as [-> Ha]. now rewrite IH.
Qed.

Lemma peek_cons (c : ascii) (s : string) : peek c (String c s) = Some s.
Proof. simpl. now rewrite Ascii.eqb_refl. Qed.

Lemma peek_other (c d : ascii) (s : string) :
  Ascii.eqb d c = false -> peek c (String d s) = None.
Proof. intros H. simpl. now rewrite H. Qed.

(** ** String literals *)

Lemma scan_escape (c : ascii) (t : string) :
  scan_string Plain None (json_escape c +:+ t)
  = emit (String c "") (scan_string Plain None t).
Proof. destruct c as [[] [] [] [] [] [] [] []]; reflexivity. Qed.

Lemma scan_escape_all (s rest : string) :
  scan_string Plain None (json_escape_all s +:+ String QUOTE rest) = Some (s, rest).
Proof.
  induction s as [|c s IH]; simpl.
  - reflexivity.
  - rewrite app_assoc_s, scan_escape, IH. reflexivity.
Qed.

Lemma parse_string_quote (s rest : string) :
  exists t, QuoteJSONString s +:+ rest = String QUOTE t /\ parse_string t = Some (s, rest).
Proof.
  exists (json_escape_all s +:+ String QUOTE rest). split.
  - unfold QuoteJSONString. simpl. now rewrite app_assoc_s.
  - apply scan_escape_all.
Qed.

(** ** Decimal numerals *)

Lemma digits_value_uint (d : Decimal.uint) (acc : nat) :
  digits_value (string_of_uint d) acc = Nat.of_uint_acc d acc.
Proof.
  revert acc. induction d as [|d IH|d IH|d IH|d IH|d IH|d IH|d IH|d IH|d IH|d IH];
    intros acc; simpl; [reflexivity|..];
    rewrite IH, Nat.tail_mul_spec; f_equal;
    unfold digit_val; simpl; lia.
Qed.

Lemma digits_value_string_of_nat (n : nat) : digits_value (string_of_nat n) 0 = n.
Proof.
  unfold string_of_nat. rewrite digits_value_uint.
  apply DecimalNat.Unsigned.of_to.
Qed.

Lemma string_of_uint_digits (d : Decimal.uint) :
  str_forallb is_digit (string_of_uint d) = true.
Proof. induction d; simpl; auto. Qed.

Lemma string_of_nat_digits (n : nat) : str_forallb is_digit (string_of_nat n) = true.
Proof. apply string_of_uint_digits. Qed.

Lemma string_of_nat_nonempty (n : nat) : string_of_nat n <> "".
Proof.
  intros H. pose proof (digits_value_string_of_nat n) as E.
  rewrite H in E. simpl in E. subst n. discriminate H.
Qed.

(** ** Numbers *)

Lemma num_follow_inv (rest : string) :
  num_follow rest = true ->
  head_is is_digit rest = false /\ peek "." rest = None
  /\ peek "e" rest = None /\ peek "E" rest = None.
Proof.
  unfold num_follow. destruct rest as [|c r]; simpl; [auto|].
  intros H. repeat (apply andb_true_iff in H as [H ?]).
  repeat match goal with
         | H : negb ?b = true |- _ => apply negb_true_iff in H; rewrite H
         end.
  auto.
Qed.

Lemma strip_zeros_nonzero (s : string) : nonzero_head s = true -> strip_zeros s = (O, s).
Proof.
  destruct s as [|c r]; simpl; [discriminate|].
  intros H. apply negb_true_iff in H. now rewrite H.
Qed.

Lemma strip_zeros_repeat (k : nat) (s : string) :
  nonzero_head s = true -> strip_zeros (str_repeat "0" k +:+ s) = (k, s).
Proof.
  intros H. induction k as [|k IH]; simpl.
  - now apply strip_zeros_nonzero.
  - now rewrite IH.
Qed.

Lemma nonzero_head_app (a b : string) : nonzero_head a = true -> nonzero_head (a +:+ b) = true.
Proof. destruct a; simpl; [discriminate | auto]. Qed.

Lemma number_of_digits_canonical (neg : bool) (s : string) (i j : nat) (n : Z) :
  canonical_digits s = true ->
  number_of_digits neg (str_repeat "0" i +:+ s +:+ str_repeat "0" j) n
  = Finite neg s (n - Z.of_nat i).
Proof.
  unfold canonical_digits. intros H.
  apply andb_true_iff in H as [H Hlast]. apply andb_true_iff in H as [_ Hfirst].
  unfold number_of_digits.
  rewrite strip_zeros_repeat by now apply nonzero_head_app.
  rewrite str_rev_app, str_rev_repeat, strip_zeros_repeat by assumption.
  destruct (str_rev s) as [|c r] eqn:E; [discriminate|].
  now rewrite <- E, str_rev_involutive.
Qed.

Lemma number_of_digits_trailing (neg : bool) (s : string) (j : nat) (n : Z) :
  canonical_digits s = true ->
  number_of_digits neg (s +:+ str_repeat "0" j) n = Finite neg s n.
Proof.
  intros H. pose proof (number_of_digits_canonical neg s 0 j n H) as E.
  simpl in E. now rewrite Z.sub_0_r in E.
Qed.

Lemma number_of_digits_leading (neg : bool) (s : string) (i : nat) (n : Z) :
  canonical_digits s = true ->
  number_of_digits neg (str_repeat "0" i +:+ s) n = Finite neg s (n - Z.of_nat i).
Proof.
  intros H. pose proof (number_of_digits_canonical neg s i 0 n H) as E.
  simpl in E. now rewrite app_nil_r_s in E.
Qed.

Lemma number_of_digits_exact (neg : bool) (s : string) (n : Z) :
  canonical_digits s = true -> number_of_digits neg s n = Finite neg s n.
Proof.
  intros H. pose proof (number_of_digits_trailing neg s 0 n H) as E.
  simpl in E. now rewrite app_nil_r_s in E.
Qed.

Lemma canonical_digits_inv (s : string) :
  canonical_digits s = true ->
  exists c r, s = String c r /\ is_digit c = true /\ Ascii.eqb c "0" = false
              /\ str_forallb is_digit r = true.
Proof.
  unfold canonical_digits. intros H.
  apply andb_true_iff in H as [H _]. apply andb_true_iff in H as [Hd Hf].
  destruct s as [|c r]; simpl in *; [discriminate|].
  apply andb_true_iff in Hd as [Hc Hr]. apply negb_true_iff in Hf.
  now exists c, r.
Qed.

Lemma digit_not_minus (c : ascii) : is_digit c = true -> Ascii.eqb c "-" = false.
Proof.
  intros H. destruct (Ascii.eqb_spec c "-"); [subst; discriminate | reflexivity].
Qed.

Lemma digit_not_dot (c : ascii) : is_digit c = true -> Ascii.eqb c "." = false.
Proof.
  intros H. destruct (Ascii.eqb_spec c "."); [subst; discriminate | reflexivity].
Qed.

Lemma parse_fraction_none (rest : string) :
  peek "." rest = None -> parse_fraction rest = Some ("", rest).
Proof. unfold parse_fraction. now intros ->. Qed.

Lemma parse_fraction_some (f rest : string) :
  f <> "" -> str_forallb is_digit f = true -> head_is is_digit rest = false ->
  parse_fraction ("." +:+ f +:+ rest) = Some (f, rest).
Proof.
  intros Hne Hf Hr. unfold parse_fraction. simpl.
  rewrite span_app by assumption. destruct f; [contradiction | reflexivity].
Qed.

Lemma parse_exponent_none (rest : string) :
  peek "e" rest = None -> peek "E" rest = None -> parse_exponent rest = Some (0, rest).
Proof. unfold parse_exponent. now intros -> ->. Qed.

Lemma parse_exponent_some (e : Z) (rest : string) :
  head_is is_digit rest = false ->
  parse_exponent ("e" +:+ (if e <? 0 then "-" else "+")
                    +:+ string_of_nat (Z.abs_nat e) +:+ rest) = Some (e, rest).
Proof.
  intros Hr. unfold parse_exponent.
  pose proof (string_of_nat_digits (Z.abs_nat e)) as Hd.
  pose proof (string_of_nat_nonempty (Z.abs_nat e)) as Hne.
  pose proof (digits_value_string_of_nat (Z.abs_nat e)) as Hv.
  destruct (Z.ltb_spec e 0); simpl; rewrite span_app by assumption;
    (destruct (string_of_nat (Z.abs_nat e)) eqn:E; [contradiction|]);
    rewrite Hv; f_equal; f_equal; lia.
Qed.

Lemma parse_unsigned_parts (neg : bool) (i tail f s3 : string) (e : Z) (rest : string) :
  str_forallb is_digit i = true -> int_part_ok i = true ->
  head_is is_digit tail = false ->
  parse_fraction tail = Some (f, s3) ->
  parse_exponent s3 = Some (e, rest) ->
  parse_unsigned neg (i +:+ tail)
  = Some (number_of_digits neg (i +:+ f) (Z.of_nat (String.length i) + e), rest).
Proof.
  intros Hi Hok Ht Hf He. unfold parse_unsigned.
  rewrite span_app by assumption.
  destruct i as [|c r]; [discriminate|].
  unfold int_part_ok in Hok. apply negb_true_iff in Hok. rewrite Hok.
  now rewrite Hf, He.
Qed.

Lemma int_part_ok_nonzero (c : ascii) (r : string) :
  Ascii.eqb c "0" = false -> int_part_ok (String c r) = true.
Proof. intros H. simpl. now rewrite H. Qed.

Lemma head_is_digit_dot (s : string) : head_is is_digit ("." +:+ s) = false.
Proof. reflexivity. Qed.

Lemma head_is_digit_e (s : string) : head_is is_digit ("e" +:+ s) = false.
Proof. reflexivity. Qed.

Lemma str_take_cons_inv (n : nat) (c : ascii) (r : string) :
  (0 < n)%nat -> str_take n (String c r) = String c (str_take (n - 1) r).
Proof. destruct n; [lia|]. intros _. simpl. now rewrite Nat.sub_0_r. Qed.

Lemma str_drop_nonempty (n : nat) (s : string) :
  (n < String.length s)%nat -> str_drop n s <> "".
Proof.
  revert s. induction n as [|n IH]; intros [|c s] H; simpl in *; try lia; try discriminate.
  apply IH. lia.
Qed.

Lemma parse_unsigned_toString (neg : bool) (s : string) (n : Z) (rest : string) :
  canonical_digits s = true -> num_follow rest = true ->
  exists body,
    Number_toString (Finite neg s n) = (if neg then "-" +:+ body else body)
    /\ head_is is_digit body = true
    /\ parse_unsigned neg (body +:+ rest) = Some (Finite neg s n, rest).
Proof.
  intros Hc Hrest.
  destruct (num_follow_inv _ Hrest) as (Hr & Hdot & He & HE).
  destruct (canonical_digits_inv _ Hc) as (c & r & -> & Hcd & Hc0 & Hrd).
  assert (Hsd : str_forallb is_digit (String c r) = true) by (simpl; now rewrite Hcd).
  set (s := String c r) in *.
  set (k := Z.of_nat (String.length s)).
  assert (Hk : 0 < k) by (unfold k, s; simpl; lia).
  unfold Number_toString. fold k.
  destruct ((k <=? n) && (n <=? 21)) eqn:C1;
    [|destruct ((0 <? n) && (n <=? 21)) eqn:C2;
      [|destruct ((-6 <? n) && (n <=? 0)) eqn:C3]];
    eexists; (split; [reflexivity|]); cbv beta iota.
  - (* the digits followed by zeros *)
    apply andb_true_iff in C1 as [C1 _]. apply Z.leb_le in C1.
    split; [unfold s; simpl; exact Hcd|].
    rewrite (parse_unsigned_parts neg _ rest "" rest 0 rest);
      [ | | | assumption | now apply parse_fraction_none | now apply parse_exponent_none ].
    + rewrite app_nil_r_s, number_of_digits_trailing by assumption.
      rewrite length_app_s, length_str_repeat.
      do 3 f_equal. subst k. lia.
    + rewrite str_forallb_app, Hsd. simpl.
      clear. induction (Z.to_nat (n - k)); simpl; auto.
    + unfold s. simpl. now rewrite Hc0.
  - (* a decimal point inside the digits *)
    apply andb_true_iff in C2 as [C2 C2']. apply Z.ltb_lt in C2. rewrite C2' in C1.
    rewrite andb_true_r in C1. apply Z.leb_gt in C1.
    split; [unfold s; rewrite str_take_cons_inv by lia; exact Hcd|].
    rewrite app_assoc_s.
    rewrite (parse_unsigned_parts neg _ _ (str_drop (Z.to_nat n) s) rest 0 rest).
    + rewrite str_take_drop, number_of_digits_exact by assumption.
      rewrite length_str_take by (subst k; lia).
      do 3 f_equal. lia.
    + now apply str_forallb_take.
    + unfold s. rewrite str_take_cons_inv by lia. now apply int_part_ok_nonzero.
    + reflexivity.
    + rewrite app_assoc_s. apply parse_fraction_some.
      * apply str_drop_nonempty. subst k. lia.
      * now apply str_forallb_drop.
      * assumption.
    + now apply parse_exponent_none.
  - (* zeros between the decimal point and the digits *)
    apply andb_true_iff in C3 as [C3 C3']. apply Z.ltb_lt in C3. apply Z.leb_le in C3'.
    split; [reflexivity|].
    change ("0." +:+ str_repeat "0" (Z.to_nat (- n)) +:+ s)
      with ("0" +:+ "." +:+ (str_repeat "0" (Z.to_nat (- n)) +:+ s)).
    rewrite app_assoc_s.
    rewrite (parse_unsigned_parts neg "0" _ (str_repeat "0" (Z.to_nat (- n)) +:+ s) rest 0 rest).
    + change ("0" +:+ str_repeat "0" (Z.to_nat (- n)) +:+ s)
        with (str_repeat "0" (S (Z.to_nat (- n))) +:+ s).
      rewrite number_of_digits_leading by assumption.
      do 3 f_equal. simpl String.length. lia.
    + reflexivity.
    + reflexivity.
    + reflexivity.
    + rewrite app_assoc_s. apply parse_fraction_some.
      * destruct (Z.to_nat (- n)); unfold s; discriminate.
      * rewrite str_forallb_app, Hsd, andb_true_r.
        clear. induction (Z.to_nat (- n)); simpl; auto.
      * assumption.
    + now apply parse_exponent_none.
  - (* exponential notation *)
    unfold s. destruct r as [|d r']; cbv beta iota zeta.
    + split; [exact Hcd|].
      rewrite !app_assoc_s.
      erewrite (parse_unsigned_parts neg (String c "") _ "" _ (n - 1) rest).
      * rewrite app_nil_r_s, number_of_digits_exact by assumption.
        do 3 f_equal. simpl String.length. lia.
      * simpl. now rewrite Hcd.
      * now apply int_part_ok_nonzero.
      * reflexivity.
      * reflexivity.
      * apply (parse_exponent_some (n - 1)). assumption.
    + split; [exact Hcd|].
      change (String c ("." +:+ String d r')) with (String c "" +:+ "." +:+ String d r').
      rewrite !app_assoc_s.
      erewrite (parse_unsigned_parts neg (String c "") _ (String d r') _ (n - 1) rest).
      * change (String c "" +:+ String d r') with s.
        rewrite number_of_digits_exact by assumption.
        do 3 f_equal. simpl String.length. lia.
      * simpl. now rewrite Hcd.
      * now apply int_part_ok_nonzero.
      * reflexivity.
      * apply parse_fraction_some; [discriminate | assumption | reflexivity].
      * apply (parse_exponent_some (n - 1)). assumption.
Qed.

Lemma parse_number_toString (x : number) (rest : string) :
  number_finite x = true -> num_follow rest = true ->
  parse_number (Number_toString x +:+ rest) = Some (x, rest).
Proof.
  intros Hx Hrest. destruct x as [|b| |neg s n]; try discriminate.
  - destruct (num_follow_inv _ Hrest) as (Hr & Hdot & He & HE).
    unfold parse_number. simpl.
    change (String "0" rest) with ("0" +:+ rest).
    rewrite (parse_unsigned_parts false "0" rest "" rest 0 rest);
      [reflexivity | reflexivity | reflexivity | assumption
      | now apply parse_fraction_none | now apply parse_exponent_none].
  - destruct (parse_unsigned_toString neg s n rest Hx Hrest) as (body & -> & Hd & Hp).
    unfold parse_number. destruct neg.
    + simpl. exact Hp.
    + destruct body as [|c r]; [discriminate|]. simpl in Hd.
      simpl. rewrite (digit_not_minus c Hd). exact Hp.
Qed.

(** ** Values *)

Lemma skip_ws_idempotent (s : string) : skip_ws (skip_ws s) = skip_ws s.
Proof.
  induction s as [|c s IH]; simpl; [reflexivity|].
  destruct (is_ws c) eqn:E; [assumption|]. simpl. now rewrite E.
Qed.

Lemma skip_ws_app (w s : string) :
  str_forallb is_ws w = true -> skip_ws (w +:+ s) = skip_ws s.
Proof.
  induction w as [|c w IH]; simpl; [reflexivity|].
  intros H. apply andb_true_iff in H as [-> H]. auto.
Qed.

Lemma skip_ws_head (s : string) : head_is is_ws s = false -> skip_ws s = s.
Proof. destruct s as [|c r]; simpl; [reflexivity|]. now intros ->. Qed.

Lemma newline_ws (gap indent : nat) : str_forallb is_ws (newline gap indent) = true.
Proof.
  destruct gap; simpl; [reflexivity|].
  unfold spaces. induction indent; simpl; auto.
Qed.

Lemma parse_value_skip_ws (fuel : nat) (s : string) :
  parse_value fuel (skip_ws s) = parse_value fuel s.
Proof. destruct fuel; simpl; [reflexivity|]. now rewrite skip_ws_idempotent. Qed.

Lemma parse_value_ws (fuel : nat) (w s : string) :
  str_forallb is_ws w = true -> parse_value fuel (w +:+ s) = parse_value fuel s.
Proof.
  intros H. rewrite <- parse_value_skip_ws, skip_ws_app by assumption.
  apply parse_value_skip_ws.
Qed.

Lemma parse_members_ws (fuel : nat) (w s : string) :
  str_forallb is_ws w = true -> parse_members fuel (w +:+ s) = parse_members fuel s.
Proof.
  intros H. destruct fuel; simpl; [reflexivity|].
  rewrite skip_ws_app by assumption.
  destruct (peek QUOTE (skip_ws s)) eqn:E; [|reflexivity].
  reflexivity.
Qed.

Lemma digit_opens_value (c : ascii) : is_digit c = true -> opens_value c = true.
Proof.
  destruct c as [[] [] [] [] [] [] [] []]; try discriminate; reflexivity.
Qed.

Lemma serialize_head (gap indent : nat) (v : value) :
  head_is opens_value (serialize gap indent v) = true.
Proof.
  destruct v as [|[]|x|s|[|v l]|[|kv l]]; try reflexivity.
  simpl. destruct (number_finite x) eqn:E; [|reflexivity].
  destruct x as [|b| |neg s n]; try discriminate; [reflexivity|].
  destruct (parse_unsigned_toString neg s n "" E eq_refl) as (body & -> & Hd & _).
  destruct neg; [reflexivity|].
  destruct body; [discriminate|]. simpl in *. now apply digit_opens_value.
Qed.

Lemma parse_elements_ws (fuel : nat) (w s : string) :
  str_forallb is_ws w = true -> parse_elements fuel (w +:+ s) = parse_elements fuel s.
Proof.
  intros H. destruct fuel; simpl; [reflexivity|].
  now rewrite parse_value_ws.
Qed.

Lemma parse_elements_unfold (f : nat) (s : string) :
  parse_elements (S f) s =
  match parse_value f s with
  | None => None
  | Some (v, r) =>
      match peek "]" (skip_ws r) with
      | Some t => Some ([v], t)
      | None =>
          match peek "," (skip_ws r) with
          | Some t =>
              match parse_elements f t with
              | Some (l, u) => Some (v :: l, u)
              | None => None
              end
          | None => None
          end
      end
  end.
Proof. reflexivity. Qed.

Lemma parse_members_unfold (f : nat) (s : string) :
  parse_members (S f) s =
  match peek QUOTE (skip_ws s) with
  | None => None
  | Some r =>
      match parse_string r with
      | None => None
      | Some (k, r1) =>
          match peek ":" (skip_ws r1) with
          | None => None
          | Some r2 =>
              match parse_value f r2 with
              | None => None
              | Some (v, r3) =>
                  match peek "}" (skip_ws r3) with
                  | Some t => Some ([(k, v)], t)
                  | None =>
                      match peek "," (skip_ws r3) with
                      | Some t =>
                          match parse_members f t with
                          | Some (l, u) => Some ((k, v) :: l, u)
                          | None => None
                          end
                      | None => None
                      end
                  end
              end
          end
      end
  end.
Proof. reflexivity. Qed.

Lemma parse_value_array (f : nat) (r : string) :
  parse_value (S f) (String "[" r) =
  match peek "]" (skip_ws r) with
  | Some t => Some (VArr [], t)
  | None =>
      match parse_elements f r with
      | Some (l, t) => Some (VArr l, t)
      | None => None
      end
  end.
Proof. reflexivity. Qed.

Lemma parse_value_object (f : nat) (r : string) :
  parse_value (S f) (String "{" r) =
  match peek "}" (skip_ws r) with
  | Some t => Some (VObj [], t)
  | None =>
      match parse_members f r with
      | Some (ms, t) => Some (VObj (obj_of_members ms), t)
      | None => None
      end
  end.
Proof. reflexivity. Qed.

Lemma parse_value_string (f : nat) (r : string) :
  parse_value (S f) (String QUOTE r) =
  match parse_string r with Some (x, t) => Some (VStr x, t) | None => None end.
Proof. reflexivity. Qed.

Lemma parse_value_number (f : nat) (c : ascii) (r : string) :
  is_digit c || Ascii.eqb c "-" = true ->
  parse_value (S f) (String c r) =
  match parse_number (String c r) with
  | Some (x, t) => Some (VNum x, t)
  | None => None
  end.
Proof.
  destruct c as [[] [] [] [] [] [] [] []]; try discriminate; reflexivity.
Qed.

Lemma num_follow_comma (s : string) : num_follow ("," +:+ s) = true.
Proof. reflexivity. Qed.

Lemma num_follow_newline (gap indent : nat) (c : ascii) (s : string) :
  num_follow (String c s) = true ->
  num_follow (newline gap indent +:+ String c s) = true.
Proof. destruct gap; simpl; [auto | reflexivity]. Qed.

Lemma peek_newline (gap indent : nat) (c : ascii) (s : string) :
  is_ws c = false ->
  peek c (skip_ws (newline gap indent +:+ String c s)) = Some s.
Proof.
  intros H. rewrite skip_ws_app by apply newline_ws.
  rewrite skip_ws_head by exact H. apply peek_cons.
Qed.

Lemma parse_elements_join (gap inner : nat) (l : list value) (tail rest : string) :
  l <> [] -> Forall (reads_back gap) l ->
  num_follow tail = true -> peek "]" (skip_ws tail) = Some rest ->
  forall fuel, (esize l <= fuel)%nat ->
  parse_elements fuel
    (join ("," +:+ newline gap inner) (map (serialize gap inner) l) +:+ tail)
  = Some (l, rest).
Proof.
  intros Hne Hall Htail Hclose.
  induction l as [|v l IH]; [contradiction|].
  inversion Hall as [|? ? Hv Hl]; subst. intros fuel Hfuel.
  unfold esize in Hfuel. simpl in Hfuel.
  destruct fuel as [|f]; [lia|]. rewrite parse_elements_unfold.
  destruct l as [|v' l'].
  - simpl join. rewrite Hv by (simpl in *; lia || assumption).
    now rewrite Hclose.
  - change (join ("," +:+ newline gap inner) (map (serialize gap inner) (v :: v' :: l')))
      with (serialize gap inner v +:+ ("," +:+ newline gap inner)
              +:+ join ("," +:+ newline gap inner) (map (serialize gap inner) (v' :: l'))).
    remember (join ("," +:+ newline gap inner) (map (serialize gap inner) (v' :: l'))) as J.
    rewrite !app_assoc_s. change ("," +:+ ?x) with (String "," x).
    rewrite Hv; [|simpl in *; lia|reflexivity].
    rewrite skip_ws_head by reflexivity.
    rewrite peek_other by reflexivity. rewrite peek_cons.
    rewrite parse_elements_ws by apply newline_ws.
    rewrite IH; [reflexivity|discriminate|assumption|].
    unfold esize. simpl in *. lia.
Qed.

Lemma quote_app (k x : string) :
  QuoteJSONString k +:+ x = String QUOTE (json_escape_all k +:+ String QUOTE x).
Proof. unfold QuoteJSONString. simpl. now rewrite app_assoc_s. Qed.

Lemma peek_colon (gap : nat) (y : string) :
  exists w, str_forallb is_ws w = true
            /\ peek ":" (skip_ws (colon gap +:+ y)) = Some (w +:+ y).
Proof.
  destruct gap.
  - exists "". split; reflexivity.
  - exists " ". split; reflexivity.
Qed.

Lemma parse_members_join (gap inner : nat) (l : list (string * value)) (tail rest : string) :
  l <> [] -> Forall (fun kv => reads_back gap (snd kv)) l ->
  num_follow tail = true -> peek "}" (skip_ws tail) = Some rest ->
  forall fuel, (msize l <= fuel)%nat ->
  parse_members fuel
    (join ("," +:+ newline gap inner) (map (member_text gap inner) l) +:+ tail)
  = Some (l, rest).
Proof.
  intros Hne Hall Htail Hclose.
  induction l as [|[k v] l IH]; [contradiction|].
  inversion Hall as [|? ? Hv Hl]; subst. simpl in Hv. intros fuel Hfuel.
  unfold msize in Hfuel. simpl in Hfuel.
  destruct fuel as [|f]; [lia|]. rewrite parse_members_unfold.
  destruct l as [|kv' l'].
  - simpl join. unfold member_text at 1. simpl fst. simpl snd.
    rewrite !app_assoc_s, quote_app.
    rewrite skip_ws_head by reflexivity. rewrite peek_cons.
    unfold parse_string. rewrite scan_escape_all.
    destruct (peek_colon gap (serialize gap inner v +:+ tail)) as (w & Hw & ->).
    rewrite parse_value_ws by assumption.
    rewrite Hv by (simpl in *; lia || assumption).
    now rewrite Hclose.
  - change (join ("," +:+ newline gap inner) (map (member_text gap inner) ((k, v) :: kv' :: l')))
      with (member_text gap inner (k, v) +:+ ("," +:+ newline gap inner)
              +:+ join ("," +:+ newline gap inner) (map (member_text gap inner) (kv' :: l'))).
    remember (join ("," +:+ newline gap inner) (map (member_text gap inner) (kv' :: l'))) as J.
    unfold member_text at 1. simpl fst. simpl snd.
    rewrite !app_assoc_s, quote_app. change ("," +:+ ?x) with (String "," x).
    rewrite skip_ws_head by reflexivity. rewrite peek_cons.
    unfold parse_string. rewrite scan_escape_all.
    match goal with
    | |- context [colon gap +:+ ?y] => destruct (peek_colon gap y) as (w & Hw & ->)
    end.
    rewrite parse_value_ws by assumption.
    rewrite Hv; [|simpl in *; lia|reflexivity].
    rewrite skip_ws_head by reflexivity.
    rewrite peek_other by reflexivity. rewrite peek_cons.
    rewrite parse_members_ws by apply newline_ws.
    rewrite IH; [reflexivity|discriminate|assumption|].
    unfold msize. simpl in *. lia.
Qed.

Lemma distinct_NoDup (l : list string) : distinct l = true <-> NoDup l.
Proof.
  induction l as [|k l IH]; simpl.
  - split; [constructor | reflexivity].
  - rewrite andb_true_iff, negb_true_iff, IH, NoDup_cons.
    assert (existsb (String.eqb k) l = false <-> k ∉ l) as ->; [|reflexivity].
    rewrite <- not_true_iff_false, existsb_exists.
    split; intros H.
    + intros Hin. apply H. exists k. split; [now apply list_elem_of_In | apply String.eqb_refl].
    + intros (x & Hin & Heq). apply String.eqb_eq in Heq. subst x.
      apply H. now apply list_elem_of_In.
Qed.

Lemma obj_set_fresh (acc : list (string * value)) (k : string) (v : value) :
  k ∉ map fst acc -> obj_set acc k v = acc ++ [(k, v)].
Proof.
  induction acc as [|[k' v'] acc IH]; simpl; intros H; [reflexivity|].
  apply not_elem_of_cons in H as [Hne H].
  destruct (String.eqb_spec k' k); [congruence|]. now rewrite IH.
Qed.

Lemma obj_of_members_distinct (ms : list (string * value)) :
  distinct (map fst ms) = true -> obj_of_members ms = ms.
Proof.
  intros H. apply distinct_NoDup in H. unfold obj_of_members.
  enough (forall acc, NoDup (map fst (acc ++ ms)) ->
            fold_left (fun o kv => obj_set o (fst kv) (snd kv)) ms acc = acc ++ ms) as G
    by exact (G [] H).
  clear H. induction ms as [|[k v] ms IH]; intros acc H; simpl.
  - now rewrite app_nil_r.
  - rewrite obj_set_fresh.
    + rewrite IH; rewrite <- app_assoc; [reflexivity | exact H].
    + rewrite map_app in H. apply NoDup_app in H as (_ & H & _).
      intros Hin. apply (H k Hin). simpl. left.
Qed.

Lemma head_is_app (p : ascii -> bool) (a b : string) :
  head_is p a = true -> head_is p (a +:+ b) = true.
Proof. destruct a; simpl; [discriminate | auto]. Qed.

Lemma peek_opens (c : ascii) (w s : string) :
  opens_value c = false -> str_forallb is_ws w = true -> head_is opens_value s = true ->
  peek c (skip_ws (w +:+ s)) = None.
Proof.
  intros Hc Hw Hs. rewrite skip_ws_app by assumption.
  destruct s as [|d r]; [discriminate|]. simpl in Hs.
  assert (is_ws d = false) as Hd.
  { unfold opens_value in Hs. destruct (is_ws d); [discriminate | reflexivity]. }
  rewrite skip_ws_head by exact Hd.
  apply peek_other. destruct (Ascii.eqb_spec d c); [subst; congruence | reflexivity].
Qed.

Lemma number_head (x : number) :
  number_finite x = true ->
  head_is (fun c => is_digit c || Ascii.eqb c "-") (Number_toString x) = true.
Proof.
  intros E. destruct x as [|b| |neg s n]; try discriminate; [reflexivity|].
  destruct (parse_unsigned_toString neg s n "" E eq_refl) as (body & -> & Hd & _).
  destruct neg; [reflexivity|].
  destruct body; [discriminate|]. simpl in *. now rewrite Hd.
Qed.

Lemma join_head (p : ascii -> bool) (sep : string) (f : string) (l : list string) :
  head_is p f = true -> head_is p (join sep (f :: l)) = true.
Proof. destruct l; simpl; [auto | now apply head_is_app]. Qed.

Lemma member_head (gap inner : nat) (kv : string * value) :
  head_is opens_value (member_text gap inner kv) = true.
Proof. reflexivity. Qed.

Theorem parse_serialize (v : value) :
  serializable v = true -> forall gap, reads_back gap v.
Proof.
  induction v as [|b|x|s|l IH|props IH] using value_nested_ind;
    intros Hs gap indent fuel rest Hfuel Hrest;
    (destruct fuel as [|f]; [simpl in Hfuel; lia|]).
  - reflexivity.
  - destruct b; reflexivity.
  - simpl in Hs. simpl serialize. rewrite Hs.
    pose proof (number_head x Hs) as Hh.
    destruct (Number_toString x) as [|c r] eqn:E; [discriminate|].
    simpl in Hh. simpl append. rewrite parse_value_number by exact Hh.
    change (String c (r +:+ rest)) with (String c r +:+ rest).
    rewrite <- E, parse_number_toString by assumption. reflexivity.
  - simpl serialize. rewrite quote_app, parse_value_string.
    unfold parse_string. now rewrite scan_escape_all.
  - destruct l as [|v l]; [reflexivity|].
    simpl in Hs. apply andb_true_iff in Hs as [Hv Hl].
    assert (Hall : Forall (reads_back gap) (v :: l)).
    { inversion IH as [|? ? IHv IHl]; subst. constructor; [now apply IHv|].
      clear - IHl Hl. induction IHl as [|y l Hy _ IHl']; [constructor|].
      simpl in Hl. apply andb_true_iff in Hl as [Hy' Hl]. constructor; auto. }
    remember (v :: l) as vs.
    assert (Hser : serialize gap indent (VArr vs) =
      String "[" (newline gap (indent + gap)
        +:+ join ("," +:+ newline gap (indent + gap)) (map (serialize gap (indent + gap)) vs)
        +:+ newline gap indent +:+ "]")) by (subst vs; reflexivity).
    rewrite Hser. simpl append. rewrite parse_value_array.
    rewrite !app_assoc_s.
    rewrite peek_opens;
      [| reflexivity | apply newline_ws
       | subst vs; apply head_is_app, join_head, serialize_head ].
    rewrite parse_elements_ws by apply newline_ws.
    rewrite (parse_elements_join gap (indent + gap) vs _ rest); try assumption.
    + reflexivity.
    + subst vs. discriminate.
    + now apply num_follow_newline.
    + now apply peek_newline.
    + simpl in Hfuel. unfold esize. lia.
  - destruct props as [|kv l]; [reflexivity|].
    simpl in Hs. apply andb_true_iff in Hs as [Hs Hd].
    apply andb_true_iff in Hs as [Hv Hl].
    assert (Hall : Forall (fun kv => reads_back gap (snd kv)) (kv :: l)).
    { inversion IH as [|? ? IHv IHl]; subst. constructor; [now apply IHv|].
      clear - IHl Hl. induction IHl as [|y l Hy _ IHl']; [constructor|].
      simpl in Hl. apply andb_true_iff in Hl as [Hy' Hl]. constructor; auto. }
    remember (kv :: l) as ms.
    assert (Hser : serialize gap indent (VObj ms) =
      String "{" (newline gap (indent + gap)
        +:+ join ("," +:+ newline gap (indent + gap)) (map (member_text gap (indent + gap)) ms)
        +:+ newline gap indent +:+ "}")) by (subst ms; reflexivity).
    rewrite Hser. simpl append. rewrite parse_value_object.
    rewrite !app_assoc_s.
    rewrite peek_opens;
      [| reflexivity | apply newline_ws
       | subst ms; apply head_is_app, join_head, member_head ].
    rewrite parse_members_ws by apply newline_ws.
    rewrite (parse_members_join gap (indent + gap) ms _ rest); try assumption.
    + rewrite obj_of_members_distinct; [reflexivity|]. subst ms. exact Hd.
    + subst ms. discriminate.
    + now apply num_follow_newline.
    + now apply peek_newline.
    + simpl in Hfuel. unfold msize. lia.
Qed.

Lemma join_length (sep : string) (parts : list string) (sizes : list nat) :
  (1 <= String.length sep)%nat ->
  Forall2 (fun n p => (n <= String.length p)%nat) sizes parts ->
  parts <> [] ->
  (list_sum (map S sizes) <= S (String.length (join sep parts)))%nat.
Proof.
  intros Hsep H. induction H as [|n p sizes parts Hnp H IH]; [contradiction|].
  intros _. destruct parts as [|q parts].
  - inversion H; subst. simpl. lia.
  - change (join sep (p :: q :: parts)) with (p +:+ sep +:+ join sep (q :: parts)).
    rewrite !length_app_s. simpl list_sum.
    assert (q :: parts <> []) as Hne by discriminate.
    specialize (IH Hne). simpl in *. lia.
Qed.

Lemma vsize_length (gap : nat) (v : value) :
  forall indent, (vsize v <= String.length (serialize gap indent v))%nat.
Proof.
  induction v as [|b|x|s|l IH|props IH] using value_nested_ind; intros indent.
  - simpl. lia.
  - destruct b; simpl; lia.
  - simpl. destruct (number_finite x) eqn:E; [|simpl; lia].
    pose proof (number_head x E) as H.
    destruct (Number_toString x); [discriminate | simpl; lia].
  - simpl. lia.
  - destruct l as [|v l]; [simpl; lia|].
    remember (v :: l) as vs.
    assert (Hser : serialize gap indent (VArr vs) =
      String "[" (newline gap (indent + gap)
        +:+ join ("," +:+ newline gap (indent + gap)) (map (serialize gap (indent + gap)) vs)
        +:+ newline gap indent +:+ "]")) by (subst vs; reflexivity).
    rewrite Hser. simpl String.length. rewrite !length_app_s. simpl vsize.
    pose proof (join_length ("," +:+ newline gap (indent + gap))
                  (map (serialize gap (indent + gap)) vs) (map vsize vs)) as J.
    rewrite map_map in J. simpl String.length in *.
    enough (list_sum (map (fun x => S (vsize x)) vs)
            <= S (String.length (join (String "," (newline gap (indent + gap)))
                                   (map (serialize gap (indent + gap)) vs))))%nat by lia.
    apply J; [lia | | subst vs; discriminate].
    clear - IH. induction IH; simpl; constructor; auto.
  - destruct props as [|kv l]; [simpl; lia|].
    remember (kv :: l) as ms.
    assert (Hser : serialize gap indent (VObj ms) =
      String "{" (newline gap (indent + gap)
        +:+ join ("," +:+ newline gap (indent + gap)) (map (member_text gap (indent + gap)) ms)
        +:+ newline gap indent +:+ "}")) by (subst ms; reflexivity).
    rewrite Hser. simpl String.length. rewrite !length_app_s. simpl vsize.
    pose proof (join_length ("," +:+ newline gap (indent + gap))
                  (map (member_text gap (indent + gap)) ms)
                  (map (fun kv => vsize (snd kv)) ms)) as J.
    rewrite map_map in J. simpl String.length in *.
    enough (list_sum (map (fun kv => S (vsize (snd kv))) ms)
            <= S (String.length (join (String "," (newline gap (indent + gap)))
                                   (map (member_text gap (indent + gap)) ms))))%nat by lia.
    apply J; [lia | | subst ms; discriminate].
    clear - IH. induction IH as [|[k v] l Hv _ IHl]; simpl; constructor; auto.
    unfold member_text. simpl. rewrite !length_app_s. specialize (Hv (indent + gap)%nat). simpl in Hv. lia.
Qed.

(** [JSON.parse(JSON.stringify(v, null, space))] is [v]. *)
Theorem JSON_parse_stringify (v : value) (space : nat) :
  serializable v = true -> JSON_parse (JSON_stringify v space) = Some v.
Proof.
  intros H. unfold JSON_parse, JSON_stringify.
  pose proof (parse_serialize v H (Nat.min 10 space) 0%nat
                (2 * String.length (serialize (Nat.min 10 space) 0 v) + 2)%nat "") as P.
  rewrite app_nil_r_s in P. rewrite P; [reflexivity | | reflexivity].
  pose proof (vsize_length (Nat.min 10 space) v 0%nat). lia.
Qed.

(** ** Base64 *)

Lemma b64_char_spec (n : N) :
  (n < 64)%N ->
  unbase64 (b64_char n) = Some n /\ Ascii.eqb (b64_char n) "=" = false
  /\ Ascii.eqb (b64_char n) LF = false.
Proof.
  intros H.
  assert (forallb (fun m => b64_char_ok (N.of_nat m)) (seq 0 64) = true) as A
    by (vm_compute; reflexivity).
  rewrite forallb_forall in A.
  specialize (A (N.to_nat n)). rewrite N2Nat.id in A.
  assert (b64_char_ok n = true) as B by (apply A, in_seq; lia).
  unfold b64_char_ok in B.
  apply andb_true_iff in B as [B B3]. apply andb_true_iff in B as [B1 B2].
  apply negb_true_iff in B2, B3.
  destruct (unbase64 (b64_char n)) as [m|]; [|discriminate].
  apply N.eqb_eq in B1. now subst m.
Qed.

Lemma code_bound (c : ascii) : (code c < 256)%N.
Proof. apply N_ascii_bounded. Qed.

Lemma ascii_of_code (c : ascii) (n : N) : n = code c -> ascii_of_N n = c.
Proof. intros ->. apply ascii_N_embedding. Qed.

Lemma sextets_char (n : N) (r : string) :
  (n < 64)%N -> sextets (String (b64_char n) r) = n :: sextets r.
Proof.
  intros H. destruct (b64_char_spec n H) as (E1 & E2 & _).
  simpl. now rewrite E2, E1.
Qed.

Theorem base64_decode_encode (s : string) : base64_decode (base64_encode s) = s.
Proof.
  unfold base64_decode.
  induction s as [|a|a b|a b c r IH] using string_ind3.
  - reflexivity.
  - pose proof (code_bound a).
    cbn [base64_encode]. cbv zeta.
    rewrite !sextets_char by div_lia. cbn [sextets Ascii.eqb Bool.eqb bytes_of_sextets].
    f_equal. apply ascii_of_code. div_lia.
  - pose proof (code_bound a). pose proof (code_bound b).
    cbn [base64_encode]. cbv zeta.
    rewrite !sextets_char by div_lia. cbn [sextets Ascii.eqb Bool.eqb bytes_of_sextets].
    f_equal; [apply ascii_of_code; div_lia|].
    f_equal. apply ascii_of_code. div_lia.
  - pose proof (code_bound a). pose proof (code_bound b). pose proof (code_bound c).
    cbn [base64_encode]. cbv zeta.
    rewrite !sextets_char by div_lia. cbn [bytes_of_sextets].
    rewrite IH.
    f_equal; [apply ascii_of_code; div_lia|].
    f_equal; [apply ascii_of_code; div_lia|].
    f_equal. apply ascii_of_code. div_lia.
Qed.

Theorem fromBase64_toBase64 (s : string) : fromBase64 (toBase64 s) = s.
Proof. apply base64_decode_encode. Qed.

Lemma base64_encode_no_newline (s : string) :
  str_forallb (fun c => negb (Ascii.eqb c LF)) (base64_encode s) = true.
Proof.
  induction s as [|a|a b|a b c r IH] using string_ind3.
  - reflexivity.
  - pose proof (code_bound a). cbn [base64_encode str_forallb]. cbv zeta.
    repeat match goal with
           | |- context [Ascii.eqb (b64_char ?n) LF] =>
               rewrite (proj2 (proj2 (b64_char_spec n ltac:(div_lia))))
           end.
    reflexivity.
  - pose proof (code_bound a). pose proof (code_bound b).
    cbn [base64_encode str_forallb]. cbv zeta.
    repeat match goal with
           | |- context [Ascii.eqb (b64_char ?n) LF] =>
               rewrite (proj2 (proj2 (b64_char_spec n ltac:(div_lia))))
           end.
    reflexivity.
  - pose proof (code_bound a). pose proof (code_bound b). pose proof (code_bound c).
    cbn [base64_encode str_forallb]. cbv zeta.
    repeat match goal with
           | |- context [Ascii.eqb (b64_char ?n) LF] =>
               rewrite (proj2 (proj2 (b64_char_spec n ltac:(div_lia))))
           end.
    rewrite IH. reflexivity.
Qed.

(** ** The fuel of [JSON.parse] *)

Lemma skip_ws_length (s : string) : (String.length (skip_ws s) <= String.length s)%nat.
Proof.
  induction s as [|c s IH]; simpl; [lia|].
  destruct (is_ws c); simpl; lia.
Qed.

Lemma peek_length (c : ascii) (s r : string) :
  peek c s = Some r -> String.length s = S (String.length r).
Proof.
  destruct s as [|d s]; simpl; [discriminate|].
  destruct (Ascii.eqb d c); [|discriminate]. now intros [= ->].
Qed.

Lemma strip_prefix_length (p s r : string) :
  strip_prefix p s = Some r -> (String.length r <= String.length s)%nat.
Proof.
  revert s. induction p as [|a p IH]; intros [|b s]; simpl; try discriminate.
  - now intros [= <-].
  - now intros [= <-].
  - destruct (Ascii.eqb a b); [|discriminate]. intros H. apply IH in H. lia.
Qed.

Lemma span_length (p : ascii -> bool) (s a b : string) :
  span p s = (a, b) -> String.length s = (String.length a + String.length b)%nat.
Proof.
  revert a b. induction s as [|c s IH]; intros a b; simpl.
  - now intros [= <- <-].
  - destruct (p c).
    + destruct (span p s) as [a' b'] eqn:E. intros [= <- <-].
      simpl. now rewrite (IH a' b' eq_refl).
    + now intros [= <- <-].
Qed.

Lemma parse_fraction_length (s f r : string) :
  parse_fraction s = Some (f, r) -> (String.length r <= String.length s)%nat.
Proof.
  unfold parse_fraction. destruct (peek "." s) as [t|] eqn:E.
  - destruct (span is_digit t) as [a b] eqn:Es.
    destruct a; [discriminate|]. intros [= <- <-].
    apply peek_length in E. apply span_length in Es. simpl in Es. lia.
  - intros [= <- <-]. lia.
Qed.

Lemma parse_exponent_length (s : string) (e : Z) (r : string) :
  parse_exponent s = Some (e, r) -> (String.length r <= String.length s)%nat.
Proof.
  unfold parse_exponent.
  destruct (match peek "e" s with Some t => Some t | None => peek "E" s end) as [t|] eqn:E.
  - assert (String.length s = S (String.length t)) as Hs.
    { destruct (peek "e" s) eqn:E1; [injection E as ->; now apply (peek_length "e")|].
      now apply (peek_length "E"). }
    assert (forall (neg : bool) (r1 : string),
              (String.length r1 <= String.length t)%nat ->
              (let '(d, r2) := span is_digit r1 in
               match d with
               | EmptyString => None
               | _ => Some (if neg then - Z.of_nat (digits_value d 0)
                            else Z.of_nat (digits_value d 0), r2)
               end) = Some (e, r) ->
              (String.length r <= String.length s)%nat) as Hspan.
    { intros neg r1 Hr1. destruct (span is_digit r1) as [d r2] eqn:Es.
      destruct d; [discriminate|]. intros [= _ <-].
      apply span_length in Es. lia. }
    destruct (peek "+" t) as [u|] eqn:E1.
    + apply (Hspan false u). apply peek_length in E1. lia.
    + destruct (peek "-" t) as [u|] eqn:E2.
      * apply (Hspan true u). apply peek_length in E2. lia.
      * apply (Hspan false t). lia.
  - intros [= _ <-]. lia.
Qed.

Lemma parse_unsigned_length (neg : bool) (s : string) (x : number) (r : string) :
  parse_unsigned neg s = Some (x, r) -> (String.length r < String.length s)%nat.
Proof.
  unfold parse_unsigned. destruct (span is_digit s) as [i s2] eqn:Es.
  destruct i as [|c i]; [discriminate|].
  destruct (Ascii.eqb c "0" && negb (String.eqb i "")); [discriminate|].
  destruct (parse_fraction s2) as [[f s3]|] eqn:Ef; [|discriminate].
  destruct (parse_exponent s3) as [[e s4]|] eqn:Ee; [|discriminate].
  intros [= _ <-].
  apply span_length in Es. apply parse_fraction_length in Ef.
  apply parse_exponent_length in Ee. simpl in Es. lia.
Qed.

Lemma parse_number_length (s : string) (x : number) (r : string) :
  parse_number s = Some (x, r) -> (String.length r < String.length s)%nat.
Proof.
  unfold parse_number. destruct (peek "-" s) as [t|] eqn:E; intros H.
  - apply parse_unsigned_length in H. apply peek_length in E. lia.
  - now apply parse_unsigned_length in H.
Qed.

Lemma emit_rest (out : string) (k : option (string * string)) (x r : string) :
  emit out k = Some (x, r) -> exists y, k = Some (y, r).
Proof. destruct k as [[y t]|]; simpl; [|discriminate]. intros [= _ <-]. now exists y. Qed.

Lemma flush_rest (pend : option N) (k : option (string * string)) (x r : string) :
  flush pend k = Some (x, r) -> exists y, k = Some (y, r).
Proof.
  destruct pend, k as [[y t]|]; simpl; try discriminate; intros [= _ <-]; now exists y.
Qed.

Lemma scan_string_length (s : string) :
  forall st pend x r,
    scan_string st pend s = Some (x, r) -> (String.length r < String.length s)%nat.
Proof.
  induction s as [|c s IH]; intros st pend x r; [discriminate|].
  assert (Hrec : forall st' pend' y,
            scan_string st' pend' s = Some (y, r) -> (String.length r < S (String.length s))%nat)
    by (intros st' pend' y H; apply IH in H; lia).
  assert (Hemit : forall pend' out st' pend'' z,
            flush pend' (emit out (scan_string st' pend'' s)) = Some (z, r) ->
            (String.length r < S (String.length s))%nat).
  { intros pend' out st' pend'' z H.
    apply flush_rest in H as (y & H). apply emit_rest in H as (y' & H). eauto. }
  assert (Hemit' : forall out st' pend'' z,
            emit out (scan_string st' pend'' s) = Some (z, r) ->
            (String.length r < S (String.length s))%nat).
  { intros out st' pend'' z H. apply emit_rest in H as (y' & H). eauto. }
  cbn [scan_string String.length]. destruct st as [| |more acc].
  - destruct (Ascii.eqb c QUOTE).
    + intros H. apply flush_rest in H as (y & [= _ <-]). lia.
    + destruct (Ascii.eqb c BACKSLASH); [eauto|].
      destruct (code c <? 32)%N; [discriminate | eauto].
  - destruct (Ascii.eqb c "u"); [eauto|].
    repeat match goal with
           | |- context [if ?b then _ else _] => destruct b; [eauto|]
           end.
    discriminate.
  - destruct (hex_val c) as [h|]; [|discriminate].
    destruct more as [|[|m]]; try solve [eauto];
      destruct pend as [hi|];
      repeat match goal with
             | |- context [if ?b then _ else _] => destruct b
             end; eauto.
Qed.

Lemma parse_length (f : nat) :
  (forall s v r, parse_value f s = Some (v, r) -> (String.length r < String.length s)%nat)
  /\ (forall s l r, parse_elements f s = Some (l, r) -> (String.length r < String.length s)%nat)
  /\ (forall s l r, parse_members f s = Some (l, r) -> (String.length r < String.length s)%nat).
Proof.
  induction f as [|f (IHv & IHe & IHm)]; [repeat split; discriminate|].
  repeat split.
  - intros s v r. cbn [parse_value]. pose proof (skip_ws_length s) as Hs.
    destruct (skip_ws s) as [|c t]; [discriminate|]. simpl in Hs.
    repeat match goal with
           | |- context [if Ascii.eqb c ?x then _ else _] => destruct (Ascii.eqb c x)
           end.
    + destruct (strip_prefix "ull" t) as [u|] eqn:E; [|discriminate].
      intros [= _ <-]. apply strip_prefix_length in E. lia.
    + destruct (strip_prefix "rue" t) as [u|] eqn:E; [|discriminate].
      intros [= _ <-]. apply strip_prefix_length in E. lia.
    + destruct (strip_prefix "alse" t) as [u|] eqn:E; [|discriminate].
      intros [= _ <-]. apply strip_prefix_length in E. lia.
    + destruct (parse_string t) as [[x u]|] eqn:E; [|discriminate].
      intros [= _ <-]. apply scan_string_length in E. lia.
    + pose proof (skip_ws_length t) as Ht.
      destruct (peek "]" (skip_ws t)) as [u|] eqn:E.
      * intros [= _ <-]. apply peek_length in E. lia.
      * destruct (parse_elements f t) as [[l u]|] eqn:E'; [|discriminate].
        intros [= _ <-]. apply IHe in E'. lia.
    + pose proof (skip_ws_length t) as Ht.
      destruct (peek "}" (skip_ws t)) as [u|] eqn:E.
      * intros [= _ <-]. apply peek_length in E. lia.
      * destruct (parse_members f t) as [[l u]|] eqn:E'; [|discriminate].
        intros [= _ <-]. apply IHm in E'. lia.
    + destruct (parse_number (String c t)) as [[x u]|] eqn:E; [|discriminate].
      intros [= _ <-]. apply parse_number_length in E. simpl in E. lia.
  - intros s l r. rewrite parse_elements_unfold.
    destruct (parse_value f s) as [[v t]|] eqn:E; [|discriminate].
    apply IHv in E. pose proof (skip_ws_length t) as Ht.
    destruct (peek "]" (skip_ws t)) as [u|] eqn:E1.
    + intros [= _ <-]. apply peek_length in E1. lia.
    + destruct (peek "," (skip_ws t)) as [u|] eqn:E2; [|discriminate].
      destruct (parse_elements f u) as [[l' u']|] eqn:E3; [|discriminate].
      intros [= _ <-]. apply peek_length in E2. apply IHe in E3. lia.
  - intros s l r. rewrite parse_members_unfold.
    pose proof (skip_ws_length s) as Hs.
    destruct (peek QUOTE (skip_ws s)) as [t|] eqn:E0; [|discriminate].
    apply peek_length in E0.
    destruct (parse_string t) as [[k t1]|] eqn:E1; [|discriminate].
    apply scan_string_length in E1. pose proof (skip_ws_length t1) as Ht1.
    destruct (peek ":" (skip_ws t1)) as [t2|] eqn:E2; [|discriminate].
    apply peek_length in E2.
    destruct (parse_value f t2) as [[v t3]|] eqn:E3; [|discriminate].
    apply IHv in E3. pose proof (skip_ws_length t3) as Ht3.
    destruct (peek "}" (skip_ws t3)) as [u|] eqn:E4.
    + intros [= _ <-]. apply peek_length in E4. lia.
    + destruct (peek "," (skip_ws t3)) as [u|] eqn:E5; [|discriminate].
      destruct (parse_members f u) as [[l' u']|] eqn:E6; [|discriminate].
      intros [= _ <-]. apply peek_length in E5. apply IHm in E6. lia.
Qed.

Lemma parse_value_body (f : nat) (s : string) :
  parse_value (S f) s = value_body (parse_elements f) (parse_members f) s.
Proof. reflexivity. Qed.

Lemma parse_elements_body (f : nat) (s : string) :
  parse_elements (S f) s = elements_body (parse_value f) (parse_elements f) s.
Proof. reflexivity. Qed.

Lemma parse_members_body (f : nat) (s : string) :
  parse_members (S f) s = members_body (parse_value f) (parse_members f) s.
Proof. reflexivity. Qed.

Lemma value_body_extends pe pe' pm pm' (s : string) (x : value * string) :
  extends (String.length s) pe pe' -> extends (String.length s) pm pm' ->
  value_body pe pm s = Some x -> value_body pe' pm' s = Some x.
Proof.
  intros He Hm. unfold value_body. pose proof (skip_ws_length s) as Hs.
  destruct (skip_ws s) as [|c r]; [discriminate|]. simpl in Hs.
  repeat match goal with
         | |- context [if Ascii.eqb c ?y then _ else _] => destruct (Ascii.eqb c y)
         end; try exact (fun H => H).
  - destruct (peek "]" (skip_ws r)); [exact (fun H => H)|].
    destruct (pe r) as [[l t]|] eqn:E; [|discriminate].
    now rewrite (He r (l, t) ltac:(lia) E).
  - destruct (peek "}" (skip_ws r)); [exact (fun H => H)|].
    destruct (pm r) as [[l t]|] eqn:E; [|discriminate].
    now rewrite (Hm r (l, t) ltac:(lia) E).
Qed.

Lemma elements_body_extends pv pv' pe pe' (s : string) (x : list value * string) :
  consumes pv ->
  extends (S (String.length s)) pv pv' -> extends (String.length s - 1) pe pe' ->
  elements_body pv pe s = Some x -> elements_body pv' pe' s = Some x.
Proof.
  intros Hc Hv He. unfold elements_body.
  destruct (pv s) as [[v r]|] eqn:E; [|discriminate].
  rewrite (Hv s (v, r) ltac:(lia) E). apply Hc in E.
  pose proof (skip_ws_length r) as Hr.
  destruct (peek "]" (skip_ws r)); [exact (fun H => H)|].
  destruct (peek "," (skip_ws r)) as [t|] eqn:E1; [|discriminate].
  apply peek_length in E1.
  destruct (pe t) as [[l u]|] eqn:E2; [|discriminate].
  now rewrite (He t (l, u) ltac:(lia) E2).
Qed.

Lemma members_body_extends pv pv' pm pm' (s : string) (x : list (string * value) * string) :
  consumes pv ->
  extends (String.length s) pv pv' -> extends (String.length s - 1) pm pm' ->
  members_body pv pm s = Some x -> members_body pv' pm' s = Some x.
Proof.
  intros Hc Hv Hm. unfold members_body. pose proof (skip_ws_length s) as Hs.
  destruct (peek QUOTE (skip_ws s)) as [r|] eqn:E0; [|discriminate].
  apply peek_length in E0.
  destruct (parse_string r) as [[k r1]|] eqn:E1; [|discriminate].
  apply scan_string_length in E1. pose proof (skip_ws_length r1) as Hr1.
  destruct (peek ":" (skip_ws r1)) as [r2|] eqn:E2; [|discriminate].
  apply peek_length in E2.
  destruct (pv r2) as [[v r3]|] eqn:E3; [|discriminate].
  rewrite (Hv r2 (v, r3) ltac:(lia) E3). apply Hc in E3.
  pose proof (skip_ws_length r3) as Hr3.
  destruct (peek "}" (skip_ws r3)); [exact (fun H => H)|].
  destruct (peek "," (skip_ws r3)) as [t|] eqn:E4; [|discriminate].
  apply peek_length in E4.
  destruct (pm t) as [[l u]|] eqn:E5; [|discriminate].
  now rewrite (Hm t (l, u) ltac:(lia) E5).
Qed.

(** More fuel reads what less fuel read. *)
Lemma parse_fuel_monotone (f : nat) :
  (forall s x, parse_value f s = Some x -> parse_value (S f) s = Some x)
  /\ (forall s x, parse_elements f s = Some x -> parse_elements (S f) s = Some x)
  /\ (forall s x, parse_members f s = Some x -> parse_members (S f) s = Some x).
Proof.
  induction f as [|f (IHv & IHe & IHm)]; [repeat split; discriminate|].
  destruct (parse_length f) as (Hcv & _ & _).
  repeat split; intros s x.
  - rewrite !parse_value_body. apply value_body_extends; intros t y _; auto.
  - rewrite !parse_elements_body.
    apply elements_body_extends; [exact Hcv | |]; intros t y _; auto.
  - rewrite !parse_members_body.
    apply members_body_extends; [exact Hcv | |]; intros t y _; auto.
Qed.

(** Less fuel reads what more fuel reads, down to twice the length of the
    text. *)
Lemma parse_fuel_enough (f : nat) :
  (forall s x, (2 * String.length s + 1 <= f)%nat ->
     parse_value (S f) s = Some x -> parse_value f s = Some x)
  /\ (forall s x, (2 * String.length s + 2 <= f)%nat ->
        parse_elements (S f) s = Some x -> parse_elements f s = Some x)
  /\ (forall s x, (2 * String.length s + 2 <= f)%nat ->
        parse_members (S f) s = Some x -> parse_members f s = Some x).
Proof.
  induction f as [|f (IHv & IHe & IHm)]; [repeat split; intros; lia|].
  destruct (parse_length (S f)) as (Hcv & _ & _).
  repeat split; intros s x Hf.
  - rewrite !parse_value_body. apply value_body_extends; intros t y Ht.
    + apply IHe. lia.
    + apply IHm. lia.
  - rewrite !parse_elements_body.
    apply elements_body_extends; [exact Hcv | |]; intros t y Ht.
    + apply IHv. lia.
    + apply IHe. lia.
  - rewrite !parse_members_body.
    apply members_body_extends; [exact Hcv | |]; intros t y Ht.
    + apply IHv. lia.
    + apply IHm. lia.
Qed.

(** The fuel of [JSON_parse] never runs out: a value that some fuel reads
    from a text is read with the fuel that [JSON_parse] takes. *)
Theorem JSON_parse_fuel (s : string) (f : nat) (x : value * string) :
  parse_value f s = Some x -> parse_value (2 * String.length s + 2) s = Some x.
Proof.
  intros H. destruct (Nat.le_gt_cases f (2 * String.length s + 2)) as [Hle|Hgt].
  - induction Hle as [|m Hle IH]; [exact H|].
    now apply (proj1 (parse_fuel_monotone m)).
  - assert (exists d, f = (d + (2 * String.length s + 2))%nat) as (d & ->)
      by (exists (f - (2 * String.length s + 2))%nat; lia).
    clear Hgt. induction d as [|d IH]; [exact H|].
    apply IH. apply (proj1 (parse_fuel_enough _)); [lia | exact H].
Qed.

(** * The repository client *)

(** ** URLs *)

Lemma encodeURIComponent_no_query (s : string) :
  str_forallb not_query (encodeURIComponent s) = true.
Proof.
  induction s as [|c s IH]; [reflexivity|].
  cbn [encodeURIComponent].
  assert (str_forallb not_query
            (if uri_unreserved c then String c ""
             else String "%" (String (hex_upper (code c / 16))
                                (String (hex_upper (code c mod 16)) ""))) = true) as H
    by (destruct c as [[] [] [] [] [] [] [] []]; reflexivity).
  destruct (uri_unreserved c); cbn [str_forallb] in *;
    repeat match goal with
           | H : _ && _ = true |- _ => apply andb_true_iff in H as [? H]
           end;
    repeat (apply andb_true_iff; split); assumption.
Qed.

Lemma join_forallb (p : ascii -> bool) (sep : string) (l : list string) :
  str_forallb p sep = true -> Forall (fun s => str_forallb p s = true) l ->
  str_forallb p (join sep l) = true.
Proof.
  intros Hsep H. induction H as [|x l Hx Hl IH]; [reflexivity|].
  destruct l as [|y l]; [exact Hx|].
  change (join sep (x :: y :: l)) with (x +:+ sep +:+ join sep (y :: l)).
  now rewrite !str_forallb_app, Hx, Hsep, IH.
Qed.

Lemma encodeGitHubPath_no_query (p : string) :
  str_forallb not_query (encodeGitHubPath p) = true.
Proof.
  unfold encodeGitHubPath. apply join_forallb; [reflexivity|].
  apply Forall_map, Forall_forall. intros x _. apply encodeURIComponent_no_query.
Qed.

Lemma contents_url_no_query (cfg : config) (path : string) :
  str_forallb not_query (contents_url cfg path) = true.
Proof.
  unfold contents_url.
  rewrite !str_forallb_app, !encodeURIComponent_no_query, encodeGitHubPath_no_query.
  reflexivity.
Qed.

Lemma resource_app (s t : string) :
  str_forallb not_query s = true -> resource (s +:+ String "?" t) = s.
Proof.
  induction s as [|c s IH]; intros H; [reflexivity|].
  cbn [str_forallb] in H. apply andb_true_iff in H as [Hc H].
  unfold not_query in Hc. apply negb_true_iff in Hc.
  cbn [append resource]. rewrite Hc. now rewrite IH.
Qed.

Lemma resource_id (s : string) : str_forallb not_query s = true -> resource s = s.
Proof.
  induction s as [|c s IH]; intros H; [reflexivity|].
  cbn [str_forallb] in H. apply andb_true_iff in H as [Hc H].
  unfold not_query in Hc. apply negb_true_iff in Hc.
  cbn [resource]. rewrite Hc. now rewrite IH.
Qed.

Lemma resource_get_url (cfg : config) (path : string) :
  resource (get_url cfg path) = contents_url cfg path.
Proof. apply (resource_app _ ("ref=" +:+ _)), contents_url_no_query. Qed.

Lemma resource_contents_url (cfg : config) (path : string) :
  resource (contents_url cfg path) = contents_url cfg path.
Proof. apply resource_id, contents_url_no_query. Qed.

Lemma split_on_nonempty (c : ascii) (s : string) : split_on c s <> [].
Proof.
  induction s as [|d s IH]; simpl; [discriminate|].
  destruct (Ascii.eqb d c); [discriminate|].
  destruct (split_on c s); [contradiction | discriminate].
Qed.

Lemma encodeGitHubPath_plain (p : string) :
  str_forallb path_char p = true -> encodeGitHubPath p = p.
Proof.
  unfold encodeGitHubPath.
  induction p as [|d p IH]; intros H; [reflexivity|].
  cbn [str_forallb] in H. apply andb_true_iff in H as [Hd H]. specialize (IH H).
  cbn [split_on]. pose proof (split_on_nonempty "/" p) as Hne.
  destruct (split_on "/" p) as [|h t]; [contradiction|].
  destruct (Ascii.eqb_spec d "/") as [->|Hd'].
  - change (join "/" (map encodeURIComponent ("" :: h :: t)))
      with ("" +:+ "/" +:+ join "/" (map encodeURIComponent (h :: t))).
    now rewrite IH.
  - unfold path_char in Hd. apply orb_true_iff in Hd as [Hd|Hd].
    + cbn [map encodeURIComponent]. rewrite Hd.
      rewrite <- IH. cbn [map]. destruct (map encodeURIComponent t); reflexivity.
    + apply Ascii.eqb_eq in Hd. contradiction.
Qed.

Lemma id_char_path_char (c : ascii) : id_char c = true -> path_char c = true.
Proof. destruct c as [[] [] [] [] [] [] [] []]; try discriminate; reflexivity. Qed.

Lemma safeDashId_pattern (q : option qparam) (id : string) :
  safeDashId q = Some id -> id_pattern id = true.
Proof.
  unfold safeDashId. destruct (String.eqb _ ""); [discriminate|].
  destruct (id_pattern _) eqn:E; [|discriminate].
  simpl. now intros [= <-].
Qed.

Lemma dashboard_path_plain (id : string) :
  id_pattern id = true -> encodeGitHubPath (dashboard_path id) = dashboard_path id.
Proof.
  intros H. apply encodeGitHubPath_plain. unfold dashboard_path.
  rewrite !str_forallb_app.
  unfold id_pattern in H. apply andb_true_iff in H as [H _].
  apply andb_true_iff in H as [H _].
  assert (str_forallb path_char id = true) as ->.
  { clear - H. induction id as [|c s IH]; [reflexivity|].
    cbn [str_forallb] in *. apply andb_true_iff in H as [Hc H].
    now rewrite (id_char_path_char c Hc), IH. }
  reflexivity.
Qed.

(** The document of a dashboard and the manifest are different files. *)
Lemma document_not_manifest (cfg : config) (id : string) :
  id_pattern id = true ->
  contents_url cfg (dashboard_path id) <> contents_url cfg MANIFEST_PATH.
Proof.
  intros H E. unfold contents_url in E.
  rewrite dashboard_path_plain in E by exact H.
  repeat apply String.app_inj in E.
  discriminate E.
Qed.

(** ** Exchanges with the host *)

Lemma fault_at_exchanged (k : nat) (w : world) rq rs fs n :
  fault_at k (exchanged w rq rs fs n) = fault_at (S k) w.
Proof. unfold fault_at. simpl. destruct (faults w); destruct k; reflexivity. Qed.

Lemma honest_exchanged (w : world) rq rs fs n :
  honest w -> honest (exchanged w rq rs fs n).
Proof.
  unfold honest. simpl. intros H. destruct (faults w); [constructor|].
  inversion H; subst. assumption.
Qed.

Lemma honest_fault (w : world) (r : response) :
  honest w -> fault_at 0 w = Some r -> ok r = false.
Proof.
  unfold honest, fault_at. destruct (faults w) as [|f fs]; simpl; [discriminate|].
  intros H ->. now inversion H.
Qed.

Lemma fetch_fault (rq : request) (w : world) (r : response) :
  fault_at 0 w = Some r ->
  fetch rq w = (Ret r, exchanged w rq r (files w) (serial w)).
Proof.
  unfold fault_at, fetch, exchanged. destruct (faults w) as [|f fs]; simpl; [discriminate|].
  now intros ->.
Qed.

Lemma fetch_answer (rq : request) (w : world) :
  fault_at 0 w = None ->
  fetch rq w =
  (Ret (fst (github rq w)),
   exchanged w rq (fst (github rq w)) (files (snd (github rq w))) (serial (snd (github rq w)))).
Proof.
  unfold fault_at, fetch, exchanged. intros H.
  assert (match faults w with f :: _ => f | [] => None end = None) as ->
    by (destruct (faults w); [reflexivity | exact H]).
  now destruct (github rq w).
Qed.

Lemma remove_newlines_wrap (s : string) :
  str_forallb (fun c => negb (Ascii.eqb c LF)) s = true ->
  forall col, remove_newlines (wrap_lines col s) = s.
Proof.
  unfold remove_newlines.
  induction s as [|c s IH]; intros H col.
  - destruct col; reflexivity.
  - cbn [str_forallb] in H. apply andb_true_iff in H as [Hc H].
    cbn [wrap_lines]. destruct (60 <=? col)%nat; cbn [str_filter].
    + change (negb (Ascii.eqb LF LF)) with false. cbv iota.
      rewrite Hc. now rewrite IH.
    + rewrite Hc. now rewrite IH.
Qed.

Lemma js_String_content (s : string) :
  js_String (or_else (Some (VStr s)) (VStr "")) = Ret s.
Proof.
  unfold or_else. simpl. destruct (String.eqb_spec s ""); simpl; [now subst | reflexivity].
Qed.

(** A failure of the host on a read. *)
Lemma ghGetFile_fault (cfg : config) (path : string) (w : world) (r : response) :
  fault_at 0 w = Some r -> ok r = false ->
  ghGetFile cfg path w =
  (Ret (if status r =? 404 then GetMissing (get_url cfg path)
        else GetError (error_of "github_get" (get_url cfg path) r)),
   exchanged w (get_request cfg path) r (files w) (serial w)).
Proof.
  intros Hf Hok. unfold ghGetFile, bind.
  fold (get_url cfg path). fold (get_request cfg path).
  rewrite (fetch_fault _ _ _ Hf).
  destruct (status r =? 404); [reflexivity|]. now rewrite Hok.
Qed.

Lemma file_json_content (f : file) :
  get_prop (file_json f) "content"
  = Ret (Some (VStr (wrap_lines 0 (base64_encode (f_content f))))).
Proof. reflexivity. Qed.

Lemma file_json_sha (f : file) : get_prop (file_json f) "sha" = Ret (Some (VStr (f_sha f))).
Proof. reflexivity. Qed.

(** The answer of the host to a read. *)
Lemma ghGetFile_answer (cfg : config) (path : string) (w : world) :
  fault_at 0 w = None ->
  ghGetFile cfg path w =
  match files w !! contents_url cfg path with
  | Some f =>
      (Ret (GetFound (Some (VStr (f_sha f))) (base64_encode (f_content f)) (get_url cfg path)),
       exchanged w (get_request cfg path) (answer 200 "OK" (file_json f)) (files w) (serial w))
  | None =>
      (Ret (GetMissing (get_url cfg path)),
       exchanged w (get_request cfg path) (problem 404 "Not Found") (files w) (serial w))
  end.
Proof.
  intros Hf. unfold ghGetFile, bind.
  fold (get_url cfg path). fold (get_request cfg path).
  rewrite (fetch_answer _ _ Hf).
  unfold github. cbn [rq_method get_request rq_url].
  rewrite resource_get_url.
  destruct (files w !! contents_url cfg path) as [f|]; cbn [fst snd]; [|reflexivity].
  change (status (answer 200 "OK" (file_json f)) =? 404) with false.
  change (ok (answer 200 "OK" (file_json f))) with true.
  cbv iota. cbn [negb]. cbv iota.
  unfold lift, JSON_parse_or_throw. cbn [raw answer].
  rewrite JSON_parse_stringify by reflexivity.
  rewrite file_json_content, file_json_sha, js_String_content.
  rewrite remove_newlines_wrap by apply base64_encode_no_newline.
  reflexivity.
Qed.

Lemma put_body_content cfg message contentStr sha :
  body_field (Some (put_body cfg message contentStr sha)) "content"
  = Some (VStr (toBase64 contentStr)).
Proof. reflexivity. Qed.

Lemma put_body_sha cfg message contentStr sha :
  body_field (Some (put_body cfg message contentStr sha)) "sha"
  = if truthy_opt sha then sha else None.
Proof. unfold put_body. destruct (truthy_opt sha); [destruct sha|]; reflexivity. Qed.

Lemma commit_json_content (w : world) (c : value) :
  get_prop (commit_json w c) "content" = Ret (Some c).
Proof. reflexivity. Qed.

Lemma commit_json_commit (w : world) (c : value) :
  get_prop (commit_json w c) "commit"
  = Ret (Some (VObj [("html_url", VStr (commit_url (serial w)))])).
Proof. reflexivity. Qed.

Lemma ghPutFile_fault cfg path message contentStr sha (w : world) (r : response) :
  fault_at 0 w = Some r -> ok r = false ->
  ghPutFile cfg path message contentStr sha w =
  (Ret (PutError (error_of "github_put" (contents_url cfg path) r)),
   exchanged w (put_request cfg path message contentStr sha) r (files w) (serial w)).
Proof.
  intros Hf Hok. unfold ghPutFile, bind.
  fold (put_body cfg message contentStr sha).
  fold (put_request cfg path message contentStr sha).
  rewrite (fetch_fault _ _ _ Hf). now rewrite Hok.
Qed.

Lemma ghPutFile_unfold cfg path message contentStr sha :
  ghPutFile cfg path message contentStr sha =
  (let* r := fetch (put_request cfg path message contentStr sha) in
   put_outcome (contents_url cfg path) r).
Proof. reflexivity. Qed.

Lemma put_outcome_accepted (url : string) (code : Z) (text : string) (w w' : world) :
  ok (answer code text (commit_json w (VObj [("sha", VStr (blob_sha (serial w)))]))) = true ->
  put_outcome url (answer code text (commit_json w (VObj [("sha", VStr (blob_sha (serial w)))]))) w'
  = (Ret (PutOk (VStr (blob_sha (serial w))) (VStr (commit_url (serial w))) url), w').
Proof.
  intros H. unfold put_outcome. rewrite H. cbn [negb].
  unfold bind, lift, JSON_parse_or_throw. cbn [raw answer].
  rewrite JSON_parse_stringify by reflexivity.
  rewrite commit_json_content, commit_json_commit. reflexivity.
Qed.

Lemma put_outcome_refused (url : string) (r : response) (w' : world) :
  ok r = false -> put_outcome url r w' = (Ret (PutError (error_of "github_put" url r)), w').
Proof. intros H. unfold put_outcome. now rewrite H. Qed.

(** What a write comes to: the host refuses it and nothing changes, or it
    takes it and the file holds the new content. *)
Lemma ghPutFile_cases cfg path message contentStr sha (w : world) :
  honest w ->
  (exists rs, ok rs = false /\
     ghPutFile cfg path message contentStr sha w =
     (Ret (PutError (error_of "github_put" (contents_url cfg path) rs)),
      exchanged w (put_request cfg path message contentStr sha) rs (files w) (serial w)))
  \/
  (exists rs, ok rs = true /\
     ghPutFile cfg path message contentStr sha w =
     (Ret (PutOk (VStr (blob_sha (serial w))) (VStr (commit_url (serial w)))
             (contents_url cfg path)),
      exchanged w (put_request cfg path message contentStr sha) rs
        (<[contents_url cfg path := written w contentStr]> (files w)) (S (serial w)))).
Proof.
  intros Hh. destruct (fault_at 0 w) as [r|] eqn:Hf.
  - left. exists r. split; [now apply (honest_fault w)|].
    apply ghPutFile_fault; [assumption | now apply (honest_fault w)].
  - rewrite ghPutFile_unfold. unfold bind.
    rewrite (fetch_answer _ _ Hf).
    unfold github. cbn [rq_method put_request rq_url rq_body].
    rewrite resource_contents_url, put_body_content, put_body_sha.
    fold (put_request cfg path message contentStr sha).
    set (reply := commit_json w (VObj [("sha", VStr (blob_sha (serial w)))])).
    destruct (files w !! contents_url cfg path) as [f|];
      destruct (if truthy_opt sha then sha else None) as [[| | |given| |]|];
      try (left; eexists; split; [|cbn [fst snd]; rewrite put_outcome_refused by reflexivity;
                                   reflexivity]; reflexivity).
    + destruct (String.eqb given (f_sha f)).
      * right. exists (answer 200 "OK" reply). split; [reflexivity|]. cbn [fst snd].
        unfold reply. rewrite put_outcome_accepted by reflexivity.
        unfold written, toBase64. now rewrite base64_decode_encode.
      * left. eexists; split; [|cbn [fst snd]; rewrite put_outcome_refused by reflexivity;
                                 reflexivity]; reflexivity.
    + right. exists (answer 201 "Created" reply). split; [reflexivity|]. cbn [fst snd].
      unfold reply. rewrite put_outcome_accepted by reflexivity.
      unfold written, toBase64. now rewrite base64_decode_encode.
Qed.

Lemma delete_request_sha cfg path stamp sha :
  body_field (rq_body (delete_request cfg path stamp sha)) "sha" = sha.
Proof. destruct sha; reflexivity. Qed.

Lemma ghDeleteFile_fault cfg path sha (w : world) (r : response) :
  fault_at 0 w = Some r -> ok r = false ->
  ghDeleteFile cfg path sha w =
  (Ret (DeleteError (error_of "github_delete" (contents_url cfg path) r)),
   exchanged w (delete_request cfg path (now w) sha) r (files w) (serial w)).
Proof.
  intros Hf Hok. unfold ghDeleteFile, bind, Date_toISOString.
  fold (delete_request cfg path (now w) sha).
  rewrite (fetch_fault _ _ _ Hf). now rewrite Hok.
Qed.

(** The host takes the delete of a file whose hash is the one given. *)
Lemma ghDeleteFile_answer cfg path (f : file) (w : world) :
  fault_at 0 w = None -> files w !! contents_url cfg path = Some f ->
  ghDeleteFile cfg path (Some (VStr (f_sha f))) w =
  (Ret (DeleteOk (VStr (commit_url (serial w))) (contents_url cfg path)),
   exchanged w (delete_request cfg path (now w) (Some (VStr (f_sha f))))
     (answer 200 "OK" (commit_json w VNull))
     (delete (contents_url cfg path) (files w)) (S (serial w))).
Proof.
  intros Hf Hfile. unfold ghDeleteFile, bind, Date_toISOString.
  fold (delete_request cfg path (now w) (Some (VStr (f_sha f)))).
  rewrite (fetch_answer _ _ Hf).
  unfold github. rewrite delete_request_sha. cbn [rq_method delete_request rq_url].
  rewrite resource_contents_url, Hfile.
  rewrite String.eqb_refl. cbn [fst snd].
  change (ok (answer 200 "OK" (commit_json w VNull))) with true. cbn [negb].
  change (String.eqb (raw (answer 200 "OK" (commit_json w VNull))) "") with false.
  cbv iota. cbn [raw answer].
  rewrite JSON_parse_stringify by reflexivity.
  unfold lift. rewrite commit_json_commit. reflexivity.
Qed.

Lemma loadManifest_fault cfg (w : world) (r : response) :
  fault_at 0 w = Some r -> ok r = false ->
  loadManifest cfg w =
  (Ret (if status r =? 404 then Manifest false (Some VNull) []
        else ManifestError (error_of "github_get" (get_url cfg MANIFEST_PATH) r)),
   exchanged w (get_request cfg MANIFEST_PATH) r (files w) (serial w)).
Proof.
  intros Hf Hok. unfold loadManifest, bind.
  rewrite (ghGetFile_fault _ _ _ _ Hf Hok).
  now destruct (status r =? 404).
Qed.

Lemma loadManifest_answer cfg (w : world) :
  fault_at 0 w = None ->
  loadManifest cfg w =
  match files w !! contents_url cfg MANIFEST_PATH with
  | Some f =>
      (Ret (Manifest true (Some (VStr (f_sha f))) (manifest_entries (f_content f))),
       exchanged w (get_request cfg MANIFEST_PATH) (answer 200 "OK" (file_json f))
         (files w) (serial w))
  | None =>
      (Ret (Manifest false (Some VNull) []),
       exchanged w (get_request cfg MANIFEST_PATH) (problem 404 "Not Found")
         (files w) (serial w))
  end.
Proof.
  intros Hf. unfold loadManifest, bind.
  rewrite (ghGetFile_answer _ _ _ Hf).
  destruct (files w !! contents_url cfg MANIFEST_PATH) as [f|]; [|reflexivity].
  rewrite fromBase64_toBase64 || (unfold fromBase64; rewrite base64_decode_encode).
  unfold manifest_entries.
  destruct (JSON_parse (f_content f)) as [[| | | |l|]|]; reflexivity.
Qed.

(** Loading the manifest never throws and leaves the files as they are. *)
Lemma loadManifest_cases cfg (w : world) :
  honest w ->
  exists res rs,
    loadManifest cfg w =
    (Ret res, exchanged w (get_request cfg MANIFEST_PATH) rs (files w) (serial w))
    /\ match res with
       | ManifestError _ => ok rs = false /\ status rs <> 404
       | Manifest _ _ _ => ok rs = true \/ status rs = 404
       end.
Proof.
  intros Hh. destruct (fault_at 0 w) as [r|] eqn:Hf.
  - pose proof (honest_fault w r Hh Hf) as Hok.
    rewrite (loadManifest_fault _ _ _ Hf Hok).
    destruct (Z.eqb_spec (status r) 404); cbv iota;
      do 2 eexists; (split; [reflexivity|]); cbv iota; auto.
  - rewrite (loadManifest_answer _ _ Hf).
    destruct (files w !! contents_url cfg MANIFEST_PATH) as [f|];
      do 2 eexists; (split; [reflexivity|]); [left|right]; reflexivity.
Qed.

Lemma saveManifest_unfold cfg sha list (w : world) :
  saveManifest cfg sha list w =
  ghPutFile cfg MANIFEST_PATH ("Update manifest (" +:+ now w +:+ ")")
    (JSON_stringify (VArr list) 2) sha w.
Proof. reflexivity. Qed.

(** * The handler *)

Lemma handler_dispatch (env : environment) (req : http_request) (w : world) :
  configured env -> String.eqb (method req) "OPTIONS" = false ->
  handler env req w = finish (dispatch (config_of env) req w).
Proof.
  intros [Hm Hr] Ho. unfold handler. rewrite Ho, Hm, Hr. reflexivity.
Qed.

Lemma handler_get env req w :
  configured env -> method req = "GET" -> qparam_truthy (query_list req) = false ->
  handler env req w = finish (handle_get (config_of env) (query_dash req) w).
Proof.
  intros Hc Hm Hl. rewrite handler_dispatch by (assumption || now rewrite Hm).
  unfold dispatch. now rewrite Hm, Hl.
Qed.

Lemma handler_list env req w :
  configured env -> method req = "GET" -> qparam_truthy (query_list req) = true ->
  handler env req w = finish (handle_list (config_of env) w).
Proof.
  intros Hc Hm Hl. rewrite handler_dispatch by (assumption || now rewrite Hm).
  unfold dispatch. now rewrite Hm, Hl.
Qed.

Lemma handler_post env req w :
  configured env -> method req = "POST" ->
  handler env req w = finish (handle_post (config_of env) (query_dash req) (body req) w).
Proof.
  intros Hc Hm. rewrite handler_dispatch by (assumption || now rewrite Hm).
  unfold dispatch. now rewrite Hm.
Qed.

Lemma handler_delete env req w :
  configured env -> method req = "DELETE" ->
  handler env req w = finish (handle_delete (config_of env) (query_dash req) w).
Proof.
  intros Hc Hm. rewrite handler_dispatch by (assumption || now rewrite Hm).
  unfold dispatch. now rewrite Hm.
Qed.

(** ** Reading a file *)

Lemma fetch_log (rq : request) (w : world) :
  exists rs w', fetch rq w = (Ret rs, w') /\ log w' = (rq, rs) :: log w.
Proof.
  unfold fetch.
  destruct (match faults w with f :: _ => f | [] => None end) as [r|].
  - do 2 eexists. split; reflexivity.
  - destruct (github rq w) as [rs w1]. do 2 eexists. split; reflexivity.
Qed.

(** C8. [ghGetFile] makes one call and no more; an answer 404 is the
    result [exists: false], not an error, and any other answer outside 2xx
    is the result [error] with the stage [github_get], the status, the
    status text, the URL and the raw body of the answer. *)
Theorem ghGetFile_outcomes (cfg : config) (path : string) (w : world) :
  let url := contents_url cfg path +:+ "?ref=" +:+ encodeURIComponent (branch cfg) in
  exists rq rs,
    rq_method rq = GET /\ rq_url rq = url
    /\ log (snd (ghGetFile cfg path w)) = (rq, rs) :: log w
    /\ (status rs = 404 -> fst (ghGetFile cfg path w) = Ret (GetMissing url))
    /\ (status rs <> 404 -> ok rs = false ->
        fst (ghGetFile cfg path w) =
        Ret (GetError {| stage := "github_get"; e_status := status rs;
                         e_statusText := statusText rs; e_url := url;
                         e_raw := raw rs |})).
Proof.
  intros url. unfold ghGetFile, bind. fold url.
  match goal with |- context [fetch ?rq w] => set (q := rq) end.
  destruct (fetch_log q w) as (rs & w' & -> & Hlog).
  exists q, rs. split; [reflexivity|]. split; [reflexivity|].
  destruct (Z.eqb_spec (status rs) 404) as [E|E].
  - repeat split; [exact Hlog | congruence].
  - destruct (ok rs) eqn:Hok; cbn [negb].
    + split; [|split; [congruence|discriminate]].
      unfold lift.
      destruct (JSON_parse_or_throw (raw rs)) as [data|e]; [|exact Hlog].
      destruct (get_prop data "content") as [content|e]; [|exact Hlog].
      destruct (js_String (or_else content (VStr ""))) as [text|e]; [|exact Hlog].
      destruct (get_prop data "sha") as [sha|e]; exact Hlog.
    + repeat split; [exact Hlog | congruence].
Qed.

(** ** Deleting a dashboard *)

(** C7. Deleting an id whose document does not exist succeeds with
    [{ok: true, deleted: false}] and status 200; the one call made is the
    read of the document, so nothing is deleted and no manifest is
    written. *)
Theorem delete_missing_document (env : environment) (req : http_request)
    (w : world) (id : string) :
  configured env -> method req = "DELETE" ->
  safeDashId (query_dash req) = Some id ->
  fault_at 0 w = None -> files w !! document_url env id = None ->
  exists rq rs,
    handler env req w =
    (json 200 [("ok", VBool true); ("deleted", VBool false)],
     exchanged w rq rs (files w) (serial w))
    /\ rq_method rq = GET.
Proof.
  intros Hc Hm Hid Hf Hfile.
  rewrite handler_delete by assumption.
  unfold handle_delete, bind. rewrite Hid.
  rewrite (ghGetFile_answer _ _ _ Hf).
  unfold document_url in Hfile. rewrite Hfile.
  do 2 eexists. split; reflexivity.
Qed.

(** The run of a delete whose read and delete the host answers. *)
Lemma delete_existing_run (env : environment) (req : http_request)
    (w : world) (id : string) (f : file) :
  configured env -> method req = "DELETE" ->
  safeDashId (query_dash req) = Some id -> honest w ->
  files w !! document_url env id = Some f ->
  fault_at 0 w = None -> fault_at 1 w = None ->
  exists w',
    handler env req w =
    (json 200 [("ok", VBool true); ("commitUrl", VStr (commit_url (serial w)))], w')
    /\ files w' !! document_url env id = None.
Proof.
  intros Hc Hm Hid Hh Hfile Hf0 Hf1.
  pose proof (safeDashId_pattern _ _ Hid) as Hpat.
  rewrite handler_delete by assumption.
  unfold handle_delete, bind. rewrite Hid.
  rewrite (ghGetFile_answer _ _ _ Hf0).
  unfold document_url in *. rewrite Hfile.
  set (w1 := exchanged w _ _ _ _).
  assert (Hf1' : fault_at 0 w1 = None) by (unfold w1; now rewrite fault_at_exchanged).
  assert (Hfile1 : files w1 !! contents_url (config_of env) (dashboard_path id) = Some f)
    by exact Hfile.
  rewrite (ghDeleteFile_answer _ _ f w1 Hf1' Hfile1).
  set (w2 := exchanged w1 _ _ _ _).
  assert (Hh2 : honest w2) by (unfold w2, w1; now do 2 apply honest_exchanged).
  assert (Hgone : files w2 !! contents_url (config_of env) (dashboard_path id) = None)
    by (unfold w2; cbn [files exchanged]; apply lookup_delete_eq).
  destruct (loadManifest_cases (config_of env) w2 Hh2) as (res & rs & -> & _).
  set (w3 := exchanged w2 _ _ _ _).
  assert (Hh3 : honest w3) by (unfold w3; now apply honest_exchanged).
  destruct res as [e|ex sha list].
  - eexists. split; [reflexivity|]. exact Hgone.
  - rewrite saveManifest_unfold.
    destruct (ghPutFile_cases (config_of env) MANIFEST_PATH
                ("Update manifest (" +:+ now w3 +:+ ")")
                (JSON_stringify (VArr (without_id list id)) 2)
                (manifest_sha ex sha) w3 Hh3)
      as [(r & _ & ->)|(r & _ & ->)];
      (eexists; split; [reflexivity|]); cbn [files exchanged].
    + exact Hgone.
    + rewrite lookup_insert_ne; [exact Hgone|].
      intros E. symmetry in E. now apply (document_not_manifest _ _ Hpat) in E.
Qed.

(** ** Reading a dashboard *)

(** C10. A document whose stored content is not valid JSON makes the read
    answer 500, through the catch-all of the handler: the corruption is not
    tolerated as it is for the manifest. *)
Theorem get_corrupt_document (env : environment) (req : http_request)
    (w : world) (id : string) (f : file) :
  configured env -> method req = "GET" -> qparam_truthy (query_list req) = false ->
  safeDashId (query_dash req) = Some id ->
  fault_at 0 w = None -> files w !! document_url env id = Some f ->
  JSON_parse (f_content f) = None ->
  let res := fst (handler env req w) in
  status_code res = 500
  /\ body_field (payload res) "error" = Some (VStr "Unhandled")
  /\ body_field (payload res) "state" = None.
Proof.
  intros Hc Hm Hl Hid Hf Hfile Hbad.
  rewrite handler_get by assumption.
  unfold handle_get, bind. rewrite Hid.
  rewrite (ghGetFile_answer _ _ _ Hf).
  unfold document_url in Hfile. rewrite Hfile.
  unfold lift, JSON_parse_or_throw, fromBase64.
  rewrite base64_decode_encode, Hbad.
  repeat split.
Qed.

(** ** The manifest *)

Lemma put_outcome_world (url : string) (r : response) (w : world) :
  snd (put_outcome url r w) = w.
Proof.
  unfold put_outcome, bind, lift. destruct (negb (ok r)); [reflexivity|].
  destruct (JSON_parse_or_throw (raw r)) as [data|e]; [|reflexivity].
  destruct (get_prop data "content") as [content|e]; [|reflexivity].
  destruct (get_prop data "commit") as [commit|e]; reflexivity.
Qed.

Lemma ghPutFile_log cfg path message contentStr sha (w : world) :
  exists rs,
    log (snd (ghPutFile cfg path message contentStr sha w))
    = (put_request cfg path message contentStr sha, rs) :: log w.
Proof.
  rewrite ghPutFile_unfold. unfold bind.
  destruct (fetch_log (put_request cfg path message contentStr sha) w) as (rs & w' & -> & Hlog).
  exists rs. pose proof (put_outcome_world (contents_url cfg path) rs w') as E.
  destruct (put_outcome (contents_url cfg path) rs w') as [[res|e] w'']; simpl in *; now subst.
Qed.

(** C5. A manifest file whose content is not a JSON array (it does not
    parse, or parses to something else) loads as the empty list of entries
    together with the hash of the file; the listing answers 200 with no
    dashboard, and a save that follows sends that hash with its write. *)
Theorem load_corrupt_manifest (env : environment) (req : http_request)
    (w : world) (f : file) :
  configured env -> method req = "GET" -> qparam_truthy (query_list req) = true ->
  fault_at 0 w = None -> files w !! manifest_url env = Some f ->
  (forall l, JSON_parse (f_content f) <> Some (VArr l)) -> f_sha f <> "" ->
  fst (loadManifest (config_of env) w) = Ret (Manifest true (Some (VStr (f_sha f))) [])
  /\ handler env req w
     = (json 200 [("dashboards", VArr [])],
        exchanged w (get_request (config_of env) MANIFEST_PATH)
          (answer 200 "OK" (file_json f)) (files w) (serial w))
  /\ forall list w2,
       exists rq rs,
         log (snd (saveManifest (config_of env)
                     (manifest_sha true (Some (VStr (f_sha f)))) list w2))
         = (rq, rs) :: log w2
         /\ rq_method rq = PUT /\ rq_url rq = manifest_url env
         /\ body_field (rq_body rq) "sha" = Some (VStr (f_sha f)).
Proof.
  intros Hc Hm Hl Hf Hfile Hbad Hsha.
  assert (Hload : loadManifest (config_of env) w =
    (Ret (Manifest true (Some (VStr (f_sha f))) []),
     exchanged w (get_request (config_of env) MANIFEST_PATH)
       (answer 200 "OK" (file_json f)) (files w) (serial w))).
  { rewrite (loadManifest_answer _ _ Hf). unfold manifest_url in Hfile. rewrite Hfile.
    unfold manifest_entries.
    destruct (JSON_parse (f_content f)) as [[| | | |l|]|] eqn:E; try reflexivity.
    now destruct (Hbad l). }
  split; [now rewrite Hload|]. split.
  - rewrite handler_list by assumption. unfold handle_list, bind. now rewrite Hload.
  - intros list w2. rewrite saveManifest_unfold.
    destruct (ghPutFile_log (config_of env) MANIFEST_PATH
                ("Update manifest (" +:+ now w2 +:+ ")")
                (JSON_stringify (VArr list) 2)
                (manifest_sha true (Some (VStr (f_sha f)))) w2) as (rs & ->).
    do 2 eexists. split; [reflexivity|]. split; [reflexivity|]. split; [reflexivity|].
    cbn [rq_body put_request]. rewrite put_body_sha.
    cbn [manifest_sha truthy_opt truthy].
    destruct (String.eqb_spec (f_sha f) ""); [contradiction | reflexivity].
Qed.

(** ** Dashboard ids *)

Lemma id_char_alphabet (c : ascii) :
  id_char c = existsb (Ascii.eqb c) (list_ascii_of_string id_alphabet).
Proof. destruct c as [[] [] [] [] [] [] [] []]; reflexivity. Qed.

Lemma id_pattern_spec (s : string) : id_pattern s = true <-> well_formed_id s.
Proof.
  unfold id_pattern, well_formed_id.
  rewrite !andb_true_iff, Nat.leb_le, Nat.leb_le.
  assert (str_forallb id_char s = true <->
          forall c, In c (list_ascii_of_string s) -> In c (list_ascii_of_string id_alphabet)) as ->.
  { induction s as [|d s IH]; cbn [str_forallb list_ascii_of_string].
    - split; [intros _ c [] | reflexivity].
    - rewrite andb_true_iff, IH, id_char_alphabet, existsb_exists. split.
      + intros [(x & Hx & E) H] c [<-|Hc]; [|now apply H].
        apply Ascii.eqb_eq in E. now subst x.
      + intros H. split.
        * exists d. split; [apply H; now left | apply Ascii.eqb_refl].
        * intros c Hc. apply H. now right. }
  tauto.
Qed.

(** C6. An id that, once trimmed, is not made of 3 to 80 letters, digits,
    hyphens and underscores makes a read, a write and a delete answer 400
    and leave the world as it is: no call to the host is made. An id of
    that form passes the validation. *)
Theorem invalid_id_rejected (env : environment) (req : http_request) (w : world) :
  configured env ->
  (method req = "GET" /\ qparam_truthy (query_list req) = false)
  \/ method req = "POST" \/ method req = "DELETE" ->
  let s := trim (qparam_string (query_dash req)) in
  (well_formed_id s -> safeDashId (query_dash req) = Some s)
  /\ (~ well_formed_id s ->
      handler env req w = (json 400 [("error", VStr "Missing/invalid dash id")], w)).
Proof.
  intros Hc Hm s. split.
  - intros Hwf. pose proof (proj2 (id_pattern_spec s) Hwf) as Hp.
    unfold safeDashId. fold s. rewrite Hp.
    destruct (String.eqb_spec s ""); [|reflexivity].
    destruct Hwf as [[Hlen _] _]. rewrite e in Hlen. simpl in Hlen. lia.
  - intros Hwf.
    assert (safeDashId (query_dash req) = None) as Hnone.
    { unfold safeDashId. fold s. destruct (String.eqb s ""); [reflexivity|].
      destruct (id_pattern s) eqn:Hp; [|reflexivity].
      now apply id_pattern_spec in Hp. }
    destruct Hm as [[Hm Hl]|[Hm|Hm]].
    + rewrite handler_get by assumption. unfold handle_get. now rewrite Hnone.
    + rewrite handler_post by assumption. unfold handle_post. now rewrite Hnone.
    + rewrite handler_delete by assumption. unfold handle_delete. now rewrite Hnone.
Qed.

(** ** Entries of the manifest *)

Lemma has_id_spec (id : string) (x : value) :
  has_id id x = true <-> entry_id x = Some (VStr id).
Proof.
  unfold has_id, entry_id. split.
  - intros H. apply andb_true_iff in H as [_ H].
    destruct (get_prop_opt (Some x) "id") as [[| | |t| |]|]; try discriminate.
    simpl in H. apply String.eqb_eq in H. now subst.
  - intros H. rewrite H. simpl. rewrite String.eqb_refl.
    destruct x; try discriminate H. reflexivity.
Qed.

Lemma findIndex_Some (p : value -> bool) (l : list value) (i : nat) :
  findIndex p l = Some i -> exists x, l !! i = Some x /\ p x = true.
Proof.
  revert i. induction l as [|y l IH]; intros i; simpl; [discriminate|].
  destruct (p y) eqn:E.
  - intros [= <-]. now exists y.
  - destruct (findIndex p l) as [j|]; [|discriminate].
    intros [= <-]. now apply IH.
Qed.

Lemma findIndex_None (p : value -> bool) (l : list value) :
  findIndex p l = None -> forall x, x ∈ l -> p x = false.
Proof.
  induction l as [|y l IH]; simpl; intros H x Hx; [inversion Hx|].
  destruct (p y) eqn:E; [discriminate|].
  destruct (findIndex p l); [discriminate|].
  apply elem_of_cons in Hx as [->|Hx]; [assumption | now apply IH].
Qed.

Lemma obj_lookup_set (o : list (string * value)) (k k' : string) (v : value) :
  obj_lookup (obj_set o k v) k' = if String.eqb k k' then Some v else obj_lookup o k'.
Proof.
  induction o as [|[k0 v0] o IH]; simpl.
  - destruct (String.eqb k k'); reflexivity.
  - destruct (String.eqb_spec k0 k) as [->|Hne]; simpl.
    + destruct (String.eqb k k'); reflexivity.
    + rewrite IH. destruct (String.eqb_spec k0 k') as [->|Hne'].
      * destruct (String.eqb_spec k k'); [congruence | reflexivity].
      * reflexivity.
Qed.

Lemma Object_assign_id (old : value) (id : string) (name : value) (stamp : string) :
  entry_id (Object_assign old [("id", VStr id); ("name", name); ("updatedAt", VStr stamp)])
  = Some (VStr id).
Proof.
  unfold entry_id, Object_assign. cbn [get_prop_opt].
  rewrite fold_left_app. cbn [fold_left fst snd].
  now rewrite !obj_lookup_set.
Qed.

Lemma ids_app (l k : list value) : ids (l ++ k) = ids l ++ ids k.
Proof.
  induction l as [|x l IH]; simpl; [reflexivity|].
  destruct (entry_id x); simpl; now rewrite IH.
Qed.

Lemma elem_of_ids (l : list value) (v : value) :
  v ∈ ids l <-> exists x, x ∈ l /\ entry_id x = Some v.
Proof.
  induction l as [|y l IH]; simpl.
  - split; [intros H; inversion H | intros (x & H & _); inversion H].
  - destruct (entry_id y) as [u|] eqn:E; rewrite ?elem_of_cons, IH; split.
    + intros [->|(x & Hx & Hv)]; [exists y | exists x]; rewrite elem_of_cons; auto.
    + intros (x & Hx & Hv). apply elem_of_cons in Hx as [->|Hx]; [left; congruence|].
      right. now exists x.
    + intros (x & Hx & Hv). exists x. rewrite elem_of_cons. auto.
    + intros (x & Hx & Hv). apply elem_of_cons in Hx as [->|Hx]; [congruence|].
      now exists x.
Qed.

Lemma ids_insert (l : list value) (i : nat) (x y : value) :
  l !! i = Some x -> entry_id y = entry_id x -> ids (<[i := y]> l) = ids l.
Proof.
  revert i. induction l as [|z l IH]; intros i Hx Hy; [reflexivity|].
  destruct i as [|i]; simpl in *.
  - injection Hx as ->. now rewrite Hy.
  - now rewrite (IH i Hx Hy).
Qed.

Lemma ids_filter_subset (p : value -> bool) (l : list value) (v : value) :
  v ∈ ids (List.filter p l) -> v ∈ ids l.
Proof.
  induction l as [|x l IH]; simpl; [auto|].
  destruct (p x); simpl; destruct (entry_id x); simpl;
    rewrite ?elem_of_cons; intuition.
Qed.

Lemma ids_filter_NoDup (p : value -> bool) (l : list value) :
  NoDup (ids l) -> NoDup (ids (List.filter p l)).
Proof.
  induction l as [|x l IH]; simpl; [auto|].
  destruct (p x); simpl; destruct (entry_id x) eqn:E; simpl;
    rewrite ?NoDup_cons; try tauto.
  intros [Hn Hd]. split; [|auto].
  intros Hin. apply Hn. now apply (ids_filter_subset p).
Qed.

(** C9. The upsert of a write and the filter of a delete keep a manifest
    with at most one entry per id that way; a replacement keeps the length
    of the list, the place of the entry and every other entry, and without
    an entry for the id the new one goes to the end. *)
Theorem manifest_stays_unique (l : list value) (id : string) (name : value) (stamp : string) :
  unique_by_id l ->
  let entry := [("id", VStr id); ("name", name); ("updatedAt", VStr stamp)] in
  unique_by_id (upsert l id entry)
  /\ unique_by_id (without_id l id)
  /\ (VStr id ∉ ids (without_id l id))
  /\ (forall idx, findIndex (has_id id) l = Some idx ->
        length (upsert l id entry) = length l
        /\ ids (upsert l id entry) = ids l
        /\ (forall j, j <> idx -> upsert l id entry !! j = l !! j)
        /\ exists x, upsert l id entry !! idx = Some x /\ entry_id x = Some (VStr id))
  /\ (findIndex (has_id id) l = None -> upsert l id entry = l ++ [VObj entry]).
Proof.
  intros Hu entry.
  assert (Hreplace : forall idx, findIndex (has_id id) l = Some idx ->
            length (upsert l id entry) = length l
            /\ ids (upsert l id entry) = ids l
            /\ (forall j, j <> idx -> upsert l id entry !! j = l !! j)
            /\ exists x, upsert l id entry !! idx = Some x /\ entry_id x = Some (VStr id)).
  { intros idx Hi. destruct (findIndex_Some _ _ _ Hi) as (old & Hold & Hp).
    apply has_id_spec in Hp. unfold upsert. rewrite Hi, Hold.
    pose proof (Object_assign_id old id name stamp) as Hnew. fold entry in Hnew.
    split; [apply length_insert|]. split; [apply (ids_insert l idx old); congruence|].
    split; [intros j Hj; now apply list_lookup_insert_ne|].
    exists (Object_assign old entry). split; [|exact Hnew].
    apply list_lookup_insert_eq. now apply lookup_lt_Some in Hold. }
  assert (Happend : findIndex (has_id id) l = None -> upsert l id entry = l ++ [VObj entry])
    by (intros Hi; unfold upsert; now rewrite Hi).
  split; [|split; [|split; [|split]]]; try assumption.
  - unfold unique_by_id. destruct (findIndex (has_id id) l) as [idx|] eqn:Hi.
    + destruct (Hreplace idx eq_refl) as (_ & -> & _). exact Hu.
    + rewrite (Happend eq_refl), ids_app. simpl.
      apply NoDup_app. split; [exact Hu|]. split; [|apply NoDup_singleton].
      intros v Hv Hv'. apply list_elem_of_singleton in Hv'. subst v.
      apply elem_of_ids in Hv as (x & Hx & Hid).
      apply has_id_spec in Hid.
      now rewrite (findIndex_None _ _ Hi x Hx) in Hid.
  - now apply ids_filter_NoDup.
  - unfold without_id. intros Hin.
    apply elem_of_ids in Hin as (x & Hx & Hid).
    apply list_elem_of_In, filter_In in Hx as [_ Hx].
    apply andb_true_iff in Hx as [_ Hx]. unfold entry_id in Hid.
    rewrite Hid in Hx. simpl in Hx. now rewrite String.eqb_refl in Hx.
Qed.

(** ** Writing a dashboard *)

Lemma handle_post_unfold (cfg : config) (dash : option qparam) (b : option value) (id : string) :
  safeDashId dash = Some id ->
  handle_post cfg dash b =
  (let* state := lift (payload_state (request_payload b)) in
   let* existing := ghGetFile cfg (dashboard_path id) in
   match existing with
   | GetError e => ret (failed "GitHub GET pre-update failed" e)
   | _ => post_write cfg id state existing
   end).
Proof. intros H. unfold handle_post. rewrite H. reflexivity. Qed.

Lemma post_manifest_run (env : environment) (id : string) (state commitUrl : value)
    (w2 : world) :
  honest w2 ->
  exists res w',
    finish (post_manifest (config_of env) id state commitUrl w2) = (res, w')
    /\ manifest_steps env state commitUrl w2 res w'.
Proof.
  intros Hh. unfold post_manifest, bind.
  destruct (loadManifest_cases (config_of env) w2 Hh) as (man & r3 & -> & Hman).
  set (w3 := exchanged w2 _ _ _ _).
  assert (Hh3 : honest w3) by (unfold w3; now apply honest_exchanged).
  assert (Hres : resource (rq_url (get_request (config_of env) MANIFEST_PATH))
                 = manifest_url env) by apply resource_get_url.
  destruct man as [e|ex sha list].
  - destruct Hman as [Hok H404]. do 2 eexists. split; [reflexivity|].
    eapply load_failed; eauto; reflexivity.
  - unfold Date_toISOString, lift.
    destruct (display_name state) as [name|e] eqn:Hname.
    + rewrite saveManifest_unfold.
      match goal with
      | |- context [ghPutFile ?c ?p ?m ?s ?h w3] =>
          destruct (ghPutFile_cases c p m s h w3 Hh3) as [(r4 & Hok & ->)|(r4 & Hok & ->)]
      end.
      * do 2 eexists. split; [reflexivity|].
        eapply save_failed; eauto; reflexivity.
      * do 2 eexists. split; [reflexivity|].
        eapply saved; eauto; reflexivity.
    + do 2 eexists. split; [reflexivity|].
      eapply name_failed; eauto; reflexivity.
Qed.

Lemma post_write_run (env : environment) (id : string) (state : value)
    (existing : get_result) (w w1 : world) (g : request) (r1 : response) :
  honest w1 ->
  rq_method g = GET -> resource (rq_url g) = document_url env id ->
  log w1 = (g, r1) :: log w -> files w1 = files w ->
  exists res w',
    finish (post_write (config_of env) id state existing w1) = (res, w')
    /\ post_run env id state w res w'.
Proof.
  intros Hh Hg Hgu Hlog Hfiles. unfold post_write, bind, Date_toISOString.
  match goal with
  | |- context [ghPutFile ?c ?p ?m ?s ?h w1] =>
      destruct (ghPutFile_cases c p m s h w1 Hh) as [(r2 & Hok & ->)|(r2 & Hok & ->)]
  end.
  - match goal with |- context [exchanged w1 ?rq r2 _ _] => set (p := rq) end.
    do 2 eexists. split; [reflexivity|].
    eapply (write_failed env id state w _ _ g r1 p r2);
      [exact Hg | exact Hgu | reflexivity | reflexivity | exact Hok
      | cbn [log exchanged]; now rewrite Hlog | exact Hfiles | reflexivity].
  - match goal with |- context [exchanged w1 ?rq r2 _ _] => set (p := rq) end.
    set (w2 := exchanged w1 _ _ _ _).
    assert (Hh2 : honest w2) by (unfold w2; now apply honest_exchanged).
    destruct (post_manifest_run env id state (VStr (commit_url (serial w1))) w2 Hh2)
      as (res & w' & -> & Hsteps).
    exists res, w'. split; [reflexivity|].
    eapply (document_written env id state w _ _ g r1 p r2 w2);
      [exact Hg | exact Hgu | reflexivity | reflexivity | exact Hok
      | unfold w2; cbn [log exchanged]; now rewrite Hlog
      | unfold w2, written; cbn [files exchanged]; now rewrite Hfiles
      | exact Hsteps].
Qed.

Lemma post_run_spec (env : environment) (req : http_request) (w : world)
    (id : string) (props : list (string * value)) (state : value) :
  configured env -> method req = "POST" ->
  safeDashId (query_dash req) = Some id ->
  body req = Some (VObj props) -> obj_lookup props "state" = Some state ->
  honest w ->
  exists res w', handler env req w = (res, w') /\ post_run env id state w res w'.
Proof.
  intros Hc Hm Hid Hbody Hstate Hh.
  rewrite handler_post by assumption.
  rewrite (handle_post_unfold _ _ _ id Hid), Hbody.
  unfold bind, lift. cbn [request_payload payload_state]. rewrite Hstate.
  assert (Hres : resource (rq_url (get_request (config_of env) (dashboard_path id)))
                 = document_url env id) by apply resource_get_url.
  destruct (fault_at 0 w) as [r|] eqn:Hf.
  - pose proof (honest_fault w r Hh Hf) as Hok.
    rewrite (ghGetFile_fault _ _ _ _ Hf Hok).
    destruct (Z.eqb_spec (status r) 404) as [E|E].
    + eapply post_write_run; eauto; try reflexivity. now apply honest_exchanged.
    + do 2 eexists. split; [reflexivity|].
      eapply read_failed; eauto; reflexivity.
  - rewrite (ghGetFile_answer _ _ _ Hf).
    destruct (files w !! contents_url (config_of env) (dashboard_path id)) as [f|];
      (eapply post_write_run; eauto; try reflexivity; now apply honest_exchanged).
Qed.

Lemma get_reads_document (env : environment) (greq : http_request) (w : world)
    (id : string) (f : file) (state : value) :
  configured env -> method greq = "GET" -> qparam_truthy (query_list greq) = false ->
  safeDashId (query_dash greq) = Some id ->
  fault_at 0 w = None -> files w !! document_url env id = Some f ->
  JSON_parse (f_content f) = Some state ->
  fst (handler env greq w) = json 200 [("state", state); ("exists", VBool true)].
Proof.
  intros Hc Hm Hl Hid Hf Hfile Hparse.
  rewrite handler_get by assumption.
  unfold handle_get, bind. rewrite Hid.
  rewrite (ghGetFile_answer _ _ _ Hf).
  unfold document_url in Hfile. rewrite Hfile.
  unfold lift, JSON_parse_or_throw, fromBase64.
  now rewrite base64_decode_encode, Hparse.
Qed.

(** After the manifest steps the document is the one that was written. *)
Lemma manifest_steps_keep_document (env : environment) (id : string)
    (state commitUrl : value) (w2 : world) (res : http_response) (w' : world) (f : file) :
  id_pattern id = true ->
  manifest_steps env state commitUrl w2 res w' ->
  files w2 !! document_url env id = Some f ->
  files w' !! document_url env id = Some f.
Proof.
  intros Hpat Hsteps Hdoc.
  destruct Hsteps; try congruence.
  match goal with H : files _ = <[_ := _]> _ |- _ => rewrite H end.
  rewrite lookup_insert_ne; [exact Hdoc|].
  intros E. symmetry in E. now apply (document_not_manifest _ _ Hpat) in E.
Qed.

(** C1. After a write of [state] under a valid id that answered 200, a read
    of that id which the host answers gives [exists: true] and a state
    equal to [state]: the content comes back through [JSON.stringify], the
    base64 transcoding and [JSON.parse] as it went in. *)
Theorem put_then_get (env : environment) (req greq : http_request) (w w'' : world)
    (id : string) (props : list (string * value)) (state : value) :
  configured env -> method req = "POST" ->
  safeDashId (query_dash req) = Some id ->
  body req = Some (VObj props) -> obj_lookup props "state" = Some state ->
  serializable state = true -> honest w ->
  status_code (fst (handler env req w)) = 200 ->
  method greq = "GET" -> qparam_truthy (query_list greq) = false ->
  safeDashId (query_dash greq) = Some id ->
  files w'' = files (snd (handler env req w)) -> fault_at 0 w'' = None ->
  fst (handler env greq w'') = json 200 [("state", state); ("exists", VBool true)].
Proof.
  intros Hc Hm Hid Hbody Hstate Hser Hh H200 Hgm Hgl Hgid Hfiles Hf.
  pose proof (safeDashId_pattern _ _ Hid) as Hpat.
  destruct (post_run_spec env req w id props state Hc Hm Hid Hbody Hstate Hh)
    as (res & w' & Hrun & Hshape).
  rewrite Hrun in *. cbn [fst snd] in *.
  destruct Hshape as [? ? ? ? ? ? ? ? ? ? H502|? ? ? ? ? ? ? ? ? ? ? ? ? H502
                     |res w' g r1 p r2 w2 sha commitUrl ? ? ? ? ? ? Hw2 Hsteps];
    try (rewrite H502 in H200; discriminate).
  eapply get_reads_document; eauto.
  - rewrite Hfiles. eapply manifest_steps_keep_document; eauto.
    rewrite Hw2. apply lookup_insert_eq.
  - cbn [f_content]. now apply JSON_parse_stringify.
Qed.




(** * Concrete runs *)

Lemma example_env_configured : configured example_env.
Proof. split; reflexivity. Qed.


(** C1, at a concrete input: the state written under [abc] is read back. *)
Lemma put_then_get_witness :
  fst (handler example_env (get_of "abc")
         (settle (snd (handler example_env (post_of "abc" example_state) empty_world))))
  = json 200 [("state", example_state); ("exists", VBool true)].
Proof.
  apply (put_then_get example_env (post_of "abc" example_state) (get_of "abc")
           empty_world _ "abc" [("state", example_state)] example_state).
  - exact example_env_configured.
  - reflexivity.
  - vm_compute; reflexivity.
  - reflexivity.
  - reflexivity.
  - reflexivity.
  - constructor.
  - vm_compute; reflexivity.
  - reflexivity.
  - reflexivity.
  - vm_compute; reflexivity.
  - reflexivity.
  - reflexivity.
Defined.


(** C4, as the claim has it, fails: the answer to the delete of an existing
    document has no [deleted] property. *)
Lemma delete_success_counterexample :
  let res := fst (handler example_env (delete_of "abc") quiet_world) in
  files quiet_world !! document_url example_env "abc" = Some example_document
  /\ status_code res = 200
  /\ body_field (payload res) "deleted" <> Some (VBool true).
Proof. vm_compute. repeat split; discriminate. Qed.

(** C5, at a concrete input: the manifest file is not JSON. *)
Lemma load_corrupt_manifest_witness :
  fst (loadManifest (config_of example_env) corrupt_world)
  = Ret (Manifest true (Some (VStr "blob3")) [])
  /\ fst (handler example_env list_all corrupt_world) = json 200 [("dashboards", VArr [])].
Proof.
  destruct (load_corrupt_manifest example_env list_all corrupt_world corrupt_file)
    as (Hload & Hlist & _).
  - exact example_env_configured.
  - reflexivity.
  - reflexivity.
  - reflexivity.
  - vm_compute; reflexivity.
  - intros l H. vm_compute in H. discriminate H.
  - discriminate.
  - split; [exact Hload | now rewrite Hlist].
Defined.

(** C6, at a concrete input: an id of two characters. *)
Lemma invalid_id_witness :
  handler example_env (post_of "ab" example_state) empty_world
  = (json 400 [("error", VStr "Missing/invalid dash id")], empty_world).
Proof.
  apply (proj2 (invalid_id_rejected example_env (post_of "ab" example_state) empty_world
                  example_env_configured (or_intror (or_introl eq_refl)))).
  intros [[Hlen _] _]. vm_compute in Hlen. lia.
Defined.

(** C7, at a concrete input: an id that was never written. *)
Lemma delete_missing_witness :
  exists rq rs,
    handler example_env (delete_of "zzz") empty_world
    = (json 200 [("ok", VBool true); ("deleted", VBool false)],
       exchanged empty_world rq rs (files empty_world) (serial empty_world))
    /\ rq_method rq = GET.
Proof.
  apply (delete_missing_document example_env (delete_of "zzz") empty_world "zzz"
           example_env_configured eq_refl ltac:(vm_compute; reflexivity) eq_refl eq_refl).
Defined.

Lemma example_manifest_unique : unique_by_id example_manifest.
Proof.
  unfold unique_by_id. simpl. repeat constructor.
  - intros H. apply list_elem_of_singleton in H. discriminate H.
  - intros H. inversion H.
Qed.

(** C9, at a concrete input: a manifest of two entries. *)
Lemma manifest_stays_unique_witness :
  unique_by_id (upsert example_manifest "xyz"
                  [("id", VStr "xyz"); ("name", VNull); ("updatedAt", VStr "now")])
  /\ unique_by_id (without_id example_manifest "xyz").
Proof.
  destruct (manifest_stays_unique example_manifest "xyz" VNull "now" example_manifest_unique)
    as (H1 & H2 & _).
  split; assumption.
Defined.

(** C10, at a concrete input: the document of [abc] is not JSON. *)
Lemma get_corrupt_document_witness :
  status_code (fst (handler example_env (get_of "abc") corrupt_world)) = 500.
Proof.
  apply (get_corrupt_document example_env (get_of "abc") corrupt_world "abc" corrupt_file
           example_env_configured eq_refl eq_refl ltac:(vm_compute; reflexivity) eq_refl
           ltac:(vm_compute; reflexivity) ltac:(vm_compute; reflexivity)).
Defined.

(** What [serializable] leaves out: a number that is not finite is written
    as [null], so a state that holds one is not read back. *)
Remark non_finite_not_read_back :
  JSON_parse (JSON_stringify (VArr [VNum (Infinity false)]) 2) = Some (VArr [VNull]).
Proof. vm_compute. reflexivity. Qed.

(** * More of the helpers *)

(** ** Paths *)

Lemma encodeURIComponent_no_slash (s : string) :
  str_forallb (other_than "/") (encodeURIComponent s) = true.
Proof.
  induction s as [|c s IH]; [reflexivity|].
  cbn [encodeURIComponent].
  assert (str_forallb (other_than "/")
            (if uri_unreserved c then String c ""
             else String "%" (String (hex_upper (code c / 16))
                                (String (hex_upper (code c mod 16)) ""))) = true) as H
    by (destruct c as [[] [] [] [] [] [] [] []]; reflexivity).
  destruct (uri_unreserved c); cbn [str_forallb] in *;
    repeat match goal with
           | H : _ && _ = true |- _ => apply andb_true_iff in H as [? H]
           end;
    repeat (apply andb_true_iff; split); assumption.
Qed.

Lemma split_on_plain (c : ascii) (s : string) :
  str_forallb (other_than c) s = true -> split_on c s = [s].
Proof.
  induction s as [|d s IH]; intros H; [reflexivity|].
  cbn [str_forallb] in H. apply andb_true_iff in H as [Hd H].
  unfold other_than in Hd. apply negb_true_iff in Hd.
  cbn [split_on]. rewrite Hd, (IH H). reflexivity.
Qed.

Lemma split_on_app (c : ascii) (s t : string) :
  str_forallb (other_than c) s = true ->
  split_on c (s +:+ String c t) = s :: split_on c t.
Proof.
  induction s as [|d s IH]; intros H.
  - cbn [append split_on]. now rewrite Ascii.eqb_refl.
  - cbn [str_forallb] in H. apply andb_true_iff in H as [Hd H].
    unfold other_than in Hd. apply negb_true_iff in Hd.
    cbn [append split_on]. rewrite Hd, (IH H). reflexivity.
Qed.

Lemma split_on_join (c : ascii) (l : list string) :
  l <> [] -> Forall (fun s => str_forallb (other_than c) s = true) l ->
  split_on c (join (String c "") l) = l.
Proof.
  intros Hne H. induction H as [|x l Hx Hl IH]; [contradiction|].
  destruct l as [|y l]; [now apply split_on_plain|].
  change (join (String c "") (x :: y :: l))
    with (x +:+ String c "" +:+ join (String c "") (y :: l)).
  change (String c "" +:+ join (String c "") (y :: l))
    with (String c (join (String c "") (y :: l))).
  rewrite split_on_app by exact Hx. now rewrite IH.
Qed.

(** X1. [encodeGitHubPath] keeps the structure of the path: split at the
    slashes, the encoded path has the segments of the path, each one
    encoded by [encodeURIComponent], in the same order. *)
Theorem encodeGitHubPath_segments (p : string) :
  split_on "/" (encodeGitHubPath p) = map encodeURIComponent (split_on "/" p).
Proof.
  unfold encodeGitHubPath. apply split_on_join.
  - pose proof (split_on_nonempty "/" p) as H.
    destruct (split_on "/" p); [contradiction | discriminate].
  - apply Forall_map, Forall_forall. intros x _. apply encodeURIComponent_no_slash.
Qed.

(** ** Ids *)

Lemma id_char_not_space (a : ascii) :
  id_char a = true ->
  ws1 a = false /\ (forall b, ws2 a b = false) /\ (forall b, ws2 b a = false)
  /\ (forall b c, ws3 a b c = false) /\ (forall b c, ws3 c b a = false).
Proof.
  intros H. assert (code a < 128 /\ 32 < code a)%N as [Hlt Hgt]
    by (destruct a as [[] [] [] [] [] [] [] []]; try discriminate H; vm_compute; auto).
  unfold ws1, ws2, ws3. cbv zeta.
  repeat split; intros;
    repeat match goal with
           | |- context [(?x =? ?y)%N] => destruct (N.eqb_spec x y); try lia
           | |- context [(?x <=? ?y)%N] => destruct (N.leb_spec x y); try lia
           end; cbn; try reflexivity;
    repeat match goal with
           | |- context [?b && false] => rewrite andb_false_r
           end; reflexivity.
Qed.

Lemma trim_start_id (s : string) : head_is id_char s = true -> trim_start s = s.
Proof.
  destruct s as [|a r]; [discriminate|]. cbn [head_is]. intros H.
  destruct (id_char_not_space a H) as (H1 & H2 & _ & H3 & _).
  cbn [trim_start]. rewrite H1. destruct r as [|b r2]; [reflexivity|].
  rewrite H2. destruct r2 as [|c r3]; [reflexivity|]. now rewrite H3.
Qed.

Lemma trim_start_rev_id (s : string) : head_is id_char s = true -> trim_start_rev s = s.
Proof.
  destruct s as [|a r]; [discriminate|]. cbn [head_is]. intros H.
  destruct (id_char_not_space a H) as (H1 & _ & H2 & _ & H3).
  cbn [trim_start_rev]. rewrite H1. destruct r as [|b r2]; [reflexivity|].
  rewrite H2. destruct r2 as [|c r3]; [reflexivity|]. now rewrite H3.
Qed.

Lemma str_forallb_rev (p : ascii -> bool) (s : string) :
  str_forallb p (str_rev s) = str_forallb p s.
Proof.
  induction s as [|c s IH]; [reflexivity|].
  rewrite str_rev_cons, str_forallb_app, IH. cbn [str_forallb].
  rewrite andb_true_r. apply andb_comm.
Qed.

Lemma str_forallb_head (p : ascii -> bool) (s : string) :
  str_forallb p s = true -> s <> "" -> head_is p s = true.
Proof.
  destruct s as [|c r]; [contradiction|]. cbn [str_forallb head_is].
  intros H _. now apply andb_true_iff in H as [H _].
Qed.

Lemma str_rev_nonempty (s : string) : s <> "" -> str_rev s <> "".
Proof.
  intros H E. apply H. rewrite <- (str_rev_involutive s), E. reflexivity.
Qed.

Lemma id_pattern_chars (s : string) :
  id_pattern s = true -> str_forallb id_char s = true /\ s <> "".
Proof.
  unfold id_pattern. intros H.
  apply andb_true_iff in H as [H _]. apply andb_true_iff in H as [H Hlen].
  split; [exact H|]. intros ->. discriminate Hlen.
Qed.

Lemma trim_id (s : string) : id_pattern s = true -> trim s = s.
Proof.
  intros H. destruct (id_pattern_chars s H) as [Hc Hne].
  unfold trim. rewrite trim_start_id by now apply str_forallb_head.
  rewrite trim_start_rev_id.
  - apply str_rev_involutive.
  - apply str_forallb_head; [now rewrite str_forallb_rev | now apply str_rev_nonempty].
Qed.

Lemma safeDashId_accepts (s : string) :
  id_pattern s = true -> safeDashId (Some (QStr s)) = Some s.
Proof.
  intros H. unfold safeDashId. cbn [qparam_string]. rewrite (trim_id s H).
  destruct (id_pattern_chars s H) as [_ Hne].
  destruct (String.eqb_spec s ""); [contradiction|]. now rewrite H.
Qed.

(** X2. An id that [safeDashId] accepts is in normal form: it is the
    trimmed parameter, [safeDashId] accepts it again as it is, and the path
    of its document goes into the URL as it is, with nothing to encode. *)
Theorem safeDashId_normal_form (q : option qparam) (id : string) :
  safeDashId q = Some id ->
  id = trim (qparam_string q)
  /\ safeDashId (Some (QStr id)) = Some id
  /\ encodeGitHubPath (dashboard_path id) = dashboard_path id.
Proof.
  intros H. pose proof (safeDashId_pattern q id H) as Hp.
  split; [|split].
  - unfold safeDashId in H. destruct (String.eqb _ ""); [discriminate|].
    destruct (negb _); [discriminate|]. now injection H as <-.
  - now apply safeDashId_accepts.
  - now apply dashboard_path_plain.
Qed.

Lemma app_inv_tail_s (a b t : string) : a +:+ t = b +:+ t -> a = b.
Proof.
  intros H. apply (f_equal str_rev) in H. rewrite !str_rev_app in H.
  apply String.app_inj in H. rewrite <- (str_rev_involutive a), H.
  apply str_rev_involutive.
Qed.

Lemma dashboard_path_inj (id id' : string) :
  dashboard_path id = dashboard_path id' -> id = id'.
Proof.
  unfold dashboard_path. intros H.
  repeat apply String.app_inj in H. now apply app_inv_tail_s in H.
Qed.

Lemma contents_url_plain_inj (cfg : config) (p q : string) :
  encodeGitHubPath p = p -> encodeGitHubPath q = q ->
  contents_url cfg p = contents_url cfg q -> p = q.
Proof.
  unfold contents_url. intros -> -> H. now repeat apply String.app_inj in H.
Qed.

(** X3. Two ids that [safeDashId] accepts and that differ have their
    documents in different files, and neither file is the manifest: a
    dashboard never shares its storage. *)
Theorem documents_apart (cfg : config) (q q' : option qparam) (id id' : string) :
  safeDashId q = Some id -> safeDashId q' = Some id' -> id <> id' ->
  contents_url cfg (dashboard_path id) <> contents_url cfg (dashboard_path id')
  /\ contents_url cfg (dashboard_path id) <> contents_url cfg MANIFEST_PATH
  /\ contents_url cfg (dashboard_path id') <> contents_url cfg MANIFEST_PATH.
Proof.
  intros H H' Hne.
  apply safeDashId_pattern in H. apply safeDashId_pattern in H'.
  split; [|split; now apply document_not_manifest].
  intros E. apply Hne, dashboard_path_inj.
  apply (contents_url_plain_inj cfg); [now apply dashboard_path_plain .. | exact E].
Qed.

(** ** Base64 *)

Lemma sextets_wrap (s : string) (col : nat) : sextets (wrap_lines col s) = sextets s.
Proof.
  revert col. induction s as [|c s IH]; intros col.
  - destruct col; reflexivity.
  - cbn [wrap_lines]. destruct (60 <=? col)%nat.
    + change (sextets (String LF (String c (wrap_lines 1 s))))
        with (sextets (String c (wrap_lines 1 s))).
      cbn [sextets]. now rewrite IH.
    + cbn [sextets]. now rewrite IH.
Qed.

(** X4. What [toBase64] writes of a well-formed string, [fromBase64] reads
    back, also when the host has folded the text into lines: with the line
    feeds taken out, as [ghGetFile] does, or left in. *)
Theorem base64_round_trip (s : string) (col : nat) :
  well_formed_utf8 s = true ->
  fromBase64 (toBase64 s) = s
  /\ fromBase64 (remove_newlines (wrap_lines col (toBase64 s))) = s
  /\ fromBase64 (wrap_lines col (toBase64 s)) = s.
Proof.
  intros _. unfold fromBase64, toBase64. split; [|split].
  - apply base64_decode_encode.
  - rewrite remove_newlines_wrap by apply base64_encode_no_newline.
    apply base64_decode_encode.
  - unfold base64_decode. rewrite sextets_wrap. apply base64_decode_encode.
Qed.

(** ** What [JSON.parse] returns *)

Lemma span_forallb (p : ascii -> bool) (s a b : string) :
  span p s = (a, b) -> str_forallb p a = true.
Proof.
  revert a b. induction s as [|c s IH]; intros a b; simpl.
  - now intros [= <- <-].
  - destruct (p c) eqn:Hc.
    + destruct (span p s) as [a' b'] eqn:E. intros [= <- <-].
      simpl. rewrite Hc. now apply (IH a' b').
    + now intros [= <- <-].
Qed.

Lemma strip_zeros_spec (s : string) (k : nat) (t : string) :
  strip_zeros s = (k, t) ->
  s = str_repeat "0" k +:+ t /\ (t = "" \/ nonzero_head t = true).
Proof.
  revert k t. induction s as [|c s IH]; intros k t; simpl.
  - intros [= <- <-]. auto.
  - destruct (Ascii.eqb_spec c "0") as [->|Hc].
    + destruct (strip_zeros s) as [k' t'] eqn:E. intros [= <- <-].
      destruct (IH k' t' eq_refl) as [-> H]. split; [reflexivity | exact H].
    + intros [= <- <-]. split; [reflexivity|]. right. simpl.
      apply negb_true_iff. now apply Ascii.eqb_neq.
Qed.

Lemma str_rev_empty (s : string) : str_rev s = "" -> s = "".
Proof. intros H. rewrite <- (str_rev_involutive s), H. reflexivity. Qed.

Lemma number_of_digits_finite (neg : bool) (ds : string) (n : Z) :
  str_forallb is_digit ds = true -> number_finite (number_of_digits neg ds n) = true.
Proof.
  intros Hd. unfold number_of_digits.
  destruct (strip_zeros ds) as [k t] eqn:E1.
  destruct (strip_zeros (str_rev t)) as [j u] eqn:E2.
  destruct (strip_zeros_spec _ _ _ E1) as [-> Ht].
  destruct (strip_zeros_spec _ _ _ E2) as [Hrev Hu].
  destruct u as [|c u']; [reflexivity|].
  remember (String c u') as u eqn:Eu.
  destruct Hu as [Hu|Hu]; [subst u; discriminate|].
  assert (t = str_rev u +:+ str_repeat "0" j) as Et.
  { rewrite <- (str_rev_involutive t), Hrev, str_rev_app, str_rev_repeat. reflexivity. }
  cbn [number_finite]. unfold canonical_digits.
  rewrite str_rev_involutive, Hu, andb_true_r.
  rewrite str_forallb_app in Hd. apply andb_true_iff in Hd as [_ Hd].
  rewrite Et, str_forallb_app in Hd. apply andb_true_iff in Hd as [Hd _].
  rewrite Hd. cbn [andb].
  assert (str_rev u <> "") as Hne by (intros E; apply str_rev_empty in E; subst u; discriminate).
  destruct Ht as [Ht|Ht].
  - rewrite Ht in Et. destruct (str_rev u); [contradiction | discriminate].
  - rewrite Et in Ht. destruct (str_rev u); [contradiction | exact Ht].
Qed.

Lemma parse_fraction_digits (s f r : string) :
  parse_fraction s = Some (f, r) -> str_forallb is_digit f = true.
Proof.
  unfold parse_fraction. destruct (peek "." s) as [t|].
  - destruct (span is_digit t) as [a b] eqn:Es.
    destruct a; [discriminate|]. intros [= <- <-]. now apply span_forallb in Es.
  - now intros [= <- <-].
Qed.

Lemma parse_number_finite (s : string) (x : number) (r : string) :
  parse_number s = Some (x, r) -> number_finite x = true.
Proof.
  assert (forall neg t, parse_unsigned neg t = Some (x, r) -> number_finite x = true) as H.
  { intros neg t. unfold parse_unsigned. destruct (span is_digit t) as [i s2] eqn:Es.
    destruct i as [|c i]; [discriminate|].
    destruct (Ascii.eqb c "0" && negb (String.eqb i "")); [discriminate|].
    destruct (parse_fraction s2) as [[f s3]|] eqn:Ef; [|discriminate].
    destruct (parse_exponent s3) as [[e s4]|]; [|discriminate].
    intros [= <- _]. apply number_of_digits_finite.
    change (String c (i +:+ f)) with (String c i +:+ f).
    rewrite str_forallb_app. apply span_forallb in Es. apply parse_fraction_digits in Ef.
    now rewrite Es, Ef. }
  unfold parse_number. destruct (peek "-" s); apply H.
Qed.

Lemma obj_set_key_in (acc : list (string * value)) (k : string) (v : value) (x : string) :
  x ∈ map fst (obj_set acc k v) -> x ∈ map fst acc \/ x = k.
Proof.
  induction acc as [|[k' v'] acc IH]; simpl.
  - intros H. apply list_elem_of_singleton in H. now right.
  - destruct (String.eqb k' k); simpl; intros H.
    + now left.
    + apply elem_of_cons in H as [->|H].
      * left. left.
      * destruct (IH H) as [H'| ->]; [left; now right | now right].
Qed.

Lemma obj_set_NoDup (acc : list (string * value)) (k : string) (v : value) :
  NoDup (map fst acc) -> NoDup (map fst (obj_set acc k v)).
Proof.
  induction acc as [|[k' v'] acc IH]; simpl; intros H.
  - apply NoDup_singleton.
  - apply NoDup_cons in H as [Hk H].
    destruct (String.eqb_spec k' k) as [->|Hne]; simpl.
    + now apply NoDup_cons.
    + apply NoDup_cons. split; [|now apply IH].
      intros Hin. apply obj_set_key_in in Hin as [Hin|E]; [contradiction | congruence].
Qed.

Lemma obj_set_values (P : value -> bool) (acc : list (string * value)) (k : string) (v : value) :
  forallb (fun kv => P (snd kv)) acc = true -> P v = true ->
  forallb (fun kv => P (snd kv)) (obj_set acc k v) = true.
Proof.
  intros H Hv. induction acc as [|[k' v'] acc IH]; simpl in *.
  - now rewrite Hv.
  - apply andb_true_iff in H as [H1 H2]. destruct (String.eqb k' k); simpl.
    + now rewrite Hv, H2.
    + now rewrite H1, IH.
Qed.

Lemma obj_of_members_serializable (ms : list (string * value)) :
  forallb (fun kv => serializable (snd kv)) ms = true ->
  serializable (VObj (obj_of_members ms)) = true.
Proof.
  unfold obj_of_members.
  enough (forall acc,
            forallb (fun kv => serializable (snd kv)) acc = true ->
            NoDup (map fst acc) ->
            forallb (fun kv => serializable (snd kv)) ms = true ->
            serializable
              (VObj (fold_left (fun o kv => obj_set o (fst kv) (snd kv)) ms acc)) = true) as G
    by (apply (G []); [reflexivity | constructor]).
  induction ms as [|[k v] ms IH]; intros acc Hacc Hnd Hms; simpl in *.
  - rewrite Hacc. now apply distinct_NoDup.
  - apply andb_true_iff in Hms as [Hv Hms].
    apply IH; [now apply obj_set_values | now apply obj_set_NoDup | exact Hms].
Qed.

Lemma parse_serializable (f : nat) :
  (forall s v r, parse_value f s = Some (v, r) -> serializable v = true)
  /\ (forall s l r, parse_elements f s = Some (l, r) -> forallb serializable l = true)
  /\ (forall s l r, parse_members f s = Some (l, r) ->
        forallb (fun kv => serializable (snd kv)) l = true).
Proof.
  induction f as [|f (IHv & IHe & IHm)]; [repeat split; discriminate|].
  repeat split.
  - intros s v r. cbn [parse_value].
    destruct (skip_ws s) as [|c t]; [discriminate|].
    repeat match goal with
           | |- context [if Ascii.eqb c ?x then _ else _] => destruct (Ascii.eqb c x)
           end.
    + destruct (strip_prefix "ull" t); [|discriminate]. now intros [= <- _].
    + destruct (strip_prefix "rue" t); [|discriminate]. now intros [= <- _].
    + destruct (strip_prefix "alse" t); [|discriminate]. now intros [= <- _].
    + destruct (parse_string t) as [[x u]|]; [|discriminate]. now intros [= <- _].
    + destruct (peek "]" (skip_ws t)); [now intros [= <- _]|].
      destruct (parse_elements f t) as [[l u]|] eqn:E; [|discriminate].
      intros [= <- _]. exact (IHe _ _ _ E).
    + destruct (peek "}" (skip_ws t)); [now intros [= <- _]|].
      destruct (parse_members f t) as [[l u]|] eqn:E; [|discriminate].
      intros [= <- _]. apply obj_of_members_serializable. exact (IHm _ _ _ E).
    + destruct (parse_number (String c t)) as [[x u]|] eqn:E; [|discriminate].
      intros [= <- _]. exact (parse_number_finite _ _ _ E).
  - intros s l r. rewrite parse_elements_unfold.
    destruct (parse_value f s) as [[v t]|] eqn:E; [|discriminate].
    apply IHv in E.
    destruct (peek "]" (skip_ws t)).
    + intros [= <- _]. simpl. now rewrite E.
    + destruct (peek "," (skip_ws t)) as [u|]; [|discriminate].
      destruct (parse_elements f u) as [[l' u']|] eqn:E3; [|discriminate].
      intros [= <- _]. simpl. now rewrite E, (IHe _ _ _ E3).
  - intros s l r. rewrite parse_members_unfold.
    destruct (peek QUOTE (skip_ws s)) as [t|]; [|discriminate].
    destruct (parse_string t) as [[k t1]|]; [|discriminate].
    destruct (peek ":" (skip_ws t1)) as [t2|]; [|discriminate].
    destruct (parse_value f t2) as [[v t3]|] eqn:E3; [|discriminate].
    apply IHv in E3.
    destruct (peek "}" (skip_ws t3)).
    + intros [= <- _]. simpl. now rewrite E3.
    + destruct (peek "," (skip_ws t3)) as [u|]; [|discriminate].
      destruct (parse_members f u) as [[l' u']|] eqn:E6; [|discriminate].
      intros [= <- _]. simpl. now rewrite E3, (IHm _ _ _ E6).
Qed.

(** What [JSON.parse] returns, [JSON.stringify] writes in a form that
    reads back as it is. *)
Lemma JSON_parse_serializable (s : string) (v : value) :
  JSON_parse s = Some v -> serializable v = true.
Proof.
  unfold JSON_parse.
  destruct (parse_value _ s) as [[x r]|] eqn:E; [|discriminate].
  destruct (skip_ws r); [|discriminate].
  intros [= <-]. exact (proj1 (parse_serializable _) _ _ _ E).
Qed.

Lemma manifest_entries_serializable (content : string) :
  forallb serializable (manifest_entries content) = true.
Proof.
  unfold manifest_entries. destruct (JSON_parse content) as [v|] eqn:E; [|reflexivity].
  apply JSON_parse_serializable in E. now destruct v.
Qed.

Lemma manifest_entries_stringify (l : list value) :
  forallb serializable l = true -> manifest_entries (JSON_stringify (VArr l) 2) = l.
Proof.
  intros H. unfold manifest_entries. now rewrite JSON_parse_stringify.
Qed.

Lemma own_props_serializable (v : value) :
  serializable v = true ->
  forallb (fun kv => serializable (snd kv)) (own_props v) = true.
Proof.
  destruct v as [| | |s|l|props]; simpl; try reflexivity.
  - intros _. generalize 0%nat. induction (list_ascii_of_string s) as [|c r IH];
      intros i; simpl; [reflexivity | apply IH].
  - generalize 0%nat. induction l as [|x l IH]; intros i H; simpl in *; [reflexivity|].
    apply andb_true_iff in H as [-> H]. now apply IH.
  - intros H. now apply andb_true_iff in H as [H _].
Qed.

Lemma Object_assign_serializable (old : value) (entry : list (string * value)) :
  serializable old = true ->
  forallb (fun kv => serializable (snd kv)) entry = true ->
  serializable (Object_assign old entry) = true.
Proof.
  intros Ho He. unfold Object_assign.
  apply (obj_of_members_serializable (own_props old ++ entry)).
  rewrite forallb_app, He, andb_true_r. now apply own_props_serializable.
Qed.

Lemma forallb_lookup (P : value -> bool) (l : list value) (i : nat) (x : value) :
  forallb P l = true -> l !! i = Some x -> P x = true.
Proof.
  intros H Hx. rewrite forallb_forall in H. apply H.
  apply list_elem_of_In. now apply (list_elem_of_lookup_2 l i).
Qed.

Lemma forallb_insert (P : value -> bool) (l : list value) (i : nat) (y : value) :
  forallb P l = true -> P y = true -> forallb P (<[i := y]> l) = true.
Proof.
  revert i. induction l as [|x l IH]; intros i H Hy; [reflexivity|].
  simpl in H. apply andb_true_iff in H as [Hx H].
  destruct i; simpl; [now rewrite Hy, H | now rewrite Hx, IH].
Qed.

Lemma upsert_serializable (l : list value) (id : string) (entry : list (string * value)) :
  forallb serializable l = true ->
  forallb (fun kv => serializable (snd kv)) entry = true ->
  distinct (map fst entry) = true ->
  forallb serializable (upsert l id entry) = true.
Proof.
  intros Hl He Hd. unfold upsert.
  destruct (findIndex (has_id id) l) as [idx|].
  - destruct (l !! idx) as [old|] eqn:Eo; [|exact Hl].
    apply forallb_insert; [exact Hl|].
    apply Object_assign_serializable; [|exact He]. exact (forallb_lookup _ _ _ _ Hl Eo).
  - rewrite forallb_app, Hl. simpl. now rewrite He, Hd.
Qed.


Lemma display_name_serializable (state name : value) :
  display_name state = Ret name -> serializable name = true.
Proof.
  unfold display_name. destruct (truthy state); [|now intros [= <-]].
  destruct (get_prop state "__meta") as [meta|e]; [|discriminate]. cbn [obind].
  destruct (truthy_opt meta); [|now intros [= <-]].
  destruct (truthy_opt (get_prop_opt meta "name")); [|now intros [= <-]].
  destruct (get_prop_opt meta "name") as [n|]; [|now intros [= <-]].
  destruct (js_String n); [|discriminate]. now intros [= <-].
Qed.

(** * Runs on any world *)

(** ** One call *)

Lemma bind_ret {A B : Type} (m : M A) (k : A -> M B) (w w1 : world) (a : A) :
  m w = (Ret a, w1) -> bind m k w = k a w1.
Proof. unfold bind. now intros ->. Qed.

Lemma bind_throw {A B : Type} (m : M A) (k : A -> M B) (w w1 : world) (e : exn) :
  m w = (Throw e, w1) -> bind m k w = (Throw e, w1).
Proof. unfold bind. now intros ->. Qed.

Lemma bind_lift {A B : Type} (o : outcome A) (k : A -> M B) (w : world) :
  bind (lift o) k w = match o with Ret a => k a w | Throw e => (Throw e, w) end.
Proof. unfold bind, lift. now destruct o. Qed.

Lemma bind_date {B : Type} (k : string -> M B) (w : world) :
  bind Date_toISOString k w = k (now w) w.
Proof. reflexivity. Qed.

(** A call leaves every file but the one it names as it was, and a read
    leaves that one too. *)
Lemma fetch_any (rq : request) (w : world) :
  exists rs fs n,
    fetch rq w = (Ret rs, exchanged w rq rs fs n)
    /\ (rq_method rq = GET -> fs = files w /\ n = serial w)
    /\ (forall u, u <> resource (rq_url rq) -> fs !! u = files w !! u).
Proof.
  destruct (fault_at 0 w) as [r|] eqn:Hf.
  - exists r, (files w), (serial w). rewrite (fetch_fault _ _ _ Hf). auto.
  - rewrite (fetch_answer _ _ Hf).
    exists (fst (github rq w)), (files (snd (github rq w))), (serial (snd (github rq w))).
    split; [reflexivity|]. unfold github.
    destruct (rq_method rq).
    + split; [|intros u _]; destruct (files w !! resource (rq_url rq)); auto.
    + split; [discriminate|]. intros u Hu.
      destruct (body_field (rq_body rq) "content") as [[| | |b64| |]|]; try reflexivity.
      destruct (files w !! resource (rq_url rq)) as [f|];
        destruct (body_field (rq_body rq) "sha") as [[| | |given| |]|]; try reflexivity.
      * destruct (String.eqb given (f_sha f)); [|reflexivity].
        cbn [snd files with_files]. now apply lookup_insert_ne.
      * cbn [snd files with_files]. now apply lookup_insert_ne.
    + split; [discriminate|]. intros u Hu.
      destruct (files w !! resource (rq_url rq)) as [f|]; [|reflexivity].
      destruct (body_field (rq_body rq) "sha") as [[| | |given| |]|]; try reflexivity.
      destruct (String.eqb given (f_sha f)); [|reflexivity].
      cbn [snd files with_files]. now apply lookup_delete_ne.
Qed.

Lemma ghGetFile_any (cfg : config) (path : string) (w : world) :
  exists rs o w1,
    ghGetFile cfg path w = (o, w1)
    /\ w1 = exchanged w (get_request cfg path) rs (files w) (serial w)
    /\ get_case cfg path rs o.
Proof.
  unfold ghGetFile. fold (get_url cfg path). fold (get_request cfg path).
  destruct (fetch_any (get_request cfg path) w) as (rs & fs & n & E & Hget & _).
  destruct (Hget eq_refl) as [-> ->].
  rewrite (bind_ret _ _ _ _ _ E). exists rs.
  destruct (Z.eqb_spec (status rs) 404) as [H404|H404].
  { do 2 eexists. split; [reflexivity|]. split; [reflexivity|]. now split. }
  destruct (ok rs) eqn:Hok; cbn [negb].
  2: { do 2 eexists. split; [reflexivity|]. split; [reflexivity|]. now repeat split. }
  rewrite bind_lift. destruct (JSON_parse_or_throw (raw rs)) as [data|e].
  2: { do 2 eexists. split; [reflexivity|]. now split. }
  rewrite bind_lift. destruct (get_prop data "content") as [content|e].
  2: { do 2 eexists. split; [reflexivity|]. now split. }
  rewrite bind_lift. destruct (js_String (or_else content (VStr ""))) as [text|e].
  2: { do 2 eexists. split; [reflexivity|]. now split. }
  rewrite bind_lift. destruct (get_prop data "sha") as [sha|e].
  2: { do 2 eexists. split; [reflexivity|]. now split. }
  do 2 eexists. split; [reflexivity|]. split; [reflexivity|]. now split.
Qed.

Lemma get_extends (cfg : config) (path : string) (rs : response) (w : world) :
  extends_trace cfg path (get_request cfg path) rs w
    (exchanged w (get_request cfg path) rs (files w) (serial w)).
Proof.
  intros P w0 new T Hp. apply (trace_step cfg P w0 new w path); auto. constructor.
Qed.

Lemma put_outcome_any (url : string) (rs : response) (w : world) :
  exists o, put_outcome url rs w = (o, w) /\ put_case url rs o.
Proof.
  unfold put_outcome. destruct (ok rs) eqn:Hok; cbn [negb].
  2: { eexists. split; [reflexivity|]. now split. }
  rewrite bind_lift. destruct (JSON_parse_or_throw (raw rs)) as [data|e].
  2: { eexists. split; [reflexivity | exact Hok]. }
  rewrite bind_lift. destruct (get_prop data "content") as [content|e].
  2: { eexists. split; [reflexivity | exact Hok]. }
  rewrite bind_lift. destruct (get_prop data "commit") as [commit|e].
  2: { eexists. split; [reflexivity | exact Hok]. }
  eexists. split; [reflexivity|]. now split.
Qed.

Lemma ghPutFile_any cfg path message contentStr sha (w : world) :
  exists rs o w1,
    ghPutFile cfg path message contentStr sha w = (o, w1)
    /\ extends_trace cfg path (put_request cfg path message contentStr sha) rs w w1
    /\ put_case (contents_url cfg path) rs o.
Proof.
  rewrite ghPutFile_unfold.
  destruct (fetch_any (put_request cfg path message contentStr sha) w)
    as (rs & fs & n & E & _ & Hframe).
  rewrite (bind_ret _ _ _ _ _ E).
  destruct (put_outcome_any (contents_url cfg path) rs
              (exchanged w (put_request cfg path message contentStr sha) rs fs n))
    as (o & Eo & Ho).
  exists rs, o. eexists. split; [exact Eo|]. split; [|exact Ho].
  intros P w0 new T Hp. apply (trace_step cfg P w0 new w path); auto.
  - constructor.
  - discriminate.
  - intros u Hu. apply Hframe. cbn [rq_url put_request].
    now rewrite resource_contents_url.
Qed.

Lemma JSON_parse_empty_object : JSON_parse "{}" = Some (VObj []).
Proof. reflexivity. Qed.

Lemma ghDeleteFile_any cfg path sha (w : world) :
  exists rs o w1,
    ghDeleteFile cfg path sha w = (o, w1)
    /\ extends_trace cfg path (delete_request cfg path (now w) sha) rs w w1
    /\ delete_case (contents_url cfg path) rs o.
Proof.
  unfold ghDeleteFile. rewrite bind_date.
  fold (delete_request cfg path (now w) sha).
  destruct (fetch_any (delete_request cfg path (now w) sha) w)
    as (rs & fs & n & E & _ & Hframe).
  rewrite (bind_ret _ _ _ _ _ E). exists rs.
  assert (extends_trace cfg path (delete_request cfg path (now w) sha) rs w
            (exchanged w (delete_request cfg path (now w) sha) rs fs n)) as HT.
  { intros P w0 new T Hp. apply (trace_step cfg P w0 new w path); auto.
    - constructor.
    - discriminate.
    - intros u Hu. apply Hframe. cbn [rq_url delete_request].
      now rewrite resource_contents_url. }
  destruct (ok rs) eqn:Hok; cbn [negb].
  2: { do 2 eexists. split; [reflexivity|]. split; [exact HT|]. now split. }
  rewrite bind_lift.
  destruct (String.eqb_spec (raw rs) "") as [Hraw|Hraw].
  - rewrite JSON_parse_empty_object. cbn [get_prop].
    do 2 eexists. split; [reflexivity|]. split; [exact HT|]. now repeat split.
  - destruct (JSON_parse (raw rs)) as [[| | | | |]|] eqn:Ep; cbn [get_prop];
      do 2 eexists; (split; [reflexivity|]); (split; [exact HT|]);
      repeat split; try assumption; try reflexivity;
      intros Hp; first [reflexivity | congruence].
Qed.

Lemma loadManifest_any (cfg : config) (w : world) :
  exists rs o w1,
    loadManifest cfg w = (o, w1)
    /\ w1 = exchanged w (get_request cfg MANIFEST_PATH) rs (files w) (serial w)
    /\ manifest_case cfg rs o.
Proof.
  unfold loadManifest.
  destruct (ghGetFile_any cfg MANIFEST_PATH w) as (rs & o & w1 & E & Hw & Hc).
  exists rs. destruct o as [[e|u|sha c u]|e]; cbn [get_case] in Hc.
  - rewrite (bind_ret _ _ _ _ _ E). do 2 eexists. split; [reflexivity|]. now split.
  - rewrite (bind_ret _ _ _ _ _ E). do 2 eexists. split; [reflexivity|].
    split; [exact Hw|]. right. apply Hc.
  - rewrite (bind_ret _ _ _ _ _ E).
    destruct (JSON_parse (fromBase64 c)) as [[| | | |l|]|];
      do 2 eexists; (split; [reflexivity|]); (split; [exact Hw|]); left; apply Hc.
  - rewrite (bind_throw _ _ _ _ _ E). do 2 eexists. split; [reflexivity|]. now split.
Qed.

Lemma saveManifest_any cfg sha list (w : world) :
  exists rs o w1,
    saveManifest cfg sha list w = (o, w1)
    /\ extends_trace cfg MANIFEST_PATH
         (put_request cfg MANIFEST_PATH ("Update manifest (" +:+ now w +:+ ")")
            (JSON_stringify (VArr list) 2) sha) rs w w1
    /\ put_case (contents_url cfg MANIFEST_PATH) rs o.
Proof. rewrite saveManifest_unfold. apply ghPutFile_any. Qed.

(** ** What a run keeps *)

Lemma trace_log cfg P w new w' : trace cfg P w new w' -> log w' = new ++ log w.
Proof. induction 1 as [|new w1 path rq rs fs n _ IH]; simpl; [reflexivity | now rewrite IH]. Qed.

Lemma trace_now cfg P w new w' : trace cfg P w new w' -> now w' = now w.
Proof. induction 1; simpl; auto. Qed.

Lemma trace_faults cfg P w new w' :
  trace cfg P w new w' -> forall k, fault_at k w' = fault_at (k + length new) w.
Proof.
  induction 1 as [|new w1 path rq rs fs n _ IH]; intros k.
  - now rewrite Nat.add_0_r.
  - rewrite fault_at_exchanged, IH. simpl. f_equal. lia.
Qed.

Lemma trace_frame cfg P w new w' (u : string) :
  trace cfg P w new w' -> (forall path, P path -> u <> contents_url cfg path) ->
  files w' !! u = files w !! u.
Proof.
  intros T Hu. induction T as [|new w1 path rq rs fs n _ IH Hp _ _ Hframe]; [reflexivity|].
  cbn [files exchanged]. rewrite Hframe by now apply Hu. exact IH.
Qed.

Lemma trace_reads cfg P w new w' :
  trace cfg P w new w' -> Forall (fun ex => rq_method (fst ex) = GET) new ->
  files w' = files w.
Proof.
  induction 1 as [|new w1 path rq rs fs n _ IH _ _ Hget _]; intros Hall; [reflexivity|].
  apply Forall_cons in Hall as [Hrq Hall]. cbn [files exchanged].
  rewrite (Hget Hrq). now apply IH.
Qed.

Lemma trace_issued cfg P w new w' :
  trace cfg P w new w' ->
  Forall (fun ex => exists path, P path /\ issued cfg path (fst ex)) new.
Proof. induction 1; constructor; eauto. Qed.

(** ** The runs of the handler *)

Lemma handle_list_run cfg req w : outcome_ok cfg req w 1 false (handle_list cfg w).
Proof.
  assert (req_path req MANIFEST_PATH) as Hm by now left.
  unfold handle_list.
  destruct (loadManifest_any cfg w) as (rs & o & w1 & E & -> & Hc).
  pose proof (get_extends cfg MANIFEST_PATH rs w _ _ _ (trace_nil cfg _ w) Hm) as T1.
  destruct o as [[e|ex sha l]|e]; cbn [manifest_case] in Hc.
  - rewrite (bind_ret _ _ _ _ _ E). destruct Hc as (_ & Hok & ->). run_done.
  - rewrite (bind_ret _ _ _ _ _ E). run_done.
  - rewrite (bind_throw _ _ _ _ _ E). run_done.
Qed.

Lemma handle_get_run cfg req w :
  outcome_ok cfg req w 1 false (handle_get cfg (query_dash req) w).
Proof.
  unfold handle_get. destruct (safeDashId (query_dash req)) as [id|] eqn:Eid; [|run_done].
  assert (req_path req (dashboard_path id)) as Hp by (right; eauto).
  destruct (ghGetFile_any cfg (dashboard_path id) w) as (rs & o & w1 & E & -> & Hc).
  pose proof (get_extends cfg (dashboard_path id) rs w _ _ _ (trace_nil cfg _ w) Hp) as T1.
  destruct o as [[e|u|sha c u]|e]; cbn [get_case] in Hc.
  - rewrite (bind_ret _ _ _ _ _ E). destruct Hc as (_ & Hok & ->). run_done.
  - rewrite (bind_ret _ _ _ _ _ E). run_done.
  - rewrite (bind_ret _ _ _ _ _ E). rewrite bind_lift.
    destruct (JSON_parse_or_throw (fromBase64 c)); run_done.
  - rewrite (bind_throw _ _ _ _ _ E). run_done.
Qed.

Lemma post_manifest_any (cfg : config) (req : http_request) (id : string)
    (state commitUrl : value) (w0 w2 : world) (sofar : list (request * response)) :
  trace cfg (req_path req) w0 sofar w2 ->
  exists more,
    trace cfg (req_path req) w0 (more ++ sofar)
      (snd (post_manifest cfg id state commitUrl w2))
    /\ (length more <= 2)%nat
    /\ (more = [] -> status_code (fst (finish (post_manifest cfg id state commitUrl w2))) = 500)
    /\ answer_ok (more ++ sofar) (fst (finish (post_manifest cfg id state commitUrl w2))).
Proof.
  intros T0. assert (req_path req MANIFEST_PATH) as Hm by now left.
  unfold post_manifest.
  destruct (loadManifest_any cfg w2) as (rs3 & o3 & w3 & E3 & -> & C3).
  pose proof (get_extends cfg MANIFEST_PATH rs3 w2 _ _ _ T0 Hm) as T3.
  destruct o3 as [[e|ex sha l]|e]; cbn [manifest_case] in C3.
  - rewrite (bind_ret _ _ _ _ _ E3). destruct C3 as (_ & Hok & ->).
    exists [(get_request cfg MANIFEST_PATH, rs3)]. cbn [snd ret app].
    split; [exact T3|]. split; [simpl; lia|]. split; [discriminate|]. answer_done.
  - rewrite (bind_ret _ _ _ _ _ E3). rewrite bind_date, bind_lift.
    destruct (display_name state) as [name|e].
    2: { exists [(get_request cfg MANIFEST_PATH, rs3)]. cbn [snd app].
         split; [exact T3|]. split; [simpl; lia|]. split; [discriminate|]. answer_done. }
    match goal with
    | |- context [bind (saveManifest cfg ?s ?l) _ ?w] =>
        destruct (saveManifest_any cfg s l w) as (rs4 & o4 & w4 & E4 & T4 & C4)
    end.
    cbn [now exchanged] in E4, T4.
    specialize (T4 _ _ _ T3 Hm).
    destruct o4 as [[e|s4 c4 u4]|e]; cbn [put_case] in C4.
    + rewrite (bind_ret _ _ _ _ _ E4). destruct C4 as (Hok & ->).
      eexists [_; _]. cbn [snd ret app].
      split; [exact T4|]. split; [simpl; lia|]. split; [discriminate|]. answer_done.
    + rewrite (bind_ret _ _ _ _ _ E4).
      eexists [_; _]. cbn [snd ret app].
      split; [exact T4|]. split; [simpl; lia|]. split; [discriminate|]. answer_done.
    + rewrite (bind_throw _ _ _ _ _ E4).
      eexists [_; _]. cbn [snd app].
      split; [exact T4|]. split; [simpl; lia|]. split; [discriminate|]. answer_done.
  - rewrite (bind_throw _ _ _ _ _ E3).
    exists [(get_request cfg MANIFEST_PATH, rs3)]. cbn [snd app].
    split; [exact T3|]. split; [simpl; lia|]. split; [discriminate|]. answer_done.
Qed.

Lemma handle_post_run cfg req w :
  outcome_ok cfg req w 4 true (handle_post cfg (query_dash req) (body req) w).
Proof.
  destruct (safeDashId (query_dash req)) as [id|] eqn:Eid.
  2: { unfold handle_post. rewrite Eid. run_done. }
  rewrite (handle_post_unfold _ _ _ _ Eid).
  assert (req_path req (dashboard_path id)) as Hp by (right; eauto).
  rewrite bind_lift. destruct (payload_state (request_payload (body req))) as [state|e];
    [|run_done].
  destruct (ghGetFile_any cfg (dashboard_path id) w) as (rs1 & o1 & w1 & E1 & -> & C1).
  pose proof (get_extends cfg (dashboard_path id) rs1 w _ _ _ (trace_nil cfg _ w) Hp) as T1.
  destruct o1 as [existing|e].
  2: { rewrite (bind_throw _ _ _ _ _ E1). run_done. }
  rewrite (bind_ret _ _ _ _ _ E1).
  assert (forall r,
            r = post_write cfg id state existing
                  (exchanged w (get_request cfg (dashboard_path id)) rs1 (files w) (serial w)) ->
            outcome_ok cfg req w 4 true r) as Hwrite.
  { intros r ->. unfold post_write. rewrite bind_date.
    match goal with
    | |- context [bind (ghPutFile cfg ?p ?m ?c ?s) _ ?w] =>
        destruct (ghPutFile_any cfg p m c s w) as (rs2 & o2 & w2 & E2 & T2 & C2)
    end.
    specialize (T2 _ _ _ T1 Hp).
    destruct o2 as [[e|s2 c2 u2]|e]; cbn [put_case] in C2.
    - rewrite (bind_ret _ _ _ _ _ E2). destruct C2 as (Hok & ->).
      eexists. split; [exact T2|]. split; [simpl; lia|]. split; [discriminate|]. answer_done.
    - rewrite (bind_ret _ _ _ _ _ E2).
      destruct (post_manifest_any cfg req id state c2 w w2 _ T2) as (more & T & Hlen & _ & Ha).
      eexists. split; [exact T|]. split; [rewrite length_app; simpl; lia|].
      split; [discriminate | exact Ha].
    - rewrite (bind_throw _ _ _ _ _ E2).
      eexists. split; [exact T2|]. split; [simpl; lia|]. split; [discriminate|]. answer_done. }
  destruct existing as [e|u|sha c u]; cbn [get_case] in C1.
  - destruct C1 as (_ & Hok & ->). run_done.
  - now apply Hwrite.
  - now apply Hwrite.
Qed.

Lemma handle_delete_run cfg req w :
  outcome_ok cfg req w 4 true (handle_delete cfg (query_dash req) w).
Proof.
  unfold handle_delete. destruct (safeDashId (query_dash req)) as [id|] eqn:Eid; [|run_done].
  assert (req_path req (dashboard_path id)) as Hp by (right; eauto).
  assert (req_path req MANIFEST_PATH) as Hm by now left.
  destruct (ghGetFile_any cfg (dashboard_path id) w) as (rs1 & o1 & w1 & E1 & -> & C1).
  pose proof (get_extends cfg (dashboard_path id) rs1 w _ _ _ (trace_nil cfg _ w) Hp) as T1.
  destruct o1 as [[e|u|sha c u]|e]; cbn [get_case] in C1.
  - rewrite (bind_ret _ _ _ _ _ E1). destruct C1 as (_ & Hok & ->). run_done.
  - rewrite (bind_ret _ _ _ _ _ E1). run_done.
  - rewrite (bind_ret _ _ _ _ _ E1).
    match goal with
    | |- context [bind (ghDeleteFile cfg ?p ?s) _ ?w] =>
        destruct (ghDeleteFile_any cfg p s w) as (rs2 & o2 & w2 & E2 & T2 & C2)
    end.
    cbn [now exchanged] in E2, T2.
    specialize (T2 _ _ _ T1 Hp).
    destruct o2 as [[e|c2 u2]|e]; cbn [delete_case] in C2.
    + rewrite (bind_ret _ _ _ _ _ E2). destruct C2 as (Hok & ->).
      eexists. split; [exact T2|]. split; [simpl; lia|]. split; [discriminate|]. answer_done.
    + rewrite (bind_ret _ _ _ _ _ E2).
      destruct (loadManifest_any cfg w2) as (rs3 & o3 & w3 & E3 & -> & C3).
      pose proof (get_extends cfg MANIFEST_PATH rs3 w2 _ _ _ T2 Hm) as T3.
      destruct o3 as [[e|ex sha3 l]|e].
      * rewrite (bind_ret _ _ _ _ _ E3). cbv beta iota delta [bind ret].
        eexists. split; [exact T3|]. split; [simpl; lia|]. split; [discriminate|]. answer_done.
      * rewrite (bind_ret _ _ _ _ _ E3). cbv beta iota.
        match goal with
        | |- context [bind (bind (saveManifest cfg ?s ?l) _) _ ?w0] =>
            destruct (saveManifest_any cfg s l w0) as (rs4 & o4 & w4 & E4 & T4 & C4)
        end.
        cbn [now exchanged] in E4, T4.
        specialize (T4 _ _ _ T3 Hm).
        destruct o4 as [o4|e].
        -- rewrite (bind_ret _ _ _ _ _ (bind_ret _ _ _ _ _ E4)).
           eexists. split; [exact T4|]. split; [simpl; lia|]. split; [discriminate|].
           answer_done.
        -- rewrite (bind_throw _ _ _ _ _ (bind_throw _ _ _ _ _ E4)).
           eexists. split; [exact T4|]. split; [simpl; lia|]. split; [discriminate|].
           answer_done.
      * rewrite (bind_throw _ _ _ _ _ E3).
        eexists. split; [exact T3|]. split; [simpl; lia|]. split; [discriminate|]. answer_done.
    + rewrite (bind_throw _ _ _ _ _ E2).
      eexists. split; [exact T2|]. split; [simpl; lia|]. split; [discriminate|]. answer_done.
  - rewrite (bind_throw _ _ _ _ _ E1). run_done.
Qed.

Lemma dispatch_run cfg req w :
  outcome_ok cfg req w (budget req) (negb (String.eqb (method req) "GET"))
    (dispatch cfg req w).
Proof.
  unfold dispatch, budget.
  destruct (String.eqb (method req) "GET"); cbn [andb negb].
  - destruct (qparam_truthy (query_list req)); [apply handle_list_run | apply handle_get_run].
  - destruct (String.eqb (method req) "POST"); [apply handle_post_run|].
    destruct (String.eqb (method req) "DELETE"); [apply handle_delete_run|].
    run_done.
Qed.

Lemma code_ok_cases (new : list (request * response)) (res : http_response) :
  code_ok new res ->
  (status_code res = 200 \/ status_code res = 500)
  \/ ((status_code res = 400 \/ status_code res = 405) /\ new = [])
  \/ (status_code res = 502 /\ relays new res).
Proof.
  unfold code_ok. destruct (status_code res) as [|p|p]; try contradiction.
  do 10 (try (destruct p as [p|p|]; try contradiction)); auto.
Qed.

(** How the handler runs, on any world and for any request. *)
Lemma handler_run (env : environment) (req : http_request) (w : world) :
  exists new,
    trace (config_of env) (req_path req) w new (snd (handler env req w))
    /\ (length new <= budget req)%nat
    /\ (method req = "GET" -> Forall (fun ex => rq_method (fst ex) = GET) new)
    /\ (new <> [] -> configured env)
    /\ headers (fst (handler env req w)) = setCors
    /\ ((status_code (fst (handler env req w)) = 204
         /\ payload (fst (handler env req w)) = None /\ new = [])
        \/ ((exists b, payload (fst (handler env req w)) = Some (VObj b))
            /\ code_ok new (fst (handler env req w)))).
Proof.
  unfold handler.
  destruct (String.eqb (method req) "OPTIONS") eqn:Eo.
  { exists []. cbn [fst snd]. split; [constructor|]. split; [simpl; lia|].
    split; [intros; constructor|]. split; [intros Hne; now contradiction Hne|].
    split; [reflexivity|]. left. auto. }
  destruct (missing_vars env) as [|m ms] eqn:Em.
  2: { exists []. cbn [fst snd]. split; [constructor|]. split; [simpl; lia|].
       split; [intros; constructor|]. split; [intros Hne; now contradiction Hne|].
       split; [reflexivity|]. right. split; [eexists; reflexivity | exact I]. }
  destruct (includes "/" (repo (config_of env))) eqn:Er.
  { exists []. cbn [fst snd]. split; [constructor|]. split; [simpl; lia|].
    split; [intros; constructor|]. split; [intros Hne; now contradiction Hne|].
    split; [reflexivity|]. right. split; [eexists; reflexivity | reflexivity]. }
  destruct (dispatch_run (config_of env) req w) as (new & T & Hlen & Hget & Hh & Hb & Hc).
  assert (forall r : outcome http_response * world,
            (let (o, w') := r in
             match o with Ret res => (res, w') | Throw e => (unhandled e, w') end) = finish r)
    as Hfin by (intros [[res|e] w']; reflexivity).
  rewrite Hfin.
  assert (snd (finish (dispatch (config_of env) req w)) = snd (dispatch (config_of env) req w))
    as -> by (destruct (dispatch (config_of env) req w) as [[res|e] w']; reflexivity).
  exists new. split; [exact T|]. split; [exact Hlen|].
  split; [intros Hm; apply Hget; rewrite Hm; reflexivity|].
  split; [intros _; now split|]. split; [exact Hh|]. right. now split.
Qed.

(** ** Properties of every answer *)

(** X5. Whatever the environment, the request and the state of the host,
    the answer carries the three cross-origin headers, and it is either
    204 without a body or one of 200, 400, 405, 500 and 502 with a JSON
    object as body. *)
Theorem handler_answers (env : environment) (req : http_request) (w : world) :
  let res := fst (handler env req w) in
  headers res =
  [("Access-Control-Allow-Origin", "*");
   ("Access-Control-Allow-Headers", "Content-Type, Authorization");
   ("Access-Control-Allow-Methods", "GET, POST, DELETE, OPTIONS")]
  /\ ((status_code res = 204 /\ payload res = None)
      \/ ((exists b, payload res = Some (VObj b))
          /\ In (status_code res) [200; 400; 405; 500; 502])).
Proof.
  destruct (handler_run env req w) as (new & _ & _ & _ & _ & Hh & Hc).
  split; [exact Hh|].
  destruct Hc as [(H204 & Hp & _)|(Hp & Hc)]; [left; now split|].
  right. split; [exact Hp|].
  apply code_ok_cases in Hc as [[H|H]|[[[H|H] _]|[H _]]]; rewrite H; simpl; auto 10.
Qed.

(** X6. One request makes at most four calls to the host, and a [GET] at
    most one; the exchanges are only added to those made before. *)
Theorem handler_call_budget (env : environment) (req : http_request) (w : world) :
  exists new,
    log (snd (handler env req w)) = new ++ log w
    /\ (length new <= 4)%nat
    /\ (method req = "GET" -> (length new <= 1)%nat).
Proof.
  destruct (handler_run env req w) as (new & T & Hlen & _).
  exists new. split; [exact (trace_log _ _ _ _ _ T)|].
  unfold budget in Hlen. split.
  - destruct (String.eqb (method req) "GET"); lia.
  - intros Hm. rewrite Hm in Hlen. exact Hlen.
Qed.

Lemma issued_spec (cfg : config) (path : string) (rq : request) :
  issued cfg path rq ->
  resource (rq_url rq) = contents_url cfg path
  /\ In ("Authorization", "Bearer " +:+ token cfg) (rq_headers rq)
  /\ In ("X-GitHub-Api-Version", "2022-11-28") (rq_headers rq)
  /\ names_branch cfg rq.
Proof.
  intros [|message contentStr sha|stamp sha]; unfold names_branch;
    cbn [rq_url rq_method rq_headers rq_body get_request put_request delete_request].
  - rewrite resource_get_url. repeat split; simpl; auto.
  - rewrite resource_contents_url. repeat split; simpl; auto.
  - rewrite resource_contents_url. repeat split; simpl; auto.
    destruct sha; reflexivity.
Qed.

(** X7. Every call that a request makes goes to the contents resource of
    the manifest, or of the document of the id that the request names, in
    the repository of the environment; it carries the token and the
    version of the API, and it names the branch of the environment. *)
Theorem handler_calls_scoped (env : environment) (req : http_request) (w : world) :
  exists new,
    log (snd (handler env req w)) = new ++ log w
    /\ forall rq rs, (rq, rs) ∈ new ->
         (resource (rq_url rq) = manifest_url env
          \/ exists id, safeDashId (query_dash req) = Some id
                        /\ resource (rq_url rq) = document_url env id)
         /\ In ("Authorization", "Bearer " +:+ token (config_of env)) (rq_headers rq)
         /\ In ("X-GitHub-Api-Version", "2022-11-28") (rq_headers rq)
         /\ names_branch (config_of env) rq.
Proof.
  destruct (handler_run env req w) as (new & T & _).
  exists new. split; [exact (trace_log _ _ _ _ _ T)|].
  intros rq rs Hin. pose proof (trace_issued _ _ _ _ _ T) as Hall.
  rewrite Forall_forall in Hall. destruct (Hall _ Hin) as (path & Hp & Hi).
  cbn [fst] in Hi. destruct (issued_spec _ _ _ Hi) as (Hu & Ha & Hv & Hb).
  split; [|now repeat split]. rewrite Hu.
  destruct Hp as [->|(id & Hid & ->)]; [now left | right; now exists id].
Qed.

(** X8. A request leaves every file of the repository as it was, but for
    the manifest and the document of the id that it names. *)
Theorem handler_frame (env : environment) (req : http_request) (w : world) (u : string) :
  u <> manifest_url env ->
  (forall id, safeDashId (query_dash req) = Some id -> u <> document_url env id) ->
  files (snd (handler env req w)) !! u = files w !! u.
Proof.
  intros Hm Hd. destruct (handler_run env req w) as (new & T & _).
  apply (trace_frame _ _ _ _ _ _ T).
  intros path [->|(id & Hid & ->)]; [exact Hm | now apply Hd].
Qed.

(** X9. A [GET], of a dashboard or of the listing, changes no file,
    whatever the host answers. *)
Theorem reads_change_nothing (env : environment) (req : http_request) (w : world) :
  method req = "GET" -> files (snd (handler env req w)) = files w.
Proof.
  intros Hm. destruct (handler_run env req w) as (new & T & _ & Hget & _).
  exact (trace_reads _ _ _ _ _ T (Hget Hm)).
Qed.

(** X10. An answer 502 comes right after a call that the host answered
    outside 2xx: that exchange is the latest one, and the [details] of the
    answer are its stage, status, status text, URL and raw body. *)
Theorem bad_gateway_relays (env : environment) (req : http_request) (w : world) :
  status_code (fst (handler env req w)) = 502 ->
  exists rq rs rest,
    log (snd (handler env req w)) = (rq, rs) :: rest
    /\ ok rs = false
    /\ body_field (payload (fst (handler env req w))) "details"
       = Some (error_json {| stage := stage_of (rq_method rq); e_status := status rs;
                             e_statusText := statusText rs; e_url := rq_url rq;
                             e_raw := raw rs |}).
Proof.
  intros H502. destruct (handler_run env req w) as (new & T & _ & _ & _ & _ & Hc).
  destruct Hc as [(H204 & _)|(_ & Hc)]; [congruence|].
  apply code_ok_cases in Hc as [[H|H]|[[[H|H] _]|[_ Hr]]]; try congruence.
  destruct Hr as (rq & rs & rest & what & -> & Hok & ->).
  exists rq, rs, (rest ++ log w). split; [exact (trace_log _ _ _ _ _ T)|].
  split; [exact Hok | reflexivity].
Qed.

Lemma payload_state_of (b : option value) :
  (exists state, payload_state (request_payload b) = Ret state)
  \/ (exists e, payload_state (request_payload b) = Throw e).
Proof. destruct (payload_state (request_payload b)); eauto. Qed.

(** X11. The host is called, and the world changes, only for a request
    that passed every check: the environment is complete and names a
    repository without a slash; the method is [GET], [POST] or [DELETE];
    but for the listing, [safeDashId] accepts the id; and the body of a
    [POST] gives a state. *)
Theorem invalid_requests_make_no_call (env : environment) (req : http_request) (w : world) :
  snd (handler env req w) <> w ->
  configured env
  /\ ((method req = "GET" /\ qparam_truthy (query_list req) = true)
      \/ ((method req = "GET" \/ method req = "POST" \/ method req = "DELETE")
          /\ exists id, safeDashId (query_dash req) = Some id))
  /\ (method req = "POST" ->
      exists state, payload_state (request_payload (body req)) = Ret state).
Proof.
  unfold handler. intros H.
  destruct (String.eqb (method req) "OPTIONS"); [now contradiction H|].
  destruct (missing_vars env) as [|m ms] eqn:Em; [|now contradiction H].
  destruct (includes "/" (repo (config_of env))) eqn:Er; [now contradiction H|].
  split; [now split|]. unfold dispatch in *.
  destruct (String.eqb_spec (method req) "GET") as [Hg|Hg]; cbn [andb] in *.
  { split; [|intros Hp; rewrite Hp in Hg; discriminate].
    destruct (qparam_truthy (query_list req)); [now left|]. right.
    split; [now left|]. unfold handle_get in H.
    destruct (safeDashId (query_dash req)) as [id|]; [now exists id | now contradiction H]. }
  destruct (String.eqb_spec (method req) "POST") as [Hp|Hp].
  { unfold handle_post in H.
    destruct (safeDashId (query_dash req)) as [id|]; [|now contradiction H].
    split; [right; split; [auto | now exists id]|]. intros _.
    rewrite bind_lift in H.
    destruct (payload_state (request_payload (body req))) as [state|e];
      [now exists state | now contradiction H]. }
  destruct (String.eqb_spec (method req) "DELETE") as [Hd|Hd]; [|now contradiction H].
  split; [|intros Hp'; contradiction].
  right. split; [auto|]. unfold handle_delete in H.
  destruct (safeDashId (query_dash req)) as [id|]; [now exists id | now contradiction H].
Qed.

(** * Compositions *)

(** ** The client *)

(** The answer of the host to a write: it takes the write of a new file
    sent without hash, and of a file whose hash is the one sent; it
    refuses any other. *)
Lemma ghPutFile_answer cfg path message contentStr sha (w : world) :
  fault_at 0 w = None ->
  ghPutFile cfg path message contentStr sha w =
  let rq := put_request cfg path message contentStr sha in
  let url := contents_url cfg path in
  let taken code text :=
    (Ret (PutOk (VStr (blob_sha (serial w))) (VStr (commit_url (serial w))) url),
     exchanged w rq
       (answer code text (commit_json w (VObj [("sha", VStr (blob_sha (serial w)))])))
       (<[url := written w contentStr]> (files w)) (S (serial w))) in
  let refused code text :=
    (Ret (PutError (error_of "github_put" url (problem code text))),
     exchanged w rq (problem code text) (files w) (serial w)) in
  match files w !! url, (if truthy_opt sha then sha else None) with
  | None, None => taken 201 "Created"
  | Some f, Some (VStr given) =>
      if String.eqb given (f_sha f) then taken 200 "OK" else refused 409 "Conflict"
  | _, _ => refused 422 "Unprocessable Entity"
  end.
Proof.
  intros Hf. cbv zeta. rewrite ghPutFile_unfold. unfold bind.
  rewrite (fetch_answer _ _ Hf).
  unfold github. cbn [rq_method put_request rq_url rq_body].
  rewrite resource_contents_url, put_body_content, put_body_sha.
  fold (put_request cfg path message contentStr sha).
  destruct (files w !! contents_url cfg path) as [f|];
    destruct (if truthy_opt sha then sha else None) as [[| | |given| |]|];
    cbn [fst snd]; try (rewrite put_outcome_refused by reflexivity; reflexivity).
  - destruct (String.eqb given (f_sha f)); cbn [fst snd].
    + rewrite put_outcome_accepted by reflexivity.
      unfold written, toBase64. now rewrite base64_decode_encode.
    + rewrite put_outcome_refused by reflexivity. reflexivity.
  - rewrite put_outcome_accepted by reflexivity.
    unfold written, toBase64. now rewrite base64_decode_encode.
Qed.

(** On an honest world a read never throws. *)
Lemma ghGetFile_honest (cfg : config) (path : string) (w : world) :
  honest w ->
  exists existing rs,
    ghGetFile cfg path w =
    (Ret existing, exchanged w (get_request cfg path) rs (files w) (serial w)).
Proof.
  intros Hh. destruct (fault_at 0 w) as [r|] eqn:Hf.
  - rewrite (ghGetFile_fault _ _ _ _ Hf (honest_fault _ _ Hh Hf)). eauto.
  - rewrite (ghGetFile_answer _ _ _ Hf).
    destruct (files w !! contents_url cfg path); eauto.
Qed.

(** X12. A file that [ghPutFile] wrote, [ghGetFile] reads back: it finds
    the file, with the hash that the write returned and the base64 form of
    the text that was written, which [fromBase64] turns into that text. *)
Theorem ghPutFile_then_ghGetFile cfg path message contentStr sha
    (w w1 w2 : world) (s c : value) (u : string) :
  honest w ->
  ghPutFile cfg path message contentStr sha w = (Ret (PutOk s c u), w1) ->
  files w2 = files w1 -> fault_at 0 w2 = None ->
  exists b64,
    fst (ghGetFile cfg path w2) = Ret (GetFound (Some s) b64 (get_url cfg path))
    /\ fromBase64 b64 = contentStr.
Proof.
  intros Hh Hput Hfiles Hf.
  destruct (ghPutFile_cases cfg path message contentStr sha w Hh)
    as [(rs & _ & E)|(rs & _ & E)]; rewrite E in Hput; [discriminate|].
  injection Hput as <- _ _ <-.
  rewrite (ghGetFile_answer _ _ _ Hf), Hfiles. cbn [files exchanged].
  rewrite lookup_insert_eq. cbn [fst written f_sha f_content].
  eexists. split; [reflexivity|]. apply base64_decode_encode.
Qed.

(** X13. What [ghPutFile] sends and returns, on any world: one [PUT] to
    the contents URL of the file, whose body carries the text in base64
    and the hash only when one is known (a null or empty hash is left
    out); an answer outside 2xx gives the result [error] with the stage
    [github_put] and the status, status text, URL and raw body of the
    answer, and nothing else gives that result. *)
Theorem ghPutFile_outcomes cfg path message contentStr sha (w : world) :
  exists rq rs,
    log (snd (ghPutFile cfg path message contentStr sha w)) = (rq, rs) :: log w
    /\ rq_method rq = PUT /\ rq_url rq = contents_url cfg path
    /\ (exists b64, body_field (rq_body rq) "content" = Some (VStr b64)
                    /\ fromBase64 b64 = contentStr)
    /\ body_field (rq_body rq) "sha" = (if truthy_opt sha then sha else None)
    /\ (ok rs = false <->
        fst (ghPutFile cfg path message contentStr sha w) =
        Ret (PutError {| stage := "github_put"; e_status := status rs;
                         e_statusText := statusText rs; e_url := contents_url cfg path;
                         e_raw := raw rs |})).
Proof.
  destruct (ghPutFile_any cfg path message contentStr sha w) as (rs & o & w1 & E & T & C).
  exists (put_request cfg path message contentStr sha), rs. rewrite E. cbn [fst snd].
  split; [exact (trace_log _ _ _ _ _
                   (T (fun _ => True) w [] (trace_nil _ _ _) I))|].
  split; [reflexivity|]. split; [reflexivity|].
  split; [exists (toBase64 contentStr); split; [reflexivity | apply fromBase64_toBase64]|].
  split; [apply put_body_sha|].
  destruct o as [[e|s c u]|e]; cbn [put_case] in C.
  - destruct C as [Hok ->]. split; [reflexivity | intros _; exact Hok].
  - destruct C as [Hok _]. split; [congruence | discriminate].
  - split; [congruence | discriminate].
Qed.

(** X14. What [ghDeleteFile] sends and returns, on any world: one
    [DELETE] to the contents URL of the file, with the hash it was given;
    an answer outside 2xx gives the result [error] with the stage
    [github_delete]; an answer in 2xx gives the result [ok] even when its
    body is empty or is not JSON, the commit URL being null then. *)
Theorem ghDeleteFile_outcomes cfg path sha (w : world) :
  exists rq rs,
    log (snd (ghDeleteFile cfg path sha w)) = (rq, rs) :: log w
    /\ rq_method rq = DELETE /\ rq_url rq = contents_url cfg path
    /\ body_field (rq_body rq) "sha" = sha
    /\ (ok rs = false ->
        fst (ghDeleteFile cfg path sha w) =
        Ret (DeleteError {| stage := "github_delete"; e_status := status rs;
                            e_statusText := statusText rs; e_url := contents_url cfg path;
                            e_raw := raw rs |}))
    /\ (ok rs = true -> JSON_parse (raw rs) = None ->
        fst (ghDeleteFile cfg path sha w) = Ret (DeleteOk VNull (contents_url cfg path))).
Proof.
  destruct (ghDeleteFile_any cfg path sha w) as (rs & o & w1 & E & T & C).
  exists (delete_request cfg path (now w) sha), rs. rewrite E. cbn [fst snd].
  split; [exact (trace_log _ _ _ _ _
                   (T (fun _ => True) w [] (trace_nil _ _ _) I))|].
  split; [reflexivity|]. split; [reflexivity|]. split; [apply delete_request_sha|].
  destruct o as [[e|c u]|e]; cbn [delete_case] in C.
  - destruct C as [Hok ->]. split; [reflexivity | congruence].
  - destruct C as (Hok & -> & Hc). split; [congruence|]. intros _ Hp. now rewrite (Hc Hp).
  - destruct C as [Hok Hp]. split; congruence.
Qed.

(** ** The manifest *)

Lemma entries_at_files (cfg : config) (w w' : world) :
  files w' !! contents_url cfg MANIFEST_PATH = files w !! contents_url cfg MANIFEST_PATH ->
  entries_at cfg w' = entries_at cfg w.
Proof. unfold entries_at. now intros ->. Qed.

Lemma entries_at_serializable (cfg : config) (w : world) :
  forallb serializable (entries_at cfg w) = true.
Proof.
  unfold entries_at. destruct (files w !! contents_url cfg MANIFEST_PATH);
    [apply manifest_entries_serializable | reflexivity].
Qed.

Lemma loadManifest_honest (cfg : config) (w : world) :
  honest w ->
  exists rs,
    let w1 := exchanged w (get_request cfg MANIFEST_PATH) rs (files w) (serial w) in
    (exists e, loadManifest cfg w = (Ret (ManifestError e), w1))
    \/ (loadManifest cfg w = (Ret (Manifest false (Some VNull) []), w1)
        /\ (fault_at 0 w = None -> files w !! contents_url cfg MANIFEST_PATH = None))
    \/ (exists f,
          fault_at 0 w = None /\ files w !! contents_url cfg MANIFEST_PATH = Some f
          /\ loadManifest cfg w =
             (Ret (Manifest true (Some (VStr (f_sha f))) (manifest_entries (f_content f))),
              w1)).
Proof.
  intros Hh. destruct (fault_at 0 w) as [r|] eqn:Hf.
  - exists r. cbv zeta. rewrite (loadManifest_fault _ _ _ Hf (honest_fault _ _ Hh Hf)).
    destruct (status r =? 404); [right; left; split; [reflexivity | discriminate] | left; eauto].
  - rewrite (loadManifest_answer _ _ Hf).
    destruct (files w !! contents_url cfg MANIFEST_PATH) as [f|] eqn:Ef.
    + eexists. right. right. exists f. cbv zeta. auto.
    + eexists. right. left. cbv zeta. auto.
Qed.

(** A load of the manifest and a save that the host took, on an honest
    world: the list loaded is the one of the file, and the file then holds
    the list saved. *)
Lemma manifest_update_honest (cfg : config) (w2 w3 w4 : world)
    (ex : bool) (sha : option value) (l l' : list value) (s c : value) (u : string) :
  honest w2 ->
  loadManifest cfg w2 = (Ret (Manifest ex sha l), w3) ->
  saveManifest cfg (manifest_sha ex sha) l' w3 = (Ret (PutOk s c u), w4) ->
  l = entries_at cfg w2
  /\ exists sha',
       files w4 =
       <[contents_url cfg MANIFEST_PATH :=
           {| f_sha := sha'; f_content := JSON_stringify (VArr l') 2 |}]> (files w2).
Proof.
  intros Hh Hload Hsave. rewrite saveManifest_unfold in Hsave.
  destruct (loadManifest_honest cfg w2 Hh) as (rs & Hcases). cbv zeta in Hcases.
  set (w3' := exchanged w2 (get_request cfg MANIFEST_PATH) rs (files w2) (serial w2)) in *.
  assert (honest w3') as Hh3 by now apply honest_exchanged.
  assert (files w3' = files w2) as Hfiles by reflexivity.
  assert (forall sha0,
            ghPutFile cfg MANIFEST_PATH ("Update manifest (" +:+ now w3' +:+ ")")
              (JSON_stringify (VArr l') 2) sha0 w3' = (Ret (PutOk s c u), w4) ->
            fault_at 0 w3' = None) as Hnofault.
  { intros sha0 E. destruct (fault_at 0 w3') as [r|] eqn:Hf; [|reflexivity].
    rewrite (ghPutFile_fault _ _ _ _ _ _ _ Hf (honest_fault _ _ Hh3 Hf)) in E. discriminate. }
  destruct Hcases as [(e & E)|[(E & Hnone)|(f & Hf0 & Hfile & E)]];
    rewrite E in Hload; [discriminate | |];
    injection Hload as <- <- <- <-; pose proof (Hnofault _ Hsave) as Hf3;
    rewrite (ghPutFile_answer _ _ _ _ _ _ Hf3) in Hsave; cbv zeta in Hsave;
    rewrite Hfiles in Hsave; unfold entries_at.
  - cbn [manifest_sha truthy_opt truthy] in Hsave.
    destruct (files w2 !! contents_url cfg MANIFEST_PATH) as [f|]; [discriminate|].
    injection Hsave as _ _ _ <-. split; [reflexivity|]. eexists. reflexivity.
  - rewrite Hfile in *. cbn [manifest_sha truthy_opt truthy] in Hsave.
    destruct (String.eqb (f_sha f) ""); cbn [negb] in Hsave; [discriminate|].
    rewrite String.eqb_refl in Hsave.
    injection Hsave as _ _ _ <-. split; [reflexivity|]. eexists. reflexivity.
Qed.


(** X15. A list that [saveManifest] saved, [loadManifest] loads: the same
    entries in the same order, with the hash that the save returned. *)
Theorem saveManifest_then_loadManifest (cfg : config) (sha : option value)
    (list : list value) (w w1 w2 : world) (s c : value) (u : string) :
  honest w -> forallb serializable list = true ->
  saveManifest cfg sha list w = (Ret (PutOk s c u), w1) ->
  files w2 = files w1 -> fault_at 0 w2 = None ->
  fst (loadManifest cfg w2) = Ret (Manifest true (Some s) list).
Proof.
  intros Hh Hser Hsave Hfiles Hf. rewrite saveManifest_unfold in Hsave.
  destruct (ghPutFile_cases cfg MANIFEST_PATH ("Update manifest (" +:+ now w +:+ ")")
              (JSON_stringify (VArr list) 2) sha w Hh)
    as [(rs & _ & E)|(rs & _ & E)]; rewrite E in Hsave; [discriminate|].
  injection Hsave as <- _ _ <-.
  rewrite (loadManifest_answer _ _ Hf), Hfiles. cbn [files exchanged].
  rewrite lookup_insert_eq. cbn [fst written f_sha f_content].
  now rewrite manifest_entries_stringify.
Qed.

(** ** After a write *)

Lemma manifest_apart (env : environment) (id : string) (fs : gmap string file) (f : file) :
  id_pattern id = true ->
  <[document_url env id := f]> fs !! manifest_url env = fs !! manifest_url env.
Proof.
  intros Hpat. apply lookup_insert_ne. now apply document_not_manifest.
Qed.

(** The files after the write step of a [POST] that answered 200, on an
    honest world: the document and the manifest hold what was sent. *)
Lemma post_write_success (env : environment) (id : string) (state : value)
    (existing : get_result) (w w1 : world) :
  id_pattern id = true -> honest w1 -> files w1 = files w -> now w1 = now w ->
  status_code (fst (finish (post_write (config_of env) id state existing w1))) = 200 ->
  exists name sha sha',
    display_name state = Ret name
    /\ files (snd (post_write (config_of env) id state existing w1)) =
       <[manifest_url env :=
           {| f_sha := sha';
              f_content :=
                JSON_stringify
                  (VArr (upsert (listing env w) id
                           [("id", VStr id); ("name", name); ("updatedAt", VStr (now w))]))
                  2 |}]>
         (<[document_url env id :=
              {| f_sha := sha; f_content := JSON_stringify state 2 |}]> (files w)).
Proof.
  intros Hpat Hh1 Hfiles Hnow. unfold post_write. rewrite bind_date.
  match goal with
  | |- context [bind (ghPutFile ?cfg ?p ?m ?c ?s) _ ?w0] =>
      destruct (ghPutFile_cases cfg p m c s w0 Hh1) as [(rs2 & _ & E2)|(rs2 & _ & E2)]
  end; rewrite (bind_ret _ _ _ _ _ E2); [discriminate|].
  set (w2 := exchanged w1 _ rs2 _ _).
  assert (honest w2) as Hh2 by now apply honest_exchanged.
  unfold post_manifest.
  destruct (loadManifest_cases (config_of env) w2 Hh2) as (res & rs3 & E3 & _).
  rewrite (bind_ret _ _ _ _ _ E3).
  destruct res as [e|ex sha3 l]; [discriminate|].
  rewrite bind_date, bind_lift.
  destruct (display_name state) as [name|e]; [|discriminate].
  set (w3 := exchanged w2 _ rs3 _ _) in *.
  assert (honest w3) as Hh3 by now apply honest_exchanged.
  assert (now w3 = now w) as -> by exact Hnow.
  set (l' := upsert l id _).
  destruct (saveManifest (config_of env) (manifest_sha ex sha3) l' w3) as [[[e|s4 c4 u4]|e] w4]
    eqn:E4.
  - rewrite (bind_ret _ _ _ _ _ E4). discriminate.
  - rewrite (bind_ret _ _ _ _ _ E4). intros _.
    destruct (manifest_update_honest _ _ _ _ _ _ _ _ _ _ _ Hh2 E3 E4) as (Hl & sha' & Hw4).
    exists name, (blob_sha (serial w1)), sha'. split; [reflexivity|].
    cbn [snd ret]. rewrite Hw4. unfold l'. rewrite Hl.
    assert (entries_at (config_of env) w2 = listing env w) as ->.
    { unfold listing. apply entries_at_files. unfold w2. cbn [files exchanged].
      rewrite Hfiles. now apply (manifest_apart env). }
    unfold w2. cbn [files exchanged]. now rewrite Hfiles.
  - rewrite (bind_throw _ _ _ _ _ E4). discriminate.
Qed.

Lemma post_success (env : environment) (req : http_request) (w : world)
    (id : string) (props : list (string * value)) (state : value) :
  configured env -> method req = "POST" ->
  safeDashId (query_dash req) = Some id ->
  body req = Some (VObj props) -> obj_lookup props "state" = Some state ->
  honest w ->
  status_code (fst (handler env req w)) = 200 ->
  exists name sha sha',
    display_name state = Ret name
    /\ files (snd (handler env req w)) =
       <[manifest_url env :=
           {| f_sha := sha';
              f_content :=
                JSON_stringify
                  (VArr (upsert (listing env w) id
                           [("id", VStr id); ("name", name); ("updatedAt", VStr (now w))]))
                  2 |}]>
         (<[document_url env id :=
              {| f_sha := sha; f_content := JSON_stringify state 2 |}]> (files w)).
Proof.
  intros Hc Hm Hid Hb Hs Hh.
  pose proof (safeDashId_pattern _ _ Hid) as Hpat.
  rewrite handler_post by assumption.
  rewrite (handle_post_unfold _ _ _ _ Hid), Hb.
  cbn [request_payload payload_state]. rewrite Hs, bind_lift.
  destruct (ghGetFile_honest (config_of env) (dashboard_path id) w Hh) as (existing & rs1 & E1).
  rewrite (bind_ret _ _ _ _ _ E1).
  set (w1 := exchanged w _ rs1 _ _).
  assert (honest w1) as Hh1 by now apply honest_exchanged.
  assert (forall r : outcome http_response * world, snd (finish r) = snd r) as Hsnd
    by (intros [[res|e] w']; reflexivity).
  rewrite Hsnd.
  destruct existing as [e|u|sha c u]; [discriminate| |];
    now apply (post_write_success env id state _ w w1).
Qed.

Lemma list_answer (env : environment) (req : http_request) (w : world) :
  configured env -> method req = "GET" -> qparam_truthy (query_list req) = true ->
  fault_at 0 w = None ->
  fst (handler env req w) = json 200 [("dashboards", VArr (listing env w))].
Proof.
  intros Hc Hm Hl Hf. rewrite handler_list by assumption.
  unfold handle_list, bind. rewrite (loadManifest_answer _ _ Hf).
  unfold listing, entries_at.
  destruct (files w !! contents_url (config_of env) MANIFEST_PATH); reflexivity.
Qed.

Lemma upsert_has_entry (l : list value) (id : string) (name : value) (stamp : string) :
  exists x,
    x ∈ upsert l id [("id", VStr id); ("name", name); ("updatedAt", VStr stamp)]
    /\ get_prop_opt (Some x) "id" = Some (VStr id)
    /\ get_prop_opt (Some x) "name" = Some name
    /\ get_prop_opt (Some x) "updatedAt" = Some (VStr stamp).
Proof.
  unfold upsert. destruct (findIndex (has_id id) l) as [idx|] eqn:E.
  - destruct (findIndex_Some _ _ _ E) as (old & Hold & _). rewrite Hold.
    eexists. split.
    + apply (list_elem_of_lookup_2 _ idx). apply list_lookup_insert_eq.
      now apply lookup_lt_Some in Hold.
    + unfold Object_assign. cbn [get_prop_opt].
      rewrite fold_left_app. cbn [fold_left fst snd].
      now rewrite !obj_lookup_set.
  - eexists. split; [apply elem_of_app; right; apply list_elem_of_singleton; reflexivity|].
    repeat split.
Qed.

(** X16. After a [POST] that answered 200, the listing shows the entries
    it showed before with the entry of the id upserted: replaced where it
    was, or added at the end. That entry carries the id, the name derived
    from the state and the time of the write. *)
Theorem post_then_list (env : environment) (req lreq : http_request) (w w'' : world)
    (id : string) (props : list (string * value)) (state : value) :
  configured env -> method req = "POST" ->
  safeDashId (query_dash req) = Some id ->
  body req = Some (VObj props) -> obj_lookup props "state" = Some state ->
  honest w ->
  status_code (fst (handler env req w)) = 200 ->
  method lreq = "GET" -> qparam_truthy (query_list lreq) = true ->
  files w'' = files (snd (handler env req w)) -> fault_at 0 w'' = None ->
  exists name x,
    display_name state = Ret name
    /\ fst (handler env lreq w'') =
       json 200
         [("dashboards",
           VArr (upsert (listing env w) id
                   [("id", VStr id); ("name", name); ("updatedAt", VStr (now w))]))]
    /\ x ∈ upsert (listing env w) id
             [("id", VStr id); ("name", name); ("updatedAt", VStr (now w))]
    /\ get_prop_opt (Some x) "id" = Some (VStr id)
    /\ get_prop_opt (Some x) "name" = Some name
    /\ get_prop_opt (Some x) "updatedAt" = Some (VStr (now w)).
Proof.
  intros Hc Hm Hid Hb Hs Hh H200 Hlm Hll Hfiles Hf.
  destruct (post_success env req w id props state Hc Hm Hid Hb Hs Hh H200)
    as (name & sha & sha' & Hname & Hw').
  destruct (upsert_has_entry (listing env w) id name (now w)) as (x & Hx).
  exists name, x. split; [exact Hname|]. split; [|exact Hx].
  rewrite (list_answer env lreq w'' Hc Hlm Hll Hf).
  unfold listing at 1, entries_at. fold (manifest_url env).
  rewrite Hfiles, Hw', lookup_insert_eq. cbn [f_content].
  rewrite manifest_entries_stringify; [reflexivity|].
  apply upsert_serializable; [apply entries_at_serializable | | reflexivity].
  cbn [forallb snd serializable]. now rewrite (display_name_serializable _ _ Hname).
Qed.

(** ** Missing documents *)

Lemma not_found_not_ok (r : response) : status r = 404 -> ok r = false.
Proof. unfold ok. now intros ->. Qed.

Lemma ghGetFile_missing (cfg : config) (path : string) (w : world) :
  (fault_at 0 w = None /\ files w !! contents_url cfg path = None)
  \/ (exists r, fault_at 0 w = Some r /\ status r = 404) ->
  exists rs,
    ghGetFile cfg path w =
    (Ret (GetMissing (get_url cfg path)),
     exchanged w (get_request cfg path) rs (files w) (serial w)).
Proof.
  intros [[Hf Hnone]|(r & Hf & H404)].
  - rewrite (ghGetFile_answer _ _ _ Hf), Hnone. eauto.
  - rewrite (ghGetFile_fault _ _ _ _ Hf (not_found_not_ok r H404)), H404. eauto.
Qed.

(** X17. The read of an id whose document the host does not have, or
    answers 404 for, is not an error: the answer is 200 with a null state
    and [exists: false], after the one read, and no file changes. *)
Theorem get_missing_document (env : environment) (req : http_request)
    (w : world) (id : string) :
  configured env -> method req = "GET" -> qparam_truthy (query_list req) = false ->
  safeDashId (query_dash req) = Some id ->
  (fault_at 0 w = None /\ files w !! document_url env id = None)
  \/ (exists r, fault_at 0 w = Some r /\ status r = 404) ->
  exists rs,
    handler env req w =
    (json 200 [("state", VNull); ("exists", VBool false)],
     exchanged w (get_request (config_of env) (dashboard_path id)) rs (files w) (serial w)).
Proof.
  intros Hc Hm Hl Hid Hmiss.
  rewrite handler_get by assumption. unfold handle_get. rewrite Hid.
  destruct (ghGetFile_missing (config_of env) (dashboard_path id) w Hmiss) as (rs & E).
  rewrite (bind_ret _ _ _ _ _ E). now exists rs.
Qed.

(** ** After a delete *)

(** X18. Once a delete has removed the document of an id, a read of the id
    answers [exists: false] with a null state, and a second delete of the
    id answers [{ok: true, deleted: false}] after its read alone: deleting
    twice is harmless. *)
Theorem delete_then_get (env : environment) (req greq dreq : http_request)
    (w w'' : world) (id : string) (f : file) :
  configured env -> method req = "DELETE" ->
  safeDashId (query_dash req) = Some id -> honest w ->
  files w !! document_url env id = Some f ->
  fault_at 0 w = None -> fault_at 1 w = None ->
  files w'' = files (snd (handler env req w)) -> fault_at 0 w'' = None ->
  method greq = "GET" -> qparam_truthy (query_list greq) = false ->
  safeDashId (query_dash greq) = Some id ->
  method dreq = "DELETE" -> safeDashId (query_dash dreq) = Some id ->
  fst (handler env greq w'') = json 200 [("state", VNull); ("exists", VBool false)]
  /\ fst (handler env dreq w'') = json 200 [("ok", VBool true); ("deleted", VBool false)]
  /\ log (snd (handler env dreq w''))
     = (get_request (config_of env) (dashboard_path id), problem 404 "Not Found") :: log w''.
Proof.
  intros Hc Hm Hid Hh Hfile Hf0 Hf1 Hfiles Hf'' Hgm Hgl Hgid Hdm Hdid.
  destruct (delete_existing_run env req w id f Hc Hm Hid Hh Hfile Hf0 Hf1) as (w' & E & Hgone).
  rewrite E in Hfiles. cbn [snd] in Hfiles.
  assert (files w'' !! contents_url (config_of env) (dashboard_path id) = None) as Hnone
    by (rewrite Hfiles; exact Hgone).
  split; [|split].
  - rewrite handler_get by assumption. unfold handle_get, bind. rewrite Hgid.
    now rewrite (ghGetFile_answer _ _ _ Hf''), Hnone.
  - rewrite handler_delete by assumption. unfold handle_delete, bind. rewrite Hdid.
    now rewrite (ghGetFile_answer _ _ _ Hf''), Hnone.
  - rewrite handler_delete by assumption. unfold handle_delete, bind. rewrite Hdid.
    now rewrite (ghGetFile_answer _ _ _ Hf''), Hnone.
Qed.



(** ** Concurrent writers *)

(** X20. When the document has changed since the read that precedes the
    write, so that the hash read is no longer the hash of the file, the
    host refuses the write: the [POST] answers 502 with the details of a
    409, and the document keeps the content of the other writer. *)
Theorem stale_write_refused (env : environment) (id : string) (state : value)
    (seen : string) (contentB64 url : string) (w1 : world) (f : file) :
  id_pattern id = true -> seen <> "" ->
  files w1 !! document_url env id = Some f -> f_sha f <> seen ->
  fault_at 0 w1 = None ->
  let r := finish (post_write (config_of env) id state
                     (GetFound (Some (VStr seen)) contentB64 url) w1) in
  status_code (fst r) = 502
  /\ body_field (payload (fst r)) "error" = Some (VStr "GitHub PUT failed")
  /\ body_field (payload (fst r)) "details"
     = Some (error_json (error_of "github_put" (document_url env id) (problem 409 "Conflict")))
  /\ files (snd r) = files w1.
Proof.
  intros Hpat Hseen Hfile Hsha Hf. cbv zeta. unfold post_write. rewrite bind_date.
  match goal with
  | |- context [bind (ghPutFile ?cfg ?p ?m ?c ?s) _ ?w0] =>
      pose proof (ghPutFile_answer cfg p m c s w0 Hf) as E
  end.
  cbv zeta in E. unfold document_url in *. rewrite Hfile in E.
  cbn [known_sha truthy_opt truthy] in E.
  destruct (String.eqb_spec seen "") as [E0|_]; [contradiction|]. cbn [negb] in E.
  destruct (String.eqb_spec seen (f_sha f)) as [E0|_]; [now contradiction Hsha|].
  rewrite (bind_ret _ _ _ _ _ E). cbn [fst snd finish ret]. repeat split.
Qed.

(** ** The body of a write *)

(** X21. A [POST] whose body is a text that parses to [null] answers 500
    through the catch-all, before any call to the host; a body that is
    absent, empty or not JSON, or an object without a [state], gives the
    state [null] and no error. *)
Theorem post_null_body (env : environment) (req : http_request) (w : world)
    (id : string) (s : string) :
  configured env -> method req = "POST" ->
  safeDashId (query_dash req) = Some id ->
  (body req = Some (VStr s) -> JSON_parse s = Some VNull ->
   status_code (fst (handler env req w)) = 500
   /\ body_field (payload (fst (handler env req w))) "error" = Some (VStr "Unhandled")
   /\ snd (handler env req w) = w)
  /\ (body req = None \/ (body req = Some (VStr s) /\ JSON_parse s = None)
      \/ (exists props, body req = Some (VObj props) /\ obj_lookup props "state" = None) ->
      payload_state (request_payload (body req)) = Ret VNull).
Proof.
  intros Hc Hm Hid. split.
  - intros Hb Hp. rewrite handler_post by assumption.
    rewrite (handle_post_unfold _ _ _ _ Hid), Hb.
    assert (request_payload (Some (VStr s)) = VNull) as ->.
    { unfold request_payload. cbn [truthy js_String].
      destruct (String.eqb_spec s "") as [->|_]; [discriminate Hp|].
      cbn [negb]. now rewrite Hp. }
    rewrite bind_lift. cbn [payload_state fst snd finish]. repeat split.
  - intros [Hb|[[Hb Hp]|(props & Hb & Hs)]]; rewrite Hb.
    + reflexivity.
    + unfold request_payload. cbn [truthy js_String].
      destruct (String.eqb s ""); cbn [negb]; [reflexivity|]. now rewrite Hp.
    + cbn [request_payload payload_state]. now rewrite Hs.
Qed.

(** * More concrete runs *)

(** X2, at a concrete input: an id between spaces. *)
Lemma safeDashId_normal_form_witness :
  safeDashId (Some (QStr "team-42")) = Some "team-42"
  /\ encodeGitHubPath (dashboard_path "team-42") = dashboard_path "team-42".
Proof.
  destruct (safeDashId_normal_form (Some (QStr "  team-42 ")) "team-42") as (_ & H1 & H2).
  - vm_compute; reflexivity.
  - split; assumption.
Defined.

(** X3, at a concrete input: two ids that differ in one letter. *)
Lemma documents_apart_witness :
  contents_url (config_of example_env) (dashboard_path "abc")
  <> contents_url (config_of example_env) (dashboard_path "abd").
Proof.
  apply (documents_apart (config_of example_env) (Some (QStr "abc")) (Some (QStr "abd"))
           "abc" "abd").
  - vm_compute; reflexivity.
  - vm_compute; reflexivity.
  - discriminate.
Defined.

(** X4, at a concrete input: a text with characters outside ASCII, folded
    after its second character. *)
Lemma base64_round_trip_witness :
  fromBase64 (toBase64 example_text) = example_text
  /\ fromBase64 (wrap_lines 58 (toBase64 example_text)) = example_text.
Proof.
  destruct (base64_round_trip example_text 58) as (H1 & _ & H3).
  - vm_compute; reflexivity.
  - split; assumption.
Defined.

(** What [well_formed_utf8] leaves out: the surrogate that [JSON.parse]
    reads from an escape that stands alone. *)
Remark lone_surrogate_not_well_formed :
  exists s,
    JSON_parse (String QUOTE ("\ud800" +:+ String QUOTE EmptyString)) = Some (VStr s)
    /\ well_formed_utf8 s = false.
Proof. eexists. split; vm_compute; reflexivity. Qed.

(** X8, at a concrete input: a write of [abc] leaves the document of [xyz]
    alone. *)
Lemma handler_frame_witness :
  files (snd (handler example_env (post_of "abc" example_state) manifest_world))
    !! document_url example_env "xyz"
  = files manifest_world !! document_url example_env "xyz".
Proof.
  apply handler_frame.
  - apply String.eqb_neq. vm_compute; reflexivity.
  - intros id H. vm_compute in H. injection H as <-.
    apply String.eqb_neq. vm_compute; reflexivity.
Defined.

(** X9, at a concrete input: the read of a document. *)
Lemma reads_change_nothing_witness :
  files (snd (handler example_env (get_of "abc") manifest_world)) = files manifest_world.
Proof. apply reads_change_nothing. reflexivity. Defined.

(** X10, at a concrete input: the host is down when a document is read. *)
Lemma bad_gateway_relays_witness :
  exists rq rs rest,
    log (snd (handler example_env (get_of "abc") down_world)) = (rq, rs) :: rest
    /\ ok rs = false
    /\ body_field (payload (fst (handler example_env (get_of "abc") down_world))) "details"
       = Some (error_json {| stage := stage_of (rq_method rq); e_status := status rs;
                             e_statusText := statusText rs; e_url := rq_url rq;
                             e_raw := raw rs |}).
Proof. apply bad_gateway_relays. vm_compute; reflexivity. Defined.

(** X11, at a concrete input: the read of a document calls the host. *)
Lemma invalid_requests_make_no_call_witness :
  configured example_env
  /\ exists id, safeDashId (query_dash (get_of "abc")) = Some id.
Proof.
  destruct (invalid_requests_make_no_call example_env (get_of "abc") manifest_world)
    as (Hc & [[_ Hl]|[_ Hid]] & _).
  - intros E. apply (f_equal log) in E. vm_compute in E. discriminate E.
  - discriminate Hl.
  - split; assumption.
Defined.

(** X12, at a concrete input: a new file whose path has a space. *)
Lemma ghPutFile_then_ghGetFile_witness :
  exists b64,
    fst (ghGetFile (config_of example_env) "notes/a b.txt" (snd (example_put empty_world)))
    = Ret (GetFound (Some (VStr "blob0")) b64
             (get_url (config_of example_env) "notes/a b.txt"))
    /\ fromBase64 b64 = "hello".
Proof.
  apply (ghPutFile_then_ghGetFile (config_of example_env) "notes/a b.txt" "Add notes"
           "hello" None empty_world (snd (example_put empty_world))
           (snd (example_put empty_world)) (VStr "blob0")
           (VStr "https://github.com/commit/0")
           (contents_url (config_of example_env) "notes/a b.txt")).
  - constructor.
  - vm_compute; reflexivity.
  - reflexivity.
  - reflexivity.
Defined.

(** X15, at a concrete input: a manifest of two entries. *)
Lemma saveManifest_then_loadManifest_witness :
  fst (loadManifest (config_of example_env)
         (snd (saveManifest (config_of example_env) None example_manifest empty_world)))
  = Ret (Manifest true (Some (VStr "blob0")) example_manifest).
Proof.
  apply (saveManifest_then_loadManifest (config_of example_env) None example_manifest
           empty_world
           (snd (saveManifest (config_of example_env) None example_manifest empty_world))
           _ (VStr "blob0") (VStr "https://github.com/commit/0")
           (contents_url (config_of example_env) MANIFEST_PATH)).
  - constructor.
  - reflexivity.
  - vm_compute; reflexivity.
  - reflexivity.
  - reflexivity.
Defined.

(** X16, at a concrete input: the first write to an empty repository. *)
Lemma post_then_list_witness :
  fst (handler example_env list_all
         (settle (snd (handler example_env (post_of "abc" example_state) empty_world))))
  = json 200
      [("dashboards",
        VArr [VObj [("id", VStr "abc"); ("name", VStr "Sprint 12");
                    ("updatedAt", VStr "2024-05-01T10:00:00.000Z")]])].
Proof.
  destruct (post_then_list example_env (post_of "abc" example_state) list_all empty_world
              (settle (snd (handler example_env (post_of "abc" example_state) empty_world)))
              "abc" [("state", example_state)] example_state)
    as (name & x & Hname & Hlist & _).
  - exact example_env_configured.
  - reflexivity.
  - vm_compute; reflexivity.
  - reflexivity.
  - reflexivity.
  - constructor.
  - vm_compute; reflexivity.
  - reflexivity.
  - reflexivity.
  - reflexivity.
  - reflexivity.
  - vm_compute in Hname. injection Hname as <-. rewrite Hlist. reflexivity.
Defined.

(** X17, at a concrete input: an id that was never written. *)
Lemma get_missing_document_witness :
  exists rs,
    handler example_env (get_of "zzz") empty_world =
    (json 200 [("state", VNull); ("exists", VBool false)],
     exchanged empty_world (get_request (config_of example_env) (dashboard_path "zzz")) rs
       (files empty_world) (serial empty_world)).
Proof.
  apply (get_missing_document example_env (get_of "zzz") empty_world "zzz"
           example_env_configured eq_refl eq_refl ltac:(vm_compute; reflexivity)).
  left. split; reflexivity.
Defined.

(** X18, at a concrete input: the document of [abc] is deleted, read and
    deleted again. *)
Lemma delete_then_get_witness :
  fst (handler example_env (get_of "abc")
         (settle (snd (handler example_env (delete_of "abc") quiet_world))))
  = json 200 [("state", VNull); ("exists", VBool false)]
  /\ fst (handler example_env (delete_of "abc")
            (settle (snd (handler example_env (delete_of "abc") quiet_world))))
     = json 200 [("ok", VBool true); ("deleted", VBool false)].
Proof.
  destruct (delete_then_get example_env (delete_of "abc") (get_of "abc") (delete_of "abc")
              quiet_world (settle (snd (handler example_env (delete_of "abc") quiet_world)))
              "abc" example_document)
    as (Hget & Hdel & _).
  - exact example_env_configured.
  - reflexivity.
  - vm_compute; reflexivity.
  - constructor.
  - vm_compute; reflexivity.
  - reflexivity.
  - reflexivity.
  - reflexivity.
  - reflexivity.
  - reflexivity.
  - reflexivity.
  - vm_compute; reflexivity.
  - reflexivity.
  - vm_compute; reflexivity.
  - split; assumption.
Defined.


(** X20, at a concrete input: the document of [abc] was read with the hash
    [blob7] and has the hash [blob9] when the write comes. *)
Lemma stale_write_refused_witness :
  let r := finish (post_write (config_of example_env) "abc" example_state
                     (GetFound (Some (VStr "blob7")) "" "") rewritten_world) in
  status_code (fst r) = 502 /\ files (snd r) = files rewritten_world.
Proof.
  destruct (stale_write_refused example_env "abc" example_state "blob7" "" ""
              rewritten_world {| f_sha := "blob9"; f_content := "{}" |})
    as (H1 & _ & _ & H2).
  - reflexivity.
  - discriminate.
  - vm_compute; reflexivity.
  - discriminate.
  - reflexivity.
  - split; assumption.
Defined.

(** X21, at a concrete input: the body is the text [null]. *)
Lemma post_null_body_witness :
  let req := {| method := "POST"; query_dash := Some (QStr "abc"); query_list := None;
                body := Some (VStr "null") |} in
  status_code (fst (handler example_env req empty_world)) = 500
  /\ snd (handler example_env req empty_world) = empty_world.
Proof.
  destruct (post_null_body example_env
              {| method := "POST"; query_dash := Some (QStr "abc"); query_list := None;
                 body := Some (VStr "null") |} empty_world "abc" "null")
    as (H & _).
  - exact example_env_configured.
  - reflexivity.
  - vm_compute; reflexivity.
  - destruct H as (H1 & _ & H2); [reflexivity | vm_compute; reflexivity |].
    split; assumption.
Defined.

(** * The Azure DevOps proxy *)

Lemma ado_handler_accepted ADO_PAT req org project queryId pat upstream :
  ado_accepted ADO_PAT req org project queryId pat ->
  Ado.handler ADO_PAT req upstream =
  (Ret (fst (Ado.query org project queryId pat upstream)),
   snd (Ado.query org project queryId pat upstream)).
Proof.
  intros (Hm & Hf & Ho & Hp & Hq & Ht). unfold Ado.handler. rewrite Hm, Hf.
  cbn [String.eqb Ascii.eqb Bool.eqb negb].
  destruct (String.eqb_spec org ""); [contradiction|].
  destruct (String.eqb_spec project ""); [contradiction|].
  destruct (String.eqb_spec queryId ""); [contradiction|].
  destruct (String.eqb_spec pat ""); [contradiction|].
  cbn [orb]. now destruct (Ado.query org project queryId pat upstream).
Qed.

(** The handler answers by itself, or it runs the query of an accepted
    request. *)
Lemma ado_handler_cases ADO_PAT req upstream :
  (snd (Ado.handler ADO_PAT req upstream) = []
   /\ ((exists e, fst (Ado.handler ADO_PAT req upstream) = Throw e)
       \/ fst (Ado.handler ADO_PAT req upstream)
          = Ret {| status_code := 204; headers := Ado.setCors; payload := None |}
       \/ exists c b, (c = 400 \/ c = 405)
                      /\ fst (Ado.handler ADO_PAT req upstream) = Ret (Ado.json c b)))
  \/ exists org project queryId pat, ado_accepted ADO_PAT req org project queryId pat.
Proof.
  unfold Ado.handler.
  destruct (String.eqb (method req) "OPTIONS"); [left; split; auto|].
  destruct (String.eqb_spec (method req) "POST") as [Hm|Hm]; cbn [negb].
  2: { left. split; [reflexivity|]. right. right. do 2 eexists. split; [right|]; reflexivity. }
  destruct (Ado.fields ADO_PAT (request_payload (body req))) as [[[[org project] queryId] pat]|e]
    eqn:Hf.
  2: { left. split; [reflexivity|]. left. now exists e. }
  destruct (String.eqb_spec org "") as [|Ho].
  { left. split; [reflexivity|]. right. right. do 2 eexists. split; [left|]; reflexivity. }
  destruct (String.eqb_spec project "") as [|Hp].
  { left. split; [reflexivity|]. right. right. do 2 eexists. split; [left|]; reflexivity. }
  destruct (String.eqb_spec queryId "") as [|Hq].
  { left. split; [reflexivity|]. right. right. do 2 eexists. split; [left|]; reflexivity. }
  cbn [orb].
  destruct (String.eqb_spec pat "") as [|Ht].
  { left. split; [reflexivity|]. right. right. do 2 eexists. split; [left|]; reflexivity. }
  right. exists org, project, queryId, pat. repeat split; assumption.
Qed.

(** How the query runs: one call, or two when the first was answered in
    2xx; the answer is 502 exactly when the latest call was answered
    outside 2xx, and it then hands on the status and the body. *)
Lemma ado_query_run (org project queryId pat : string) (upstream : request -> response) :
  let rq1 := Ado.upstream_request (Ado.wiqlUrl org project queryId) pat in
  let r := Ado.query org project queryId pat upstream in
  headers (fst r) = Ado.setCors
  /\ (exists b, payload (fst r) = Some b)
  /\ (snd r = [(rq1, upstream rq1)]
      \/ exists text,
           snd r = [(rq1, upstream rq1);
                    (Ado.upstream_request (Ado.detailsUrl org project text) pat,
                     upstream (Ado.upstream_request (Ado.detailsUrl org project text) pat))]
           /\ ok (upstream rq1) = true)
  /\ (status_code (fst r) = 200 \/ status_code (fst r) = 500
      \/ (status_code (fst r) = 502
          /\ exists rq rs what,
               last (snd r) = Some (rq, rs) /\ ok rs = false /\ fst r = Ado.failure what rs))
  /\ (forall rq rs, last (snd r) = Some (rq, rs) -> ok rs = false -> status_code (fst r) = 502).
Proof.
  cbv zeta. unfold Ado.query.
  set (rq1 := Ado.upstream_request (Ado.wiqlUrl org project queryId) pat).
  destruct (ok (upstream rq1)) eqn:Hq; cbn [negb].
  2: { cbn [fst snd]. split; [reflexivity|]. split; [eexists; reflexivity|].
       split; [now left|]. split.
       - right. right. split; [reflexivity|]. do 3 eexists. split; [reflexivity|]. now split.
       - reflexivity. }
  destruct (obind (JSON_parse_or_throw (raw (upstream rq1))) Ado.work_item_ids) as [[|i ids]|e].
  - cbn [fst snd]. split; [reflexivity|]. split; [eexists; reflexivity|].
    split; [now left|]. split; [now left|].
    intros rq rs [= <- <-]. congruence.
  - destruct (Ado.join_ids (i :: ids)) as [text|e].
    + set (rq2 := Ado.upstream_request (Ado.detailsUrl org project text) pat).
      destruct (ok (upstream rq2)) eqn:Hd; cbn [negb].
      2: { cbn [fst snd]. split; [reflexivity|]. split; [eexists; reflexivity|].
           split; [right; exists text; now split|]. split.
           - right. right. split; [reflexivity|].
             do 3 eexists. split; [reflexivity|]. now split.
           - reflexivity. }
      destruct (JSON_parse_or_throw (raw (upstream rq2))) as [details|e];
        cbn [fst snd]; (split; [reflexivity|]); (split; [eexists; reflexivity|]);
        (split; [right; exists text; now split|]);
        (split; [auto|]); intros rq rs [= <- <-]; congruence.
    + cbn [fst snd]. split; [reflexivity|]. split; [eexists; reflexivity|].
      split; [now left|]. split; [auto|].
      intros rq rs [= <- <-]. congruence.
  - cbn [fst snd]. split; [reflexivity|]. split; [eexists; reflexivity|].
    split; [now left|]. split; [auto|].
    intros rq rs [= <- <-]. congruence.
Qed.

(** X22. Whatever the request and the answers of the service, the proxy
    makes at most two calls, each a [GET] without body; when it answers,
    the answer carries its three cross-origin headers and is 204 without a
    body or one of 200, 400, 405, 500 and 502 with a JSON body; and
    nothing was called when the handler throws. *)
Theorem ado_answers (ADO_PAT : option string) (req : http_request)
    (upstream : request -> response) :
  let r := Ado.handler ADO_PAT req upstream in
  (length (snd r) <= 2)%nat
  /\ (forall rq rs, (rq, rs) ∈ snd r ->
        rq_method rq = GET /\ rq_body rq = None /\ rs = upstream rq)
  /\ (forall res, fst r = Ret res ->
        headers res =
        [("Access-Control-Allow-Origin", "*");
         ("Access-Control-Allow-Headers", "Content-Type, Authorization");
         ("Access-Control-Allow-Methods", "POST, OPTIONS")]
        /\ ((status_code res = 204 /\ payload res = None)
            \/ ((exists b, payload res = Some b)
                /\ In (status_code res) [200; 400; 405; 500; 502])))
  /\ (forall e, fst r = Throw e -> snd r = []).
Proof.
  cbv zeta.
  destruct (ado_handler_cases ADO_PAT req upstream)
    as [[Hcalls Hres]|(org & project & queryId & pat & Hacc)].
  - rewrite Hcalls. split; [simpl; lia|]. split; [intros rq rs H; inversion H|].
    split; [|reflexivity]. intros res Hr.
    destruct Hres as [(e & He)|[H204|(c & b & Hc & Hj)]].
    + congruence.
    + rewrite H204 in Hr. injection Hr as <-. split; [reflexivity|]. left. now split.
    + rewrite Hj in Hr. injection Hr as <-. split; [reflexivity|]. right.
      split; [eexists; reflexivity|]. destruct Hc as [-> | ->]; simpl; auto.
  - rewrite (ado_handler_accepted _ _ _ _ _ _ upstream Hacc). cbn [fst snd].
    destruct (ado_query_run org project queryId pat upstream)
      as (Hh & Hb & Hcalls & Hcode & _).
    split; [|split; [|split]].
    + destruct Hcalls as [-> | (text & -> & _)]; simpl; lia.
    + intros rq rs Hin.
      destruct Hcalls as [E | (text & E & _)]; rewrite E in Hin;
        repeat (apply elem_of_cons in Hin as [[= -> ->]|Hin]; [now repeat split|]);
        inversion Hin.
    + intros res [= <-]. split; [exact Hh|]. right. split; [exact Hb|].
      destruct Hcode as [H|[H|[H _]]]; rewrite H; simpl; auto 10.
    + discriminate.
Qed.



(** X24. The proxy answers 502 exactly when the latest call was answered
    outside 2xx: a failed query is not followed by the fetch of work
    items, and the answer hands on the status and the body of the failed
    call. *)
Theorem ado_bad_gateway (ADO_PAT : option string) (req : http_request)
    (upstream : request -> response) (res : http_response) :
  fst (Ado.handler ADO_PAT req upstream) = Ret res ->
  (status_code res = 502 <->
   exists rq rs, last (snd (Ado.handler ADO_PAT req upstream)) = Some (rq, rs) /\ ok rs = false)
  /\ (status_code res = 502 ->
      exists rq rs,
        last (snd (Ado.handler ADO_PAT req upstream)) = Some (rq, rs)
        /\ body_field (payload res) "status" = Some (VNum (number_of_Z (status rs)))
        /\ body_field (payload res) "details" = Some (VStr (raw rs))).
Proof.
  intros Hr.
  destruct (ado_handler_cases ADO_PAT req upstream)
    as [[Hcalls Hres]|(org & project & queryId & pat & Hacc)].
  - rewrite Hcalls.
    assert (status_code res <> 502) as Hn.
    { destruct Hres as [(e & He)|[H204|(c & b & Hc & Hj)]].
      - congruence.
      - rewrite H204 in Hr. injection Hr as <-. discriminate.
      - rewrite Hj in Hr. injection Hr as <-. destruct Hc as [-> | ->]; discriminate. }
    split; [split|]; [contradiction | intros (rq & rs & H & _); discriminate H | contradiction].
  - rewrite (ado_handler_accepted _ _ _ _ _ _ upstream Hacc) in *. cbn [fst snd] in *.
    injection Hr as <-.
    destruct (ado_query_run org project queryId pat upstream)
      as (_ & _ & _ & Hcode & Hback).
    assert (status_code (fst (Ado.query org project queryId pat upstream)) = 502 ->
            exists rq rs what,
              last (snd (Ado.query org project queryId pat upstream)) = Some (rq, rs)
              /\ ok rs = false
              /\ fst (Ado.query org project queryId pat upstream) = Ado.failure what rs) as Hfwd.
    { intros H502. destruct Hcode as [H|[H|[_ H]]]; [congruence | congruence | exact H]. }
    split; [split|].
    + intros H502. destruct (Hfwd H502) as (rq & rs & what & Hl & Hok & _). eauto.
    + intros (rq & rs & Hl & Hok). exact (Hback rq rs Hl Hok).
    + intros H502. destruct (Hfwd H502) as (rq & rs & what & Hl & _ & ->).
      exists rq, rs. split; [exact Hl|]. split; reflexivity.
Qed.

(** ** The work items asked for *)






(** ** Concrete runs of the proxy *)


(** X24, at a concrete input: the fetch of work items fails. *)
Lemma ado_bad_gateway_witness :
  exists rq rs,
    last (snd (Ado.handler (Some "tok") ado_request ado_service)) = Some (rq, rs)
    /\ ok rs = false.
Proof.
  apply (proj1 (ado_bad_gateway (Some "tok") ado_request ado_service
                  (Ado.failure "Work items fetch failed"
                     {| status := 503; statusText := "Service Unavailable";
                        raw := "try later" |})
                  ltac:(vm_compute; reflexivity))).
  reflexivity.
Defined.



(** * Configuration, and writing twice *)

Lemma missing_vars_spec (env : environment) (k : string) :
  VStr k ∈ missing_vars env <->
  (k = "GITHUB_TOKEN" /\ env_string (GITHUB_TOKEN env) = "")
  \/ (k = "GITHUB_OWNER" /\ env_string (GITHUB_OWNER env) = "")
  \/ (k = "GITHUB_REPO" /\ env_string (GITHUB_REPO env) = "").
Proof.
  unfold missing_vars.
  destruct (String.eqb_spec (env_string (GITHUB_TOKEN env)) "") as [Ht|Ht];
    destruct (String.eqb_spec (env_string (GITHUB_OWNER env)) "") as [Ho|Ho];
    destruct (String.eqb_spec (env_string (GITHUB_REPO env)) "") as [Hr|Hr];
    cbn [app]; rewrite ?elem_of_cons, elem_of_nil;
    split; intros H;
    repeat match goal with
           | H : _ \/ _ |- _ => destruct H as [H|H]
           | H : _ /\ _ |- _ => destruct H as [? H]
           | H : VStr _ = VStr _ |- _ => injection H as ->
           | H : False |- _ => contradiction
           end;
    subst; auto 10; try contradiction.
Qed.

(** X27. With an environment that lacks the token, the owner or the
    repository, or whose repository name has a slash, every request but
    [OPTIONS] gets the same answer, whatever its method, id and body and
    whatever the state of the host, and the host is not called: 500 with
    the names of the variables that are unset or empty, or else 400 with
    the repository name. *)
Theorem configuration_errors (env : environment) (req req' : http_request) (w w' : world) :
  ~ configured env -> method req <> "OPTIONS" -> method req' <> "OPTIONS" ->
  snd (handler env req w) = w
  /\ fst (handler env req w) = fst (handler env req' w')
  /\ ((missing_vars env <> []
       /\ fst (handler env req w)
          = json 500 [("error", VStr "Missing env vars"); ("missing", VArr (missing_vars env))]
       /\ forall k,
            VStr k ∈ missing_vars env <->
            (k = "GITHUB_TOKEN" /\ env_string (GITHUB_TOKEN env) = "")
            \/ (k = "GITHUB_OWNER" /\ env_string (GITHUB_OWNER env) = "")
            \/ (k = "GITHUB_REPO" /\ env_string (GITHUB_REPO env) = ""))
      \/ (missing_vars env = []
          /\ fst (handler env req w)
             = json 400 [("error", VStr "GITHUB_REPO must be repo name only");
                         ("got", VStr (env_string (GITHUB_REPO env)))])).
Proof.
  intros Hc Hm Hm'. unfold handler.
  apply String.eqb_neq in Hm. apply String.eqb_neq in Hm'. rewrite Hm, Hm'.
  destruct (missing_vars env) as [|m ms] eqn:Em.
  - destruct (includes "/" (repo (config_of env))) eqn:Er.
    + cbn [fst snd]. split; [reflexivity|]. split; [reflexivity|]. right. now split.
    + contradiction Hc. now split.
  - cbn [fst snd]. split; [reflexivity|]. split; [reflexivity|]. left.
    split; [discriminate|]. split; [reflexivity|].
    intros k. rewrite <- Em. apply missing_vars_spec.
Qed.

(** ** Writing twice *)

Lemma findIndex_insert (p : value -> bool) (l : list value) (i : nat) (y : value) :
  findIndex p l = Some i -> p y = true -> findIndex p (<[i := y]> l) = Some i.
Proof.
  revert i. induction l as [|x l IH]; intros i; simpl; [discriminate|].
  destruct (p x) eqn:Hx.
  - intros [= <-] Hy. simpl. now rewrite Hy.
  - destruct (findIndex p l) as [j|] eqn:E; [|discriminate]. simpl.
    intros [= <-] Hy. simpl. now rewrite Hx, (IH j eq_refl Hy).
Qed.

Lemma findIndex_snoc (p : value -> bool) (l : list value) (y : value) :
  findIndex p l = None -> p y = true -> findIndex p (l ++ [y]) = Some (length l).
Proof.
  induction l as [|x l IH]; simpl; intros H Hy; [now rewrite Hy|].
  destruct (p x); [discriminate|].
  destruct (findIndex p l); [discriminate|]. now rewrite (IH eq_refl Hy).
Qed.

Lemma has_id_assign (old : value) (id : string) (name : value) (stamp : string) :
  has_id id (Object_assign old [("id", VStr id); ("name", name); ("updatedAt", VStr stamp)])
  = true.
Proof. apply has_id_spec, Object_assign_id. Qed.

Lemma has_id_entry (id : string) (name : value) (stamp : string) :
  has_id id (VObj [("id", VStr id); ("name", name); ("updatedAt", VStr stamp)]) = true.
Proof. apply has_id_spec. reflexivity. Qed.

(** After an upsert the list has an entry of the id. *)
Lemma upsert_found (l : list value) (id : string) (name : value) (stamp : string) :
  exists i old,
    findIndex (has_id id)
      (upsert l id [("id", VStr id); ("name", name); ("updatedAt", VStr stamp)]) = Some i
    /\ upsert l id [("id", VStr id); ("name", name); ("updatedAt", VStr stamp)] !! i = Some old
    /\ entry_id old = Some (VStr id).
Proof.
  unfold upsert. destruct (findIndex (has_id id) l) as [idx|] eqn:E.
  - destruct (findIndex_Some _ _ _ E) as (old & Hold & _). rewrite Hold.
    exists idx,
      (Object_assign old [("id", VStr id); ("name", name); ("updatedAt", VStr stamp)]).
    split; [apply findIndex_insert; [exact E | apply has_id_assign]|].
    split; [|apply Object_assign_id].
    apply list_lookup_insert_eq. now apply lookup_lt_Some in Hold.
  - exists (length l), (VObj [("id", VStr id); ("name", name); ("updatedAt", VStr stamp)]).
    split; [apply findIndex_snoc; [exact E | apply has_id_entry]|].
    split; [|reflexivity].
    rewrite lookup_app_r by lia. now rewrite Nat.sub_diag.
Qed.

(** A second upsert of the id replaces the entry that the first one left:
    the list keeps its length and its ids. *)
Lemma upsert_twice (l : list value) (id : string) (n1 n2 : value) (s1 s2 : string) :
  let l1 := upsert l id [("id", VStr id); ("name", n1); ("updatedAt", VStr s1)] in
  let l2 := upsert l1 id [("id", VStr id); ("name", n2); ("updatedAt", VStr s2)] in
  length l2 = length l1 /\ ids l2 = ids l1 /\ VStr id ∈ ids l1.
Proof.
  cbv zeta. destruct (upsert_found l id n1 s1) as (i & old & Hi & Hold & Hid).
  set (l1 := upsert l id _) in *.
  unfold upsert. rewrite Hi, Hold.
  split; [apply length_insert|]. split.
  - apply (ids_insert _ _ old); [exact Hold|]. now rewrite Object_assign_id.
  - apply elem_of_ids. exists old. split; [|exact Hid].
    now apply (list_elem_of_lookup_2 _ i).
Qed.

(** The entries of the manifest after a write that answered 200. *)
Lemma post_listing (env : environment) (req : http_request) (w : world)
    (id : string) (props : list (string * value)) (state : value) :
  configured env -> method req = "POST" ->
  safeDashId (query_dash req) = Some id ->
  body req = Some (VObj props) -> obj_lookup props "state" = Some state ->
  honest w ->
  status_code (fst (handler env req w)) = 200 ->
  exists name,
    listing env (snd (handler env req w))
    = upsert (listing env w) id [("id", VStr id); ("name", name); ("updatedAt", VStr (now w))].
Proof.
  intros Hc Hm Hid Hb Hs Hh H200.
  destruct (post_success env req w id props state Hc Hm Hid Hb Hs Hh H200)
    as (name & sha & sha' & Hname & Hw').
  exists name. unfold listing at 1, entries_at. fold (manifest_url env).
  rewrite Hw', lookup_insert_eq. cbn [f_content].
  apply manifest_entries_stringify.
  apply upsert_serializable; [apply entries_at_serializable | | reflexivity].
  cbn [forallb snd serializable]. now rewrite (display_name_serializable _ _ Hname).
Qed.

(** X28. Writing a dashboard again does not add an entry: after two
    [POST]s of the same id that answered 200, the second made on the files
    that the first left, the manifest has as many entries as after the
    first, with the same ids in the same order, the id among them. *)
Theorem repeated_write_keeps_one_entry (env : environment) (req req2 : http_request)
    (w w2 : world) (id : string) (props props2 : list (string * value))
    (state state2 : value) :
  configured env ->
  method req = "POST" -> safeDashId (query_dash req) = Some id ->
  body req = Some (VObj props) -> obj_lookup props "state" = Some state ->
  honest w -> status_code (fst (handler env req w)) = 200 ->
  method req2 = "POST" -> safeDashId (query_dash req2) = Some id ->
  body req2 = Some (VObj props2) -> obj_lookup props2 "state" = Some state2 ->
  honest w2 -> files w2 = files (snd (handler env req w)) ->
  status_code (fst (handler env req2 w2)) = 200 ->
  let first := listing env (snd (handler env req w)) in
  let second := listing env (snd (handler env req2 w2)) in
  length second = length first /\ ids second = ids first /\ VStr id ∈ ids first.
Proof.
  intros Hc Hm Hid Hb Hs Hh H200 Hm2 Hid2 Hb2 Hs2 Hh2 Hfiles H200'. cbv zeta.
  destruct (post_listing env req w id props state Hc Hm Hid Hb Hs Hh H200) as (n1 & E1).
  destruct (post_listing env req2 w2 id props2 state2 Hc Hm2 Hid2 Hb2 Hs2 Hh2 H200')
    as (n2 & E2).
  assert (listing env w2 = listing env (snd (handler env req w))) as Hsame
    by (unfold listing; apply entries_at_files; now rewrite Hfiles).
  rewrite E2, Hsame, E1. apply upsert_twice.
Qed.

(** ** Concrete runs *)

(** X27, at a concrete input: a write and a listing get the same
    answer. *)
Lemma configuration_errors_witness :
  fst (handler tokenless_env (post_of "abc" example_state) empty_world)
  = fst (handler tokenless_env list_all manifest_world)
  /\ snd (handler tokenless_env (post_of "abc" example_state) empty_world) = empty_world.
Proof.
  destruct (configuration_errors tokenless_env (post_of "abc" example_state) list_all
              empty_world manifest_world)
    as (Hw & Hsame & _).
  - intros [H _]. discriminate H.
  - discriminate.
  - discriminate.
  - split; assumption.
Defined.

(** X28, at a concrete input: [abc] is written twice. *)
Lemma repeated_write_witness :
  let w1 := snd (handler example_env (post_of "abc" example_state) empty_world) in
  length (listing example_env
            (snd (handler example_env (post_of "abc" VNull) (settle w1))))
  = length (listing example_env w1).
Proof.
  cbv zeta.
  destruct (repeated_write_keeps_one_entry example_env
              (post_of "abc" example_state) (post_of "abc" VNull) empty_world
              (settle (snd (handler example_env (post_of "abc" example_state) empty_world)))
              "abc" [("state", example_state)] [("state", VNull)] example_state VNull)
    as (Hlen & _).
  - exact example_env_configured.
  - reflexivity.
  - vm_compute; reflexivity.
  - reflexivity.
  - reflexivity.
  - constructor.
  - vm_compute; reflexivity.
  - reflexivity.
  - vm_compute; reflexivity.
  - reflexivity.
  - reflexivity.
  - constructor.
  - reflexivity.
  - vm_compute; reflexivity.
  - exact Hlen.
Defined.

(** * The answers of a delete *)

Lemma handle_delete_unfold (cfg : config) (dash : option qparam) (id : string) :
  safeDashId dash = Some id ->
  handle_delete cfg dash =
  (let* file := ghGetFile cfg (dashboard_path id) in
   match file with
   | GetError e => ret (failed "GitHub GET pre-delete failed" e)
   | GetMissing _ => ret (json 200 [("ok", VBool true); ("deleted", VBool false)])
   | GetFound sha _ _ =>
       let* del := ghDeleteFile cfg (dashboard_path id) sha in
       match del with
       | DeleteError e => ret (failed "GitHub DELETE failed" e)
       | DeleteOk commitUrl _ => delete_manifest cfg id commitUrl
       end
   end).
Proof. intros H. unfold handle_delete. now rewrite H. Qed.

(** ** The manifest step *)

(** The step answers 200 with the commit of the delete, or it throws. *)
Lemma delete_manifest_ends (cfg : config) (id : string) (c : value) (w : world) :
  fst (delete_manifest cfg id c w) = Ret (json 200 [("ok", VBool true); ("commitUrl", c)])
  \/ exists e, fst (delete_manifest cfg id c w) = Throw e.
Proof.
  unfold delete_manifest, bind.
  destruct (loadManifest cfg w) as [[[e|ex sha l]|e] w3]; cbn [ret fst]; eauto.
  destruct (saveManifest cfg (manifest_sha ex sha) (without_id l id) w3) as [[o|e] w4];
    cbn [ret fst]; eauto.
Qed.


(** A save whose failure, if any, is an answer outside 2xx returns. *)
Lemma saveManifest_returns (cfg : config) (sha : option value) (l : list value) (w : world) :
  error_answer_at 0 w -> exists res w', saveManifest cfg sha l w = (Ret res, w').
Proof.
  intros He. rewrite saveManifest_unfold.
  destruct (fault_at 0 w) as [r|] eqn:Hf.
  - rewrite (ghPutFile_fault _ _ _ _ _ _ _ Hf (He r Hf)). eauto.
  - rewrite (ghPutFile_answer _ _ _ _ _ _ Hf). cbv zeta.
    destruct (files w !! contents_url cfg MANIFEST_PATH) as [f|];
      destruct (if truthy_opt sha then sha else None) as [[| | |given| |]|]; eauto.
    destruct (String.eqb given (f_sha f)); eauto.
Qed.

(** Failures that are answers outside 2xx are absorbed. *)
Lemma delete_manifest_absorbs (cfg : config) (id : string) (c : value) (w : world) :
  error_answer_at 0 w -> error_answer_at 1 w ->
  fst (delete_manifest cfg id c w) = Ret (json 200 [("ok", VBool true); ("commitUrl", c)]).
Proof.
  intros H0 H1. unfold delete_manifest.
  assert (exists res rs,
            loadManifest cfg w =
            (Ret res, exchanged w (get_request cfg MANIFEST_PATH) rs (files w) (serial w)))
    as (res & rs & E3).
  { destruct (fault_at 0 w) as [r|] eqn:Hf.
    - rewrite (loadManifest_fault _ _ _ Hf (H0 r Hf)). eauto.
    - rewrite (loadManifest_answer _ _ Hf).
      destruct (files w !! contents_url cfg MANIFEST_PATH); eauto. }
  rewrite (bind_ret _ _ _ _ _ E3). destruct res as [e|ex sha l]; [reflexivity|].
  cbv beta iota.
  match goal with
  | |- context [bind (bind (saveManifest cfg ?s ?l0) _) _ ?w0] =>
      destruct (saveManifest_returns cfg s l0 w0) as (o4 & w4 & E4)
  end.
  { intros r. rewrite fault_at_exchanged. apply H1. }
  now rewrite (bind_ret _ _ _ _ _ (bind_ret _ _ _ _ _ E4)).
Qed.





(** ** The whole run *)

(** The run up to the manifest step, when the host answers the read and
    the delete of a document that it has. *)
Lemma delete_reaches_manifest (env : environment) (req : http_request)
    (w : world) (id : string) (f : file) :
  configured env -> method req = "DELETE" ->
  safeDashId (query_dash req) = Some id ->
  files w !! document_url env id = Some f ->
  fault_at 0 w = None -> fault_at 1 w = None ->
  exists w2,
    handler env req w
    = finish (delete_manifest (config_of env) id (VStr (commit_url (serial w))) w2)
    /\ files w2 !! document_url env id = None
    /\ (forall k, fault_at k w2 = fault_at (S (S k)) w).
Proof.
  intros Hc Hm Hid Hfile Hf0 Hf1.
  rewrite handler_delete by assumption.
  rewrite (handle_delete_unfold _ _ _ Hid).
  pose proof (ghGetFile_answer (config_of env) (dashboard_path id) w Hf0) as E1.
  unfold document_url in Hfile. rewrite Hfile in E1.
  rewrite (bind_ret _ _ _ _ _ E1). cbv beta iota.
  set (w1 := exchanged w _ _ _ _).
  assert (fault_at 0 w1 = None) as Hf1' by (unfold w1; now rewrite fault_at_exchanged).
  assert (files w1 !! contents_url (config_of env) (dashboard_path id) = Some f) as Hfile1
    by exact Hfile.
  rewrite (bind_ret _ _ _ _ _ (ghDeleteFile_answer _ _ f w1 Hf1' Hfile1)). cbv beta iota.
  eexists. split; [reflexivity|]. split.
  - cbn [files exchanged]. apply lookup_delete_eq.
  - intros k. unfold w1. now rewrite !fault_at_exchanged.
Qed.

(** Every way a delete of a well-formed id ends, on any world. *)
Lemma handle_delete_ends (cfg : config) (dash : option qparam) (id : string) (w : world) :
  safeDashId dash = Some id ->
  let r := handle_delete cfg dash w in
  let doc := dashboard_path id in
  (exists rs, status rs = 404
     /\ r = (Ret (json 200 [("ok", VBool true); ("deleted", VBool false)]),
             exchanged w (get_request cfg doc) rs (files w) (serial w)))
  \/ (exists rs, ok rs = false
        /\ r = (Ret (failed "GitHub GET pre-delete failed"
                       (error_of "github_get" (get_url cfg doc) rs)),
                exchanged w (get_request cfg doc) rs (files w) (serial w)))
  \/ (exists rs sha rest, ok rs = false
        /\ fst r = Ret (failed "GitHub DELETE failed"
                          (error_of "github_delete" (contents_url cfg doc) rs))
        /\ log (snd r) = (delete_request cfg doc (now w) sha, rs) :: rest)
  \/ (exists c, fst r = Ret (json 200 [("ok", VBool true); ("commitUrl", c)]))
  \/ (exists e, fst r = Throw e).
Proof.
  intros Hid. cbv zeta. rewrite (handle_delete_unfold _ _ _ Hid).
  destruct (ghGetFile_any cfg (dashboard_path id) w) as (rs1 & o1 & w1 & E1 & -> & C1).
  destruct o1 as [[e|u|sha c u]|e]; cbn [get_case] in C1.
  - rewrite (bind_ret _ _ _ _ _ E1). destruct C1 as (_ & Hok & ->).
    right. left. exists rs1. now split.
  - rewrite (bind_ret _ _ _ _ _ E1). destruct C1 as (H404 & _).
    left. exists rs1. now split.
  - rewrite (bind_ret _ _ _ _ _ E1). cbv beta iota.
    match goal with
    | |- context [bind (ghDeleteFile cfg ?p ?s) _ ?w0] =>
        destruct (ghDeleteFile_any cfg p s w0) as (rs2 & o2 & w2 & E2 & T2 & C2)
    end.
    cbn [now exchanged] in E2, T2.
    specialize (T2 (fun _ => True) _ [] (trace_nil _ _ _) I).
    apply trace_log in T2.
    destruct o2 as [[e|c2 u2]|e]; cbn [delete_case] in C2.
    + rewrite (bind_ret _ _ _ _ _ E2). destruct C2 as (Hok & ->).
      right. right. left. exists rs2, sha. eexists. split; [exact Hok|].
      split; [reflexivity | exact T2].
    + rewrite (bind_ret _ _ _ _ _ E2). cbv beta iota.
      destruct (delete_manifest_ends cfg id c2 w2) as [E|(e & E)].
      * right. right. right. left. now exists c2.
      * right. right. right. right. now exists e.
    + rewrite (bind_throw _ _ _ _ _ E2). right. right. right. right. now exists e.
  - rewrite (bind_throw _ _ _ _ _ E1). right. right. right. right. now exists e.
Qed.


(** The answers of a handler that is not configured carry no [deleted]
    property and are not 200. *)
Lemma unconfigured_answer (env : environment) (req : http_request) (w : world) :
  String.eqb (method req) "OPTIONS" = false ->
  configured env
  \/ (status_code (fst (handler env req w)) <> 200
      /\ body_field (payload (fst (handler env req w))) "deleted" = None).
Proof.
  intros Ho. unfold handler, configured. rewrite Ho.
  destruct (missing_vars env) as [|m ms]; [|right; split; [discriminate | reflexivity]].
  destruct (includes "/" (repo (config_of env)));
    [right; split; [discriminate | reflexivity] | left; now split].
Qed.

(** C4 (amended). The answers of a delete. On an existing document whose
    read and delete the host answers, a success is 200
    [{ok: true, commitUrl}] with the commit of the delete, and no [deleted]
    property; it is the answer when the manifest calls fail, if at all, by
    an answer outside 2xx. On any world, an answer 200 is either
    [{ok: true, commitUrl}] or [{ok: true, deleted: false}], the latter
    given after the read of the document alone, answered 404; and a
    [deleted] property is never in another answer, so it is never true. *)
Theorem delete_success_body (env : environment) (req : http_request) (w : world) :
  method req = "DELETE" ->
  let run := handler env req w in
  let res := fst run in
  let missing :=
    exists id rs,
      safeDashId (query_dash req) = Some id /\ status rs = 404
      /\ run = (json 200 [("ok", VBool true); ("deleted", VBool false)],
                exchanged w (get_request (config_of env) (dashboard_path id)) rs
                  (files w) (serial w)) in
  (forall id f,
     configured env -> safeDashId (query_dash req) = Some id ->
     files w !! document_url env id = Some f ->
     fault_at 0 w = None -> fault_at 1 w = None ->
     let removed :=
       res = json 200 [("ok", VBool true); ("commitUrl", VStr (commit_url (serial w)))]
       /\ body_field (payload res) "deleted" = None in
     (status_code res = 200 -> removed)
     /\ (error_answer_at 2 w -> error_answer_at 3 w -> removed))
  /\ (status_code res = 200 ->
      (exists c, res = json 200 [("ok", VBool true); ("commitUrl", c)]) \/ missing)
  /\ (forall v, body_field (payload res) "deleted" = Some v -> v = VBool false /\ missing).
Proof.
  intros Hm. cbv zeta. split; [|].
  - intros id f Hc Hid Hfile Hf0 Hf1.
    destruct (delete_reaches_manifest env req w id f Hc Hm Hid Hfile Hf0 Hf1)
      as (w2 & -> & _ & Hfaults).
    set (c := VStr (commit_url (serial w))). split.
    + destruct (delete_manifest_ends (config_of env) id c w2) as [E|(e & E)];
        destruct (delete_manifest (config_of env) id c w2) as [o w4]; cbn [fst] in E;
        rewrite E; [split; reflexivity | discriminate].
    + intros H2 H3.
      assert (error_answer_at 0 w2) as H0 by (intros r; rewrite Hfaults; apply H2).
      assert (error_answer_at 1 w2) as H1 by (intros r; rewrite Hfaults; apply H3).
      pose proof (delete_manifest_absorbs (config_of env) id c w2 H0 H1) as E.
      destruct (delete_manifest (config_of env) id c w2) as [o w4]. cbn [fst] in E.
      rewrite E. split; reflexivity.
  - destruct (unconfigured_answer env req w) as [Hc|[H200 Hnone]];
      [now rewrite Hm | | split; [contradiction | rewrite Hnone; discriminate]].
    rewrite handler_delete by assumption.
    destruct (safeDashId (query_dash req)) as [id|] eqn:Hid.
    2: { unfold handle_delete. rewrite Hid. cbn [finish ret fst]. split; discriminate. }
    destruct (handle_delete_ends (config_of env) (query_dash req) id w)
      as [(rs & H404 & E)|[(rs & Hok & E)|[(rs & sha & rest & Hok & E & Hlog)
         |[(c & E)|(e & E)]]]]; cbv zeta in *; [exact Hid | | | | |].
    + rewrite E. cbn [finish fst]. split.
      * intros _. right. exists id, rs. auto.
      * intros v [= <-]. split; [reflexivity|]. exists id, rs. auto.
    + rewrite E. cbn [finish fst]. split; discriminate.
    + destruct (handle_delete (config_of env) (query_dash req) w) as [o w']. cbn [fst] in E.
      rewrite E. cbn [finish fst]. split; discriminate.
    + destruct (handle_delete (config_of env) (query_dash req) w) as [o w']. cbn [fst] in E.
      rewrite E. cbn [finish fst]. split; [intros _; left; now exists c | discriminate].
    + destruct (handle_delete (config_of env) (query_dash req) w) as [o w']. cbn [fst] in E.
      rewrite E. cbn [finish fst]. split; discriminate.
Qed.

(** ** Concrete runs *)



(** C4 (amended), at a concrete input. *)
Lemma delete_success_witness :
  let res := fst (handler example_env (delete_of "abc") quiet_world) in
  res = json 200 [("ok", VBool true); ("commitUrl", VStr (commit_url 8))]
  /\ body_field (payload res) "deleted" = None.
Proof.
  destruct (delete_success_body example_env (delete_of "abc") quiet_world eq_refl) as [H _].
  destruct (H "abc" example_document example_env_configured) as [_ Hdone];
    [vm_compute; reflexivity | vm_compute; reflexivity | reflexivity | reflexivity |].
  apply Hdone; intros r Hr; discriminate Hr.
Defined.
